(** * Queue synchronization of the venus renderer (src/venus/vkr_queue.c)

    A shallow embedding of [vkr_queue.c]: the fence-retirement machinery
    (the per-device pool of [vkr_queue_sync] objects, the submission
    entry point, the per-queue retirement thread, queue creation and
    teardown), identity assignment and ring binding, and the command
    handlers that forward to the driver.

    Modelling conventions.
    - C structs are records; objects reached through pointers live in two
      stores of the [world] (one for [struct vkr_queue_sync], one for
      [struct vkr_queue]) and are named by addresses, so that aliasing
      between the pool, the per-queue list, the ring table and the
      thread's local variable is visible.
    - The intrusive lists of util/list.h are lists of addresses:
      [list_addtail] appends, [list_del] unlinks one node,
      [LIST_ENTRY (head.next)] is the first element.
    - Calls that leave the file (driver entry points of the proc table,
      threads.h primitives, free of a queue) are recorded, in program
      order, in the [trace] of the world; what the driver answers is an
      input of the function that makes the call. The calls of the
      [retire_fence] callback are recorded in the context. [vkr_log]
      only writes diagnostics, and the thread only names itself
      ([u_thread_setname]) before its loop: both are left out. The
      command handlers that forward to the driver take no part in the
      runs of a queue; they return the calls they make.
    - The retirement thread is cut at the two places where it sleeps with
      the queue mutex released ([cnd_wait] and [WaitForFences]); each piece
      between two such places runs under the mutex and is one step. *)

From stdpp Require Import base gmap list.
From Stdlib Require Import ZArith NArith Lia.

Local Open Scope N_scope.

(** ** Vulkan results and handles

    The three result codes the file tests, with their values in
    vulkan_core.h; the properties below only use that they differ. *)

Definition VkResult := Z.
Definition VK_SUCCESS : VkResult := 0%Z.
Definition VK_TIMEOUT : VkResult := 2%Z.
Definition VK_ERROR_DEVICE_LOST : VkResult := (-4)%Z.

Definition VkFence := N.
Definition VkQueue := N.
Definition vkr_object_id := N.

(** Addresses of heap objects. *)
Definition addr := positive.

(** ** Data model *)

(** Modelled from the spec: [struct vkr_queue_sync] (vkr_queue.h is not
    part of the sources), with the fields vkr_queue.c reads and writes:
    native fence handle, submission flags, ring index, completion token
    ([fence_id]) and the [device_lost] flag. The [head] link is the
    membership of the object's address in [free_syncs] or in a
    [pending_syncs]. *)
Record vkr_queue_sync := mk_sync {
  sync_fence : VkFence;
  sync_flags : N;
  sync_ring_idx : N;
  sync_fence_id : N;
  sync_device_lost : bool
}.

Global Instance vkr_queue_sync_inhabited : Inhabited vkr_queue_sync :=
  populate (mk_sync 0 0 0 0 false).

(** Where the retirement thread of a queue is. [T_cnd_wait]: blocked in
    [cnd_wait] at the head of the loop (also the state of a thread that
    was created and has not yet taken the mutex); [T_fence_wait sync]:
    mutex released, local variable [sync] set, result of the wait not
    yet examined; [T_exited]: the thread function has returned. *)
Inductive thread_state :=
| T_cnd_wait
| T_fence_wait (sync : addr)
| T_exited.

(** Modelled from the spec: [struct vkr_queue] (vkr_queue.h is not part
    of the sources), with the fields vkr_queue.c uses: the [id] and
    [handle.queue] of its [base], the lookup key (flags, family, index),
    the ring index, the in-flight registry, the join flag, and the state
    of its thread. *)
Record vkr_queue := mk_queue {
  queue_id : vkr_object_id;
  queue_handle : VkQueue;
  queue_flags : N;
  queue_family : N;
  queue_index : N;
  queue_ring_idx : N;
  pending_syncs : list addr;
  join : bool;
  thread : thread_state
}.

Global Instance vkr_queue_inhabited : Inhabited vkr_queue :=
  populate (mk_queue 0 0 0 0 0 0 [] false T_exited).

(** Modelled from the spec: the slice of [struct vkr_device]
    (vkr_device.h is not part of the sources) that vkr_queue.c uses: the
    free list of the pool, the list of queues, and the capability flag of
    its physical device. *)
Record vkr_device := mk_device {
  free_syncs : list addr;
  queues : list addr;
  KHR_external_fence_fd : bool
}.

(** Modelled from the spec: the slice of [struct vkr_context]
    (vkr_context.h is not part of the sources) that vkr_queue.c uses.
    [retired] logs the calls of the [retire_fence] callback, oldest
    first; [decoder_fatal] is the state of [ctx->decoder] that
    [vkr_cs_decoder_set_fatal] sets; [sync_queues] is the fixed-size ring
    table ([None] is NULL), whose length is ARRAY_SIZE(ctx->sync_queues);
    [object_table] is the registry of guest-visible ids. *)
Record vkr_context := mk_context {
  ctx_id : N;
  decoder_fatal : bool;
  sync_queues : list (option addr);
  object_table : gmap vkr_object_id addr;
  retired : list (N * N * N)
}.

Inductive mutex :=
| free_sync_mutex
| queue_mutex (q : addr).

(** Calls that leave the file. *)
Inductive event :=
| mtx_lock (m : mutex)
| mtx_unlock (m : mutex)
| cnd_signal (q : addr)
| cnd_wait (q : addr)
| mtx_destroy (m : mutex)
| cnd_destroy (q : addr)
| thrd_join_returned (q : addr)
| vk_CreateFence (export : bool) (result : VkResult) (fence : VkFence)
| vk_ResetFences (fence : VkFence)
| vk_QueueSubmit (queue : VkQueue) (submitCount : N) (fence : VkFence)
                 (result : VkResult)
| vk_WaitForFences (fence : VkFence) (timeout : N) (result : VkResult)
| free_queue (q : addr).

Record world := mk_world {
  syncs : gmap addr vkr_queue_sync;
  queue_objs : gmap addr vkr_queue;
  dev : vkr_device;
  ctx : vkr_context;
  trace : list event
}.

(** *** Field updates *)

Definition with_syncs (m : gmap addr vkr_queue_sync) (w : world) : world :=
  mk_world m (queue_objs w) (dev w) (ctx w) (trace w).
Definition with_queue_objs (m : gmap addr vkr_queue) (w : world) : world :=
  mk_world (syncs w) m (dev w) (ctx w) (trace w).
Definition with_dev (d : vkr_device) (w : world) : world :=
  mk_world (syncs w) (queue_objs w) d (ctx w) (trace w).
Definition with_ctx (c : vkr_context) (w : world) : world :=
  mk_world (syncs w) (queue_objs w) (dev w) c (trace w).
Definition emit (e : event) (w : world) : world :=
  mk_world (syncs w) (queue_objs w) (dev w) (ctx w) (trace w ++ [e]).

Definition with_free_syncs (l : list addr) (d : vkr_device) : vkr_device :=
  mk_device l (queues d) (KHR_external_fence_fd d).
Definition with_queues (l : list addr) (d : vkr_device) : vkr_device :=
  mk_device (free_syncs d) l (KHR_external_fence_fd d).

Definition with_pending_syncs (l : list addr) (q : vkr_queue) : vkr_queue :=
  mk_queue (queue_id q) (queue_handle q) (queue_flags q) (queue_family q)
           (queue_index q) (queue_ring_idx q) l (join q) (thread q).
Definition with_join (b : bool) (q : vkr_queue) : vkr_queue :=
  mk_queue (queue_id q) (queue_handle q) (queue_flags q) (queue_family q)
           (queue_index q) (queue_ring_idx q) (pending_syncs q) b (thread q).
Definition with_thread (t : thread_state) (q : vkr_queue) : vkr_queue :=
  mk_queue (queue_id q) (queue_handle q) (queue_flags q) (queue_family q)
           (queue_index q) (queue_ring_idx q) (pending_syncs q) (join q) t.
Definition with_queue_ring_idx (i : N) (q : vkr_queue) : vkr_queue :=
  mk_queue (queue_id q) (queue_handle q) (queue_flags q) (queue_family q)
           (queue_index q) i (pending_syncs q) (join q) (thread q).
Definition with_queue_id (i : vkr_object_id) (q : vkr_queue) : vkr_queue :=
  mk_queue i (queue_handle q) (queue_flags q) (queue_family q)
           (queue_index q) (queue_ring_idx q) (pending_syncs q) (join q)
           (thread q).

Definition with_decoder_fatal (b : bool) (c : vkr_context) : vkr_context :=
  mk_context (ctx_id c) b (sync_queues c) (object_table c) (retired c).
Definition with_sync_queues (t : list (option addr)) (c : vkr_context)
  : vkr_context :=
  mk_context (ctx_id c) (decoder_fatal c) t (object_table c) (retired c).
Definition with_object_table (t : gmap vkr_object_id addr) (c : vkr_context)
  : vkr_context :=
  mk_context (ctx_id c) (decoder_fatal c) (sync_queues c) t (retired c).
Definition with_retired (l : list (N * N * N)) (c : vkr_context)
  : vkr_context :=
  mk_context (ctx_id c) (decoder_fatal c) (sync_queues c) (object_table c) l.

(** Dereferencing a [struct vkr_queue_sync *] / [struct vkr_queue *]. *)
Definition sync_at (w : world) (a : addr) : vkr_queue_sync := syncs w !!! a.
Definition queue_at (w : world) (q : addr) : vkr_queue := queue_objs w !!! q.

Definition store_sync (a : addr) (s : vkr_queue_sync) (w : world) : world :=
  with_syncs (<[a := s]> (syncs w)) w.
Definition store_queue (q : addr) (v : vkr_queue) (w : world) : world :=
  with_queue_objs (<[q := v]> (queue_objs w)) w.

(** *** util/list.h *)

(** Modelled from the spec: [LIST_IS_EMPTY] (util/list.h is not part of
    the sources): whether the ordered list has no node. *)
Definition LIST_IS_EMPTY (l : list addr) : bool :=
  match l with [] => true | _ => false end.

(** Modelled from the spec: [list_addtail] (util/list.h is not part of
    the sources): pushes the node to the tail of the list. *)
Definition list_addtail (item : addr) (l : list addr) : list addr :=
  l ++ [item].

(** Modelled from the spec: [list_del] (util/list.h is not part of the
    sources): unlinks the node [item] from the list it is on (a node is
    on a list at most once). *)
Fixpoint list_del (item : addr) (l : list addr) : list addr :=
  match l with
  | [] => []
  | x :: l' => if decide (x = item) then l' else x :: list_del item l'
  end.

(** ** The pool of synchronization objects *)

(** What the environment answers inside [vkr_device_alloc_queue_sync]:
    [malloc_result] is [None] when malloc returns NULL and otherwise the
    indeterminate contents of the new block; [create_result] and
    [create_fence] are the return value of [vkCreateFence] and the handle
    it writes on success. *)
Record alloc_env := mk_alloc_env {
  malloc_result : option vkr_queue_sync;
  create_result : VkResult;
  create_fence : VkFence
}.

(** vkr_queue.c:14-60 *)
Definition vkr_device_alloc_queue_sync (e : alloc_env)
    (fence_flags ring_idx fence_id : N) (w : world) : option addr * world :=
  let w := emit (mtx_lock free_sync_mutex) w in
  match free_syncs (dev w) with
  | [] =>
      let w := emit (mtx_unlock free_sync_mutex) w in
      match malloc_result e with
      | None => (None, w)
      | Some garbage =>
          let sync := fresh (dom (syncs w)) in
          let w := store_sync sync garbage w in
          let w := emit (vk_CreateFence (KHR_external_fence_fd (dev w))
                                        (create_result e) (create_fence e)) w in
          if decide (create_result e ≠ VK_SUCCESS) then
            (* free(sync) *)
            (None, with_syncs (delete sync (syncs w)) w)
          else
            (Some sync,
             store_sync sync
               (mk_sync (create_fence e) fence_flags ring_idx fence_id false) w)
      end
  | sync :: rest =>
      let w := with_dev (with_free_syncs rest (dev w)) w in
      let w := emit (mtx_unlock free_sync_mutex) w in
      let w := emit (vk_ResetFences (sync_fence (sync_at w sync))) w in
      (Some sync,
       store_sync sync
         (mk_sync (sync_fence (sync_at w sync)) fence_flags ring_idx fence_id
                  false) w)
  end.

(** vkr_queue.c:62-68 *)
Definition vkr_device_free_queue_sync (sync : addr) (w : world) : world :=
  let w := emit (mtx_lock free_sync_mutex) w in
  let w := with_dev (with_free_syncs (list_addtail sync (free_syncs (dev w)))
                                     (dev w)) w in
  emit (mtx_unlock free_sync_mutex) w.

(** vkr_queue.c:70-75; the callback is [retire_fence] of the context. *)
Definition vkr_queue_sync_retire (sync : addr) (w : world) : world :=
  let s := sync_at w sync in
  let w := with_ctx (with_retired
                       (retired (ctx w) ++
                        [(ctx_id (ctx w), sync_ring_idx s, sync_fence_id s)])
                       (ctx w)) w in
  vkr_device_free_queue_sync sync w.

(** ** Submission *)

Definition with_device_lost (b : bool) (s : vkr_queue_sync) : vkr_queue_sync :=
  mk_sync (sync_fence s) (sync_flags s) (sync_ring_idx s) (sync_fence_id s) b.

(** What the environment answers inside [vkr_queue_sync_submit]. *)
Record submit_env := mk_submit_env {
  submit_alloc : alloc_env;
  submit_result : VkResult
}.

(** vkr_queue.c:101-106, the tail of [vkr_queue_sync_submit]. *)
Definition sync_submit_enqueue (queue sync : addr) (w : world) : bool * world :=
  let w := emit (mtx_lock (queue_mutex queue)) w in
  let q := queue_at w queue in
  let w := store_queue queue
             (with_pending_syncs (list_addtail sync (pending_syncs q)) q) w in
  let w := emit (mtx_unlock (queue_mutex queue)) w in
  let w := emit (cnd_signal queue) w in
  (true, w).

(** vkr_queue.c:77-107 *)
Definition vkr_queue_sync_submit (e : submit_env) (queue : addr)
    (flags ring_idx fence_id : N) (w : world) : bool * world :=
  match vkr_device_alloc_queue_sync (submit_alloc e) flags ring_idx fence_id w
  with
  | (None, w) => (false, w)
  | (Some sync, w) =>
      let result := submit_result e in
      let w := emit (vk_QueueSubmit (queue_handle (queue_at w queue)) 0
                                    (sync_fence (sync_at w sync)) result) w in
      if decide (result = VK_ERROR_DEVICE_LOST) then
        let w := store_sync sync (with_device_lost true (sync_at w sync)) w in
        sync_submit_enqueue queue sync w
      else if decide (result ≠ VK_SUCCESS) then
        (false, vkr_device_free_queue_sync sync w)
      else
        sync_submit_enqueue queue sync w
  end.

(** ** The retirement thread *)

Definition ns_per_sec : N := 1000000000.

(** The timeout argument of the wait, a uint64_t product. *)
Definition wait_timeout : N := (ns_per_sec * 3) mod 2 ^ 64.

(** vkr_queue.c:159-168: the head of the loop, entered with the queue
    mutex held. Leaves the thread asleep in [cnd_wait], returned, or about
    to wait for the fence of the first pending object. *)
Definition vkr_queue_thread_loop_head (queue : addr) (w : world) : world :=
  let q := queue_at w queue in
  if LIST_IS_EMPTY (pending_syncs q) && negb (join q) then
    store_queue queue (with_thread T_cnd_wait q) (emit (cnd_wait queue) w)
  else if join q then
    store_queue queue (with_thread T_exited q)
                (emit (mtx_unlock (queue_mutex queue)) w)
  else
    match pending_syncs q with
    | sync :: _ =>
        store_queue queue (with_thread (T_fence_wait sync) q)
                    (emit (mtx_unlock (queue_mutex queue)) w)
    | [] => w
    end.

(** The thread takes the mutex at entry (line 157) or gets it back when
    [cnd_wait] returns (line 160), and runs to its next sleep. *)
Definition vkr_queue_thread_wakeup (queue : addr) (w : world) : world :=
  match thread (queue_at w queue) with
  | T_cnd_wait =>
      vkr_queue_thread_loop_head queue (emit (mtx_lock (queue_mutex queue)) w)
  | _ => w
  end.

(** vkr_queue.c:170-186 and the next loop head: the wait of the thread
    ends with [wait_result] (not consulted for a device-lost object) and
    the thread runs to its next sleep. *)
Definition vkr_queue_thread_wait_returns (wait_result : VkResult)
    (queue : addr) (w : world) : world :=
  match thread (queue_at w queue) with
  | T_fence_wait sync =>
      let s := sync_at w sync in
      let '(result, w) :=
        if sync_device_lost s then (VK_ERROR_DEVICE_LOST, w)
        else (wait_result,
              emit (vk_WaitForFences (sync_fence s) wait_timeout wait_result) w)
      in
      let w := emit (mtx_lock (queue_mutex queue)) w in
      if decide (result = VK_TIMEOUT) then
        vkr_queue_thread_loop_head queue w
      else
        let q := queue_at w queue in
        let w := store_queue queue
                   (with_pending_syncs (list_del sync (pending_syncs q)) q) w in
        let w := vkr_queue_sync_retire sync w in
        vkr_queue_thread_loop_head queue w
  | _ => w
  end.

(** ** Teardown *)

(** [thrd_join] returns when the thread function has returned. It is
    called with [join] set, so the thread returns at its next loop head:
    at once when it sleeps in [cnd_wait], after its current wait (which
    ends with [wait_result]) otherwise. *)
Definition thrd_join (wait_result : VkResult) (queue : addr) (w : world)
  : world :=
  let w :=
    match thread (queue_at w queue) with
    | T_cnd_wait => vkr_queue_thread_wakeup queue w
    | T_fence_wait _ => vkr_queue_thread_wait_returns wait_result queue w
    | T_exited => w
    end in
  emit (thrd_join_returned queue) w.

(** vkr_queue.c:112-116, the head of [vkr_queue_retire_all_syncs]: the
    join request and the signal that wakes the thread. *)
Definition vkr_queue_request_join (queue : addr) (w : world) : world :=
  let w := emit (mtx_lock (queue_mutex queue)) w in
  let w := store_queue queue (with_join true (queue_at w queue)) w in
  let w := emit (mtx_unlock (queue_mutex queue)) w in
  emit (cnd_signal queue) w.

(** vkr_queue.c:109-122. The loop walks the list once from its first node
    and does not unlink the nodes it retires. *)
Definition vkr_queue_retire_all_syncs (wait_result : VkResult) (queue : addr)
    (w : world) : world :=
  let w := vkr_queue_request_join queue w in
  let w := thrd_join wait_result queue w in
  foldl (λ w sync, vkr_queue_sync_retire sync w) w
        (pending_syncs (queue_at w queue)).

(** Modelled from the spec: [vkr_context_remove_object] (vkr_context.h is
    not part of the sources): the removal path of the registry of
    guest-visible ids, which drops the id and deallocates the object. *)
Definition vkr_context_remove_object (obj : addr) (w : world) : world :=
  let id := queue_id (queue_at w obj) in
  let w := with_ctx (with_object_table (delete id (object_table (ctx w)))
                                       (ctx w)) w in
  with_queue_objs (delete obj (queue_objs w)) w.

(** vkr_queue.c:124-142. An index outside the ring table would be a write
    outside the array; [queue_ring_idx] is only ever set to an index that
    was checked against the table size (line 329). *)
Definition vkr_queue_destroy (wait_result : VkResult) (queue : addr)
    (w : world) : world :=
  let w := vkr_queue_retire_all_syncs wait_result queue w in
  let w := emit (mtx_destroy (queue_mutex queue)) w in
  let w := emit (cnd_destroy queue) w in
  let w := with_dev (with_queues (list_del queue (queues (dev w))) (dev w)) w in
  let q := queue_at w queue in
  let w :=
    if decide (0 < queue_ring_idx q) then
      with_ctx (with_sync_queues
                  (<[N.to_nat (queue_ring_idx q) := None]>
                     (sync_queues (ctx w))) (ctx w)) w
    else w in
  if decide (queue_id q ≠ 0) then
    vkr_context_remove_object queue w
  else
    with_queue_objs (delete queue (queue_objs w)) (emit (free_queue queue) w).

(** ** Creation *)

(** What the environment answers inside [vkr_queue_create]. *)
Record create_env := mk_create_env {
  object_alloc_ok : bool;
  mtx_init_ok : bool;
  cnd_init_ok : bool;
  thrd_create_ok : bool
}.

(** Modelled from the spec: [vkr_object_alloc] (vkr_common.h is not part
    of the sources) returns NULL or a new zeroed object, so that the id
    is 0 until [vkr_queue_assign_object_id], the ring index 0 until the
    queue is bound, and no join is requested. *)
Definition vkr_object_alloc (ok : bool) (w : world) : option addr * world :=
  if ok then
    let obj := fresh (dom (queue_objs w)) in
    (Some obj, store_queue obj (mk_queue 0 0 0 0 0 0 [] false T_exited) w)
  else (None, w).

(** vkr_queue.c:192-241. When a primitive or the thread cannot be
    created the queue is freed and NULL returned; otherwise the thread
    starts at the entry of [vkr_queue_thread]. *)
Definition vkr_queue_create (e : create_env) (flags family index : N)
    (handle : VkQueue) (w : world) : option addr * world :=
  match vkr_object_alloc (object_alloc_ok e) w with
  | (None, w) => (None, w)
  | (Some queue, w) =>
      let w := store_queue queue
                 (mk_queue 0 handle flags family index 0 [] false T_exited)
                 w in
      if negb (mtx_init_ok e) then
        (None, with_queue_objs (delete queue (queue_objs w))
                 (emit (free_queue queue) w))
      else if negb (cnd_init_ok e) then
        let w := emit (mtx_destroy (queue_mutex queue)) w in
        (None, with_queue_objs (delete queue (queue_objs w))
                 (emit (free_queue queue) w))
      else if negb (thrd_create_ok e) then
        let w := emit (mtx_destroy (queue_mutex queue)) w in
        let w := emit (cnd_destroy queue) w in
        (None, with_queue_objs (delete queue (queue_objs w))
                 (emit (free_queue queue) w))
      else
        (Some queue,
         store_queue queue (with_thread T_cnd_wait (queue_at w queue)) w)
  end.

(** ** Identity and ring binding *)

(** Modelled from the spec: [vkr_cs_decoder_set_fatal] (vkr_cs.h is not
    part of the sources) marks the command stream permanently invalid. *)
Definition vkr_cs_decoder_set_fatal (w : world) : world :=
  with_ctx (with_decoder_fatal true (ctx w)) w.

(** Modelled from the spec: [vkr_context_add_object] (vkr_context.h is not
    part of the sources) enters the object in the registry of
    guest-visible ids under its id. *)
Definition vkr_context_add_object (obj : addr) (w : world) : world :=
  with_ctx (with_object_table
              (<[queue_id (queue_at w obj) := obj]> (object_table (ctx w)))
              (ctx w)) w.

(** vkr_queue.c:261-275 *)
Definition vkr_device_lookup_queue (flags family index : N) (w : world)
  : option addr :=
  List.find (λ queue,
               let q := queue_at w queue in
               (queue_flags q =? flags) && (queue_family q =? family)
               && (queue_index q =? index))
            (queues (dev w)).

(** The decoded arguments of vkGetDeviceQueue and vkGetDeviceQueue2 that
    the handlers read: [ringIdx] is the field of the
    VkDeviceQueueTimelineInfoMESA found by [vkr_find_struct] in the pNext
    chain ([None] when there is none), [pQueue] the id loaded by
    [vkr_cs_handle_load_id]. *)
Record vn_command_vkGetDeviceQueue := mk_GetDeviceQueue {
  gdq_queueFamilyIndex : N;
  gdq_queueIndex : N;
  gdq_pQueue : vkr_object_id
}.

Record vn_command_vkGetDeviceQueue2 := mk_GetDeviceQueue2 {
  gdq2_flags : N;
  gdq2_queueFamilyIndex : N;
  gdq2_queueIndex : N;
  gdq2_ringIdx : option N;
  gdq2_pQueue : vkr_object_id
}.

Record vn_command_vkQueueWaitIdle := mk_QueueWaitIdle {
  qwi_queue : VkQueue
}.

(** ARRAY_SIZE(ctx->sync_queues) *)
Definition sync_queues_size (w : world) : N :=
  N.of_nat (length (sync_queues (ctx w))).

(** ctx->sync_queues[i] for an index inside the table *)
Definition sync_queue_at (w : world) (i : N) : option addr :=
  default None (sync_queues (ctx w) !! N.to_nat i).

Section identity.

(** [vkr_context_validate_object_id] (vkr_context.h) is not part of the
    sources. It is a parameter: given the context and an id it answers
    whether the id is accepted, and what the fatal flag of the decoder
    is when it returns. *)
Variable vkr_context_validate_object_id :
  vkr_context → vkr_object_id → bool * bool.

(** vkr_queue.c:243-259 *)
Definition vkr_queue_assign_object_id (queue : addr) (id : vkr_object_id)
    (w : world) : world :=
  if decide (queue_id (queue_at w queue) ≠ 0) then
    if decide (queue_id (queue_at w queue) ≠ id) then
      vkr_cs_decoder_set_fatal w
    else w
  else
    let '(ok, fatal) := vkr_context_validate_object_id (ctx w) id in
    let w := with_ctx (with_decoder_fatal fatal (ctx w)) w in
    if negb ok then w
    else
      let w := store_queue queue (with_queue_id id (queue_at w queue)) w in
      vkr_context_add_object queue w.

(** vkr_queue.c:277-295 *)
Definition vkr_dispatch_vkGetDeviceQueue (args : vn_command_vkGetDeviceQueue)
    (w : world) : world :=
  match vkr_device_lookup_queue 0 (gdq_queueFamilyIndex args)
                                (gdq_queueIndex args) w with
  | None => vkr_cs_decoder_set_fatal w
  | Some queue => vkr_queue_assign_object_id queue (gdq_pQueue args) w
  end.

(** vkr_queue.c:297-336 *)
Definition vkr_dispatch_vkGetDeviceQueue2
    (args : vn_command_vkGetDeviceQueue2) (w : world) : world :=
  match vkr_device_lookup_queue (gdq2_flags args)
                                (gdq2_queueFamilyIndex args)
                                (gdq2_queueIndex args) w with
  | None => vkr_cs_decoder_set_fatal w
  | Some queue =>
      match gdq2_ringIdx args with
      | Some ringIdx =>
          if decide (ringIdx = 0 ∨ sync_queues_size w ≤ ringIdx) then
            vkr_cs_decoder_set_fatal w
          else if sync_queue_at w ringIdx is Some _ then
            vkr_cs_decoder_set_fatal w
          else
            let w := store_queue queue
                       (with_queue_ring_idx ringIdx (queue_at w queue)) w in
            let w := with_ctx (with_sync_queues
                                 (<[N.to_nat ringIdx := Some queue]>
                                    (sync_queues (ctx w))) (ctx w)) w in
            vkr_queue_assign_object_id queue (gdq2_pQueue args) w
      | None => vkr_queue_assign_object_id queue (gdq2_pQueue args) w
      end
  end.

End identity.

(** vkr_queue.c:362-369 *)
Definition vkr_dispatch_vkQueueWaitIdle (args : vn_command_vkQueueWaitIdle)
    (w : world) : world :=
  vkr_cs_decoder_set_fatal w.

(** ** Runs of one queue

    What can happen to a queue between its creation and its teardown: the
    caller submits, the thread wakes from [cnd_wait], the wait of the
    thread ends with some result. The results of the driver are part of
    the schedule, so a property proved for every schedule holds whatever
    the timing of the fences is. *)

Inductive sched_event :=
| Ev_submit (e : submit_env) (flags ring_idx fence_id : N)
| Ev_wakeup
| Ev_wait_returns (wait_result : VkResult).

Definition step (queue : addr) (ev : sched_event) (w : world) : world :=
  match ev with
  | Ev_submit e flags ring_idx fence_id =>
      (vkr_queue_sync_submit e queue flags ring_idx fence_id w).2
  | Ev_wakeup => vkr_queue_thread_wakeup queue w
  | Ev_wait_returns r => vkr_queue_thread_wait_returns r queue w
  end.

Definition run (queue : addr) (evs : list sched_event) (w : world) : world :=
  foldl (λ w ev, step queue ev w) w evs.

(** What the callback is owed for one scheduled event: the arguments of
    the submission when [vkr_queue_sync_submit] returns true. *)
Definition accepted1 (queue : addr) (ev : sched_event) (w : world)
  : list (N * N * N) :=
  match ev with
  | Ev_submit e flags ring_idx fence_id =>
      if (vkr_queue_sync_submit e queue flags ring_idx fence_id w).1
      then [(ctx_id (ctx w), ring_idx, fence_id)] else []
  | _ => []
  end.

(** The submissions of a schedule that returned true, in order. *)
Fixpoint accepted (queue : addr) (evs : list sched_event) (w : world)
  : list (N * N * N) :=
  match evs with
  | [] => []
  | ev :: evs' => accepted1 queue ev w ++ accepted queue evs' (step queue ev w)
  end.

(** What [retire_fence] will be called with for the object at [sync]. *)
Definition retire_args (w : world) (sync : addr) : N * N * N :=
  (ctx_id (ctx w), sync_ring_idx (sync_at w sync),
   sync_fence_id (sync_at w sync)).

(** The same for the registry of a queue, first node first. *)
Definition in_flight (w : world) (queue : addr) : list (N * N * N) :=
  retire_args w <$> pending_syncs (queue_at w queue).

Definition is_vk_call (e : event) : bool :=
  match e with
  | vk_CreateFence _ _ _ | vk_ResetFences _ | vk_QueueSubmit _ _ _ _
  | vk_WaitForFences _ _ _ => true
  | _ => false
  end.

Definition is_fence_created (e : event) : bool :=
  match e with
  | vk_CreateFence _ result _ => bool_decide (result = VK_SUCCESS)
  | _ => false
  end.

(** Number of native fences the driver has created so far. *)
Definition created_fences (tr : list event) : nat :=
  length (filter is_fence_created tr).

Global Instance mutex_eq_dec : EqDecision mutex.
Proof. solve_decision. Defined.

(** Whether mutex [m] is held at the end of a trace ([held]: at its start). *)
Fixpoint mutex_held (m : mutex) (held : bool) (tr : list event) : bool :=
  match tr with
  | [] => held
  | mtx_lock m' :: tr' =>
      mutex_held m (if decide (m' = m) then true else held) tr'
  | mtx_unlock m' :: tr' =>
      mutex_held m (if decide (m' = m) then false else held) tr'
  | _ :: tr' => mutex_held m held tr'
  end.

(** The ownership discipline of the synchronization objects of one queue:
    no object is on the free list and in the registry at once or twice on
    either, each is allocated, and the object the thread waits on is the
    first of the registry. *)
Record queue_inv (queue : addr) (w : world) : Prop := mk_queue_inv {
  inv_nodup :
    NoDup (free_syncs (dev w) ++ pending_syncs (queue_at w queue));
  inv_alloc :
    ∀ a, a ∈ free_syncs (dev w) ++ pending_syncs (queue_at w queue) →
         a ∈ dom (syncs w);
  inv_thread :
    ∀ a, thread (queue_at w queue) = T_fence_wait a →
         head (pending_syncs (queue_at w queue)) = Some a
}.

(** The registry of a queue with the contents of its objects, first node
    first. *)
Definition registry (w : world) (queue : addr)
  : list (addr * vkr_queue_sync) :=
  (λ a, (a, sync_at w a)) <$> pending_syncs (queue_at w queue).

(** What [retire_fence] is called with for an object of the registry. *)
Definition callback_args (id : N) (o : addr * vkr_queue_sync) : N * N * N :=
  (id, sync_ring_idx o.2, sync_fence_id o.2).

(** The object a scheduled event adds to the registry: the one
    [vkr_queue_sync_submit] got from the pool when it returns true. *)
Definition submitted1 (queue : addr) (ev : sched_event) (w : world)
  : list (addr * vkr_queue_sync) :=
  match ev with
  | Ev_submit e flags ring_idx fence_id =>
      let s := vkr_queue_sync_submit e queue flags ring_idx fence_id w in
      match (vkr_device_alloc_queue_sync (submit_alloc e) flags ring_idx
                                         fence_id w).1 with
      | Some sync => if s.1 then [(sync, sync_at s.2 sync)] else []
      | None => []
      end
  | _ => []
  end.

Fixpoint submitted (queue : addr) (evs : list sched_event) (w : world)
  : list (addr * vkr_queue_sync) :=
  match evs with
  | [] => []
  | ev :: evs' =>
      submitted1 queue ev w ++ submitted queue evs' (step queue ev w)
  end.

(** ** A concrete device, context and queue

    Used to run the model: a context with id 7 and a ring table of four
    slots, a device with an empty pool, and one queue created on it. *)

Definition example_world : world :=
  mk_world ∅ ∅ (mk_device [] [] true)
           (mk_context 7 false (replicate 4 None) ∅ []) [].

Definition example_created : option addr * world :=
  vkr_queue_create (mk_create_env true true true true) 0 0 0 100
                   example_world.

Definition example_queue : addr := 1%positive.

(** The world after the creation, with the queue on the list of the
    device. *)
Definition example_start : world :=
  with_dev (with_queues [example_queue] (dev example_created.2))
           example_created.2.

(** A driver that, asked for a fence, creates [fence], and that answers
    [r] to vkQueueSubmit. *)
Definition example_env (fence : VkFence) (r : VkResult) : submit_env :=
  mk_submit_env (mk_alloc_env (Some inhabitant) VK_SUCCESS fence) r.

(** Two accepted submissions, then the thread waits on the first one:
    one timeout, then success. *)
Definition example_schedule : list sched_event :=
  [Ev_submit (example_env 500 VK_SUCCESS) 0 1 10;
   Ev_submit (example_env 501 VK_SUCCESS) 0 2 11;
   Ev_wakeup;
   Ev_wait_returns VK_TIMEOUT;
   Ev_wait_returns VK_SUCCESS].

(** Three submissions, each made after the previous object was retired. *)
Definition example_cycles : list sched_event :=
  [Ev_submit (example_env 500 VK_SUCCESS) 0 1 10; Ev_wakeup;
   Ev_wait_returns VK_SUCCESS;
   Ev_submit (example_env 501 VK_ERROR_DEVICE_LOST) 0 1 11; Ev_wakeup;
   Ev_wait_returns VK_TIMEOUT;
   Ev_submit (example_env 502 VK_SUCCESS) 0 1 12; Ev_wakeup;
   Ev_wait_returns VK_TIMEOUT; Ev_wait_returns VK_SUCCESS].

(** One submission, the thread waits on its object, then teardown asks
    the thread to return. *)
Definition example_waiting : world :=
  run example_queue
      [Ev_submit (example_env 500 VK_SUCCESS) 0 1 10; Ev_wakeup] example_start.

Definition example_joining : world :=
  vkr_queue_request_join example_queue example_waiting.

(** A schedule without concurrent submissions: every submission is made
    when the registry is empty, that is after the object of the previous
    one has gone back to the pool. *)
Fixpoint sequential (queue : addr) (evs : list sched_event) (w : world)
  : Prop :=
  match evs with
  | [] => True
  | ev :: evs' =>
      match ev with
      | Ev_submit _ _ _ _ => pending_syncs (queue_at w queue) = []
      | _ => True
      end ∧ sequential queue evs' (step queue ev w)
  end.

(** Number of objects of the pool of the device and of the registry of
    [queue]. *)
Definition live_syncs (queue : addr) (w : world) : nat :=
  length (free_syncs (dev w)) + length (pending_syncs (queue_at w queue)).

(** Calls of threads.h on a mutex or a condition variable. *)
Definition is_sync_primitive (e : event) : bool :=
  match e with
  | mtx_lock _ | mtx_unlock _ | cnd_signal _ | cnd_wait _ => true
  | _ => false
  end.

(** The driver call with which the thread ends its wait: none for a
    thread that is not waiting on a fence or whose object is marked
    device-lost. *)
Definition thread_wait_call (w : world) (r : VkResult) (t : thread_state)
  : list event :=
  match t with
  | T_fence_wait sync =>
      if sync_device_lost (sync_at w sync) then []
      else [vk_WaitForFences (sync_fence (sync_at w sync)) wait_timeout r]
  | _ => []
  end.

(** The trace of the loop of [vkr_queue_retire_all_syncs] over [l]. *)
Definition retire_loop_trace (l : list addr) : list event :=
  l ≫= λ _, [mtx_lock free_sync_mutex; mtx_unlock free_sync_mutex].

(** The state in which the head of the loop leaves the thread of [q]. *)
Definition thread_next (q : vkr_queue) : thread_state :=
  match pending_syncs q, join q with
  | [], false => T_cnd_wait
  | _, true => T_exited
  | sync :: _, false => T_fence_wait sync
  end.

(** ** Definitions for the further properties *)

(** The key under which [vkr_device_lookup_queue] compares a queue. *)
Definition queue_key (w : world) (queue : addr) : N * N * N :=
  (queue_flags (queue_at w queue), queue_family (queue_at w queue),
   queue_index (queue_at w queue)).

(** vkr_queue.c:329-330: the queue is bound to the ring index. *)
Definition ring_bind (queue : addr) (ringIdx : N) (w : world) : world :=
  let w := store_queue queue
             (with_queue_ring_idx ringIdx (queue_at w queue)) w in
  with_ctx (with_sync_queues
              (<[N.to_nat ringIdx := Some queue]> (sync_queues (ctx w)))
              (ctx w)) w.

(** The fields of a queue that submissions and the thread only read. *)
Definition queue_static (q : vkr_queue) : N * N * N * N * N * N * bool :=
  (queue_id q, queue_handle q, queue_flags q, queue_family q, queue_index q,
   queue_ring_idx q, join q).

(** The state of the context apart from the log of the callback. *)
Definition ctx_static (c : vkr_context)
  : N * bool * list (option addr) * gmap vkr_object_id addr :=
  (ctx_id c, decoder_fatal c, sync_queues c, object_table c).

(** The commands whose handlers [vkr_context_init_queue_dispatch]
    (vkr_queue.c:615-628) installs and that act on the state of the
    context. *)
Inductive queue_command :=
| cmd_vkGetDeviceQueue (args : vn_command_vkGetDeviceQueue)
| cmd_vkGetDeviceQueue2 (args : vn_command_vkGetDeviceQueue2)
| cmd_vkQueueWaitIdle (args : vn_command_vkQueueWaitIdle).

Section queue_commands.

Variable vkr_context_validate_object_id :
  vkr_context → vkr_object_id → bool * bool.

(** The handler installed for a command, applied to it. *)
Definition dispatch_queue_command (cmd : queue_command) (w : world) : world :=
  match cmd with
  | cmd_vkGetDeviceQueue args =>
      vkr_dispatch_vkGetDeviceQueue vkr_context_validate_object_id args w
  | cmd_vkGetDeviceQueue2 args =>
      vkr_dispatch_vkGetDeviceQueue2 vkr_context_validate_object_id args w
  | cmd_vkQueueWaitIdle args => vkr_dispatch_vkQueueWaitIdle args w
  end.

(** A stream of such commands, handled in order. *)
Definition dispatch_queue_commands (cmds : list queue_command) (w : world)
  : world :=
  foldl (λ w cmd, dispatch_queue_command cmd w) w cmds.

End queue_commands.

(** How the ring table of [w'] relates to that of [w] when bindings were
    only added: same size, slot 0 and every bound slot as they were, and
    every new binding names a queue on the list of the device. *)
Definition ring_table_extends (w w' : world) : Prop :=
  length (sync_queues (ctx w')) = length (sync_queues (ctx w)) ∧
  sync_queue_at w' 0 = sync_queue_at w 0 ∧
  (∀ i q, sync_queue_at w i = Some q → sync_queue_at w' i = Some q) ∧
  (∀ i q, sync_queue_at w' i = Some q →
          sync_queue_at w i = Some q ∨ q ∈ queues (dev w)) ∧
  syncs w' = syncs w ∧ dev w' = dev w ∧ trace w' = trace w ∧
  retired (ctx w') = retired (ctx w).

(** The calls with which [vkr_queue_create] undoes what it has set up
    when a later step fails (vkr_queue.c:219-236). *)
Definition create_cleanup (e : create_env) (queue : addr) : list event :=
  if negb (object_alloc_ok e) then []
  else
    (if mtx_init_ok e then [mtx_destroy (queue_mutex queue)] else []) ++
    (if mtx_init_ok e && cnd_init_ok e then [cnd_destroy queue] else []) ++
    [free_queue queue].


(** The mutexes held after the calls [tr], innermost first, when [held]
    were held before and [tr] keeps the rules below; [None] when it
    breaks one of them.
    - A mutex that is held is not locked again (the mutexes are
      [mtx_plain]), and no mutex is locked while the pool mutex is held.
    - The mutex that is unlocked is the one locked last.
    - [cnd_wait] is called with the mutex of the queue held, and no
      other; the caller sleeps with the mutex released.
    - The driver is called, and a thread is joined, with no mutex held.
    - A mutex that is held is not destroyed. *)
Fixpoint locks_after (held : list mutex) (tr : list event)
  : option (list mutex) :=
  match tr with
  | [] => Some held
  | e :: tr' =>
      match e with
      | mtx_lock m =>
          if bool_decide (m ∈ held) || bool_decide (free_sync_mutex ∈ held)
          then None
          else locks_after (m :: held) tr'
      | mtx_unlock m =>
          match held with
          | m' :: rest =>
              if bool_decide (m' = m) then locks_after rest tr' else None
          | [] => None
          end
      | cnd_wait q =>
          if bool_decide (held = [queue_mutex q]) then locks_after [] tr'
          else None
      | mtx_destroy m =>
          if bool_decide (m ∈ held) then None else locks_after held tr'
      | cnd_signal _ | cnd_destroy _ | free_queue _ => locks_after held tr'
      | thrd_join_returned _ | vk_CreateFence _ _ _ | vk_ResetFences _
      | vk_QueueSubmit _ _ _ _ | vk_WaitForFences _ _ _ =>
          match held with
          | [] => locks_after [] tr'
          | _ => None
          end
      end
  end.

(** ** The handlers that forward to the driver (vkr_queue.c:338-613)

    The decoded commands, with the fields their handlers read and write:
    handles and pointers are numbers, [ret] is the result sent back to
    the guest. A handler finds the proc table of the driver from a handle
    of its command ([vkr_queue_from_handle], [vkr_device_from_handle]);
    which table that is, is not modelled. The handlers of vkCreateFence,
    vkDestroyFence, vkCreateSemaphore, vkDestroySemaphore, vkCreateEvent
    and vkDestroyEvent only call generated code (vkr_queue_gen.h is not
    part of the sources) and are left out. *)

Record vn_command_vkQueueSubmit := mk_QueueSubmit {
  qs_queue : N; qs_submitCount : N; qs_pSubmits : N; qs_fence : N;
  qs_ret : VkResult
}.
Record vn_command_vkQueueBindSparse := mk_QueueBindSparse {
  qbs_queue : N; qbs_bindInfoCount : N; qbs_pBindInfo : N; qbs_fence : N;
  qbs_ret : VkResult
}.
Record vn_command_vkQueueSubmit2 := mk_QueueSubmit2 {
  qs2_queue : N; qs2_submitCount : N; qs2_pSubmits : N; qs2_fence : N;
  qs2_ret : VkResult
}.
Record vn_command_vkResetFences := mk_ResetFences {
  rf_device : N; rf_fenceCount : N; rf_pFences : N; rf_ret : VkResult
}.
Record vn_command_vkGetFenceStatus := mk_GetFenceStatus {
  gfs_device : N; gfs_fence : N; gfs_ret : VkResult
}.
Record vn_command_vkWaitForFences := mk_WaitForFences {
  wff_device : N; wff_fenceCount : N; wff_pFences : N; wff_waitAll : N;
  wff_timeout : N; wff_ret : VkResult
}.
Record vn_command_vkResetFenceResource100000MESA := mk_ResetFenceResource {
  rfr_device : N; rfr_fence : N
}.
Record vn_command_vkGetSemaphoreCounterValue := mk_GetSemaphoreCounterValue {
  gscv_device : N; gscv_semaphore : N; gscv_pValue : N; gscv_ret : VkResult
}.
Record vn_command_vkWaitSemaphores := mk_WaitSemaphores {
  ws_device : N; ws_pWaitInfo : N; ws_timeout : N; ws_ret : VkResult
}.
Record vn_command_vkSignalSemaphore := mk_SignalSemaphore {
  ss_device : N; ss_pSignalInfo : N; ss_ret : VkResult
}.
Record vn_command_vkWaitSemaphoreResource100000MESA :=
  mk_WaitSemaphoreResource {
  wsr_device : N; wsr_semaphore : N
}.
(** [resourceId] and [semaphore] are the fields of
    [*pImportSemaphoreResourceInfo]. *)
Record vn_command_vkImportSemaphoreResource100000MESA :=
  mk_ImportSemaphoreResource {
  isr_device : N; isr_resourceId : N; isr_semaphore : N
}.
Record vn_command_vkGetEventStatus := mk_GetEventStatus {
  ges_device : N; ges_event : N; ges_ret : VkResult
}.
Record vn_command_vkSetEvent := mk_SetEvent {
  se_device : N; se_event : N; se_ret : VkResult
}.
Record vn_command_vkResetEvent := mk_ResetEvent {
  re_device : N; re_event : N; re_ret : VkResult
}.

(** The calls these handlers make: entry points of the proc table of the
    device, with their arguments, and close(2). *)
Inductive driver_call :=
| drv_QueueSubmit (queue submitCount pSubmits fence : N)
| drv_QueueBindSparse (queue bindInfoCount pBindInfo fence : N)
| drv_QueueSubmit2 (queue submitCount pSubmits fence : N)
| drv_ResetFences (device fenceCount pFences : N)
| drv_GetFenceStatus (device fence : N)
| drv_WaitForFences (device fenceCount pFences waitAll timeout : N)
| drv_GetFenceFdKHR (device fence handleType : N)
| drv_GetSemaphoreCounterValue (device semaphore pValue : N)
| drv_WaitSemaphores (device pWaitInfo timeout : N)
| drv_SignalSemaphore (device pSignalInfo : N)
| drv_GetSemaphoreFdKHR (device semaphore handleType : N)
| drv_ImportSemaphoreFdKHR (device semaphore flags handleType : N) (fd : Z)
| drv_GetEventStatus (device event : N)
| drv_SetEvent (device event : N)
| drv_ResetEvent (device event : N)
| sys_close (fd : Z).

(** vulkan_core.h *)
Definition VK_EXTERNAL_FENCE_HANDLE_TYPE_SYNC_FD_BIT : N := 8.
Definition VK_EXTERNAL_SEMAPHORE_HANDLE_TYPE_SYNC_FD_BIT : N := 16.
Definition VK_SEMAPHORE_IMPORT_TEMPORARY_BIT : N := 1.

(** The functions [vn_replace_vk..._args_handle] of the protocol
    (venus-protocol/vn_protocol_renderer_queue.h and the like are not
    part of the sources) rewrite, in the decoded command, the handles of
    the guest into those of the driver. They are parameters. *)
Record vn_replace_args_handle := mk_replace {
  vn_replace_vkQueueSubmit_args_handle :
    vn_command_vkQueueSubmit → vn_command_vkQueueSubmit;
  vn_replace_vkQueueBindSparse_args_handle :
    vn_command_vkQueueBindSparse → vn_command_vkQueueBindSparse;
  vn_replace_vkQueueSubmit2_args_handle :
    vn_command_vkQueueSubmit2 → vn_command_vkQueueSubmit2;
  vn_replace_vkResetFences_args_handle :
    vn_command_vkResetFences → vn_command_vkResetFences;
  vn_replace_vkGetFenceStatus_args_handle :
    vn_command_vkGetFenceStatus → vn_command_vkGetFenceStatus;
  vn_replace_vkWaitForFences_args_handle :
    vn_command_vkWaitForFences → vn_command_vkWaitForFences;
  vn_replace_vkResetFenceResource100000MESA_args_handle :
    vn_command_vkResetFenceResource100000MESA →
    vn_command_vkResetFenceResource100000MESA;
  vn_replace_vkGetSemaphoreCounterValue_args_handle :
    vn_command_vkGetSemaphoreCounterValue →
    vn_command_vkGetSemaphoreCounterValue;
  vn_replace_vkWaitSemaphores_args_handle :
    vn_command_vkWaitSemaphores → vn_command_vkWaitSemaphores;
  vn_replace_vkSignalSemaphore_args_handle :
    vn_command_vkSignalSemaphore → vn_command_vkSignalSemaphore;
  vn_replace_vkWaitSemaphoreResource100000MESA_args_handle :
    vn_command_vkWaitSemaphoreResource100000MESA →
    vn_command_vkWaitSemaphoreResource100000MESA;
  vn_replace_vkImportSemaphoreResource100000MESA_args_handle :
    vn_command_vkImportSemaphoreResource100000MESA →
    vn_command_vkImportSemaphoreResource100000MESA;
  vn_replace_vkGetEventStatus_args_handle :
    vn_command_vkGetEventStatus → vn_command_vkGetEventStatus;
  vn_replace_vkSetEvent_args_handle :
    vn_command_vkSetEvent → vn_command_vkSetEvent;
  vn_replace_vkResetEvent_args_handle :
    vn_command_vkResetEvent → vn_command_vkResetEvent
}.

(** What a handler leaves: the command as it is sent back, the world, and
    the calls it made, in order. A handler that calls the driver takes
    what the driver answers as [answer]. *)
Record handled (A : Type) := mk_handled {
  h_args : A;
  h_world : world;
  h_calls : list driver_call
}.
Arguments mk_handled {A} _ _ _.
Arguments h_args {A} _.
Arguments h_world {A} _.
Arguments h_calls {A} _.

Section driver_handlers.

Variable R : vn_replace_args_handle.

(** vkr_queue.c:338-348 *)
Definition vkr_dispatch_vkQueueSubmit (answer : VkResult)
    (args : vn_command_vkQueueSubmit) (w : world)
  : handled vn_command_vkQueueSubmit :=
  let args := vn_replace_vkQueueSubmit_args_handle R args in
  mk_handled
    (mk_QueueSubmit (qs_queue args) (qs_submitCount args) (qs_pSubmits args)
                    (qs_fence args) answer)
    w
    [drv_QueueSubmit (qs_queue args) (qs_submitCount args) (qs_pSubmits args)
                     (qs_fence args)].

(** vkr_queue.c:350-360 *)
Definition vkr_dispatch_vkQueueBindSparse (answer : VkResult)
    (args : vn_command_vkQueueBindSparse) (w : world)
  : handled vn_command_vkQueueBindSparse :=
  let args := vn_replace_vkQueueBindSparse_args_handle R args in
  mk_handled
    (mk_QueueBindSparse (qbs_queue args) (qbs_bindInfoCount args)
                        (qbs_pBindInfo args) (qbs_fence args) answer)
    w
    [drv_QueueBindSparse (qbs_queue args) (qbs_bindInfoCount args)
                         (qbs_pBindInfo args) (qbs_fence args)].

(** vkr_queue.c:371-381 *)
Definition vkr_dispatch_vkQueueSubmit2 (answer : VkResult)
    (args : vn_command_vkQueueSubmit2) (w : world)
  : handled vn_command_vkQueueSubmit2 :=
  let args := vn_replace_vkQueueSubmit2_args_handle R args in
  mk_handled
    (mk_QueueSubmit2 (qs2_queue args) (qs2_submitCount args)
                     (qs2_pSubmits args) (qs2_fence args) answer)
    w
    [drv_QueueSubmit2 (qs2_queue args) (qs2_submitCount args)
                      (qs2_pSubmits args) (qs2_fence args)].

(** vkr_queue.c:397-406 *)
Definition vkr_dispatch_vkResetFences (answer : VkResult)
    (args : vn_command_vkResetFences) (w : world)
  : handled vn_command_vkResetFences :=
  let args := vn_replace_vkResetFences_args_handle R args in
  mk_handled
    (mk_ResetFences (rf_device args) (rf_fenceCount args) (rf_pFences args)
                    answer)
    w
    [drv_ResetFences (rf_device args) (rf_fenceCount args) (rf_pFences args)].

(** vkr_queue.c:408-417 *)
Definition vkr_dispatch_vkGetFenceStatus (answer : VkResult)
    (args : vn_command_vkGetFenceStatus) (w : world)
  : handled vn_command_vkGetFenceStatus :=
  let args := vn_replace_vkGetFenceStatus_args_handle R args in
  mk_handled
    (mk_GetFenceStatus (gfs_device args) (gfs_fence args) answer)
    w
    [drv_GetFenceStatus (gfs_device args) (gfs_fence args)].

(** vkr_queue.c:419-433 *)
Definition vkr_dispatch_vkWaitForFences (answer : VkResult)
    (args : vn_command_vkWaitForFences) (w : world)
  : handled vn_command_vkWaitForFences :=
  let args := vn_replace_vkWaitForFences_args_handle R args in
  let args' := mk_WaitForFences (wff_device args) (wff_fenceCount args)
                 (wff_pFences args) (wff_waitAll args) (wff_timeout args)
                 answer in
  mk_handled
    args'
    (if decide (wff_ret args' = VK_ERROR_DEVICE_LOST)
     then vkr_cs_decoder_set_fatal w else w)
    [drv_WaitForFences (wff_device args) (wff_fenceCount args)
                       (wff_pFences args) (wff_waitAll args)
                       (wff_timeout args)].

(** vkr_queue.c:435-460. [fd] is the value of the local variable after
    the call of the driver: -1 when the driver has not written it. *)
Definition vkr_dispatch_vkResetFenceResource100000MESA
    (answer : VkResult) (fd : Z)
    (args : vn_command_vkResetFenceResource100000MESA) (w : world)
  : handled vn_command_vkResetFenceResource100000MESA :=
  let args := vn_replace_vkResetFenceResource100000MESA_args_handle R args in
  let call := drv_GetFenceFdKHR (rfr_device args) (rfr_fence args)
                VK_EXTERNAL_FENCE_HANDLE_TYPE_SYNC_FD_BIT in
  if decide (answer ≠ VK_SUCCESS) then
    mk_handled args (vkr_cs_decoder_set_fatal w) [call]
  else if decide (0 ≤ fd)%Z then
    mk_handled args w [call; sys_close fd]
  else
    mk_handled args w [call].

(** vkr_queue.c:476-485 *)
Definition vkr_dispatch_vkGetSemaphoreCounterValue (answer : VkResult)
    (args : vn_command_vkGetSemaphoreCounterValue) (w : world)
  : handled vn_command_vkGetSemaphoreCounterValue :=
  let args := vn_replace_vkGetSemaphoreCounterValue_args_handle R args in
  mk_handled
    (mk_GetSemaphoreCounterValue (gscv_device args) (gscv_semaphore args)
                                 (gscv_pValue args) answer)
    w
    [drv_GetSemaphoreCounterValue (gscv_device args) (gscv_semaphore args)
                                  (gscv_pValue args)].

(** vkr_queue.c:487-500 *)
Definition vkr_dispatch_vkWaitSemaphores (answer : VkResult)
    (args : vn_command_vkWaitSemaphores) (w : world)
  : handled vn_command_vkWaitSemaphores :=
  let args := vn_replace_vkWaitSemaphores_args_handle R args in
  let args' := mk_WaitSemaphores (ws_device args) (ws_pWaitInfo args)
                 (ws_timeout args) answer in
  mk_handled
    args'
    (if decide (ws_ret args' = VK_ERROR_DEVICE_LOST)
     then vkr_cs_decoder_set_fatal w else w)
    [drv_WaitSemaphores (ws_device args) (ws_pWaitInfo args)
                        (ws_timeout args)].

(** vkr_queue.c:502-511 *)
Definition vkr_dispatch_vkSignalSemaphore (answer : VkResult)
    (args : vn_command_vkSignalSemaphore) (w : world)
  : handled vn_command_vkSignalSemaphore :=
  let args := vn_replace_vkSignalSemaphore_args_handle R args in
  mk_handled
    (mk_SignalSemaphore (ss_device args) (ss_pSignalInfo args) answer)
    w
    [drv_SignalSemaphore (ss_device args) (ss_pSignalInfo args)].

(** vkr_queue.c:513-538, with [fd] as above. *)
Definition vkr_dispatch_vkWaitSemaphoreResource100000MESA
    (answer : VkResult) (fd : Z)
    (args : vn_command_vkWaitSemaphoreResource100000MESA) (w : world)
  : handled vn_command_vkWaitSemaphoreResource100000MESA :=
  let args :=
    vn_replace_vkWaitSemaphoreResource100000MESA_args_handle R args in
  let call := drv_GetSemaphoreFdKHR (wsr_device args) (wsr_semaphore args)
                VK_EXTERNAL_SEMAPHORE_HANDLE_TYPE_SYNC_FD_BIT in
  if decide (answer ≠ VK_SUCCESS) then
    mk_handled args (vkr_cs_decoder_set_fatal w) [call]
  else if decide (0 ≤ fd)%Z then
    mk_handled args w [call; sys_close fd]
  else
    mk_handled args w [call].

(** vkr_queue.c:540-566. The assertion on [resourceId] fails on a
    command that carries another resource than 0: the result is [None]. *)
Definition vkr_dispatch_vkImportSemaphoreResource100000MESA
    (answer : VkResult)
    (args : vn_command_vkImportSemaphoreResource100000MESA) (w : world)
  : option (handled vn_command_vkImportSemaphoreResource100000MESA) :=
  let args :=
    vn_replace_vkImportSemaphoreResource100000MESA_args_handle R args in
  if decide (isr_resourceId args ≠ 0) then None
  else
    let call := drv_ImportSemaphoreFdKHR (isr_device args)
                  (isr_semaphore args) VK_SEMAPHORE_IMPORT_TEMPORARY_BIT
                  VK_EXTERNAL_SEMAPHORE_HANDLE_TYPE_SYNC_FD_BIT (-1) in
    Some (mk_handled args
            (if decide (answer ≠ VK_SUCCESS)
             then vkr_cs_decoder_set_fatal w else w)
            [call]).

(** vkr_queue.c:582-591 *)
Definition vkr_dispatch_vkGetEventStatus (answer : VkResult)
    (args : vn_command_vkGetEventStatus) (w : world)
  : handled vn_command_vkGetEventStatus :=
  let args := vn_replace_vkGetEventStatus_args_handle R args in
  mk_handled
    (mk_GetEventStatus (ges_device args) (ges_event args) answer)
    w
    [drv_GetEventStatus (ges_device args) (ges_event args)].

(** vkr_queue.c:593-602 *)
Definition vkr_dispatch_vkSetEvent (answer : VkResult)
    (args : vn_command_vkSetEvent) (w : world)
  : handled vn_command_vkSetEvent :=
  let args := vn_replace_vkSetEvent_args_handle R args in
  mk_handled
    (mk_SetEvent (se_device args) (se_event args) answer)
    w
    [drv_SetEvent (se_device args) (se_event args)].

(** vkr_queue.c:604-613 *)
Definition vkr_dispatch_vkResetEvent (answer : VkResult)
    (args : vn_command_vkResetEvent) (w : world)
  : handled vn_command_vkResetEvent :=
  let args := vn_replace_vkResetEvent_args_handle R args in
  mk_handled
    (mk_ResetEvent (re_device args) (re_event args) answer)
    w
    [drv_ResetEvent (re_device args) (re_event args)].

End driver_handlers.

(** A command for one of the forwarding handlers, with what the driver
    answers to the call that the handler makes. *)
Inductive driver_command :=
| cmd_vkQueueSubmit (args : vn_command_vkQueueSubmit) (answer : VkResult)
| cmd_vkQueueBindSparse (args : vn_command_vkQueueBindSparse)
                        (answer : VkResult)
| cmd_vkQueueSubmit2 (args : vn_command_vkQueueSubmit2) (answer : VkResult)
| cmd_vkResetFences (args : vn_command_vkResetFences) (answer : VkResult)
| cmd_vkGetFenceStatus (args : vn_command_vkGetFenceStatus)
                       (answer : VkResult)
| cmd_vkWaitForFences (args : vn_command_vkWaitForFences) (answer : VkResult)
| cmd_vkResetFenceResource100000MESA
    (args : vn_command_vkResetFenceResource100000MESA)
    (answer : VkResult) (fd : Z)
| cmd_vkGetSemaphoreCounterValue
    (args : vn_command_vkGetSemaphoreCounterValue) (answer : VkResult)
| cmd_vkWaitSemaphores (args : vn_command_vkWaitSemaphores)
                       (answer : VkResult)
| cmd_vkSignalSemaphore (args : vn_command_vkSignalSemaphore)
                        (answer : VkResult)
| cmd_vkWaitSemaphoreResource100000MESA
    (args : vn_command_vkWaitSemaphoreResource100000MESA)
    (answer : VkResult) (fd : Z)
| cmd_vkImportSemaphoreResource100000MESA
    (args : vn_command_vkImportSemaphoreResource100000MESA)
    (answer : VkResult)
| cmd_vkGetEventStatus (args : vn_command_vkGetEventStatus)
                       (answer : VkResult)
| cmd_vkSetEvent (args : vn_command_vkSetEvent) (answer : VkResult)
| cmd_vkResetEvent (args : vn_command_vkResetEvent) (answer : VkResult).

(** The world and the calls that a handler leaves. *)
Definition outcome {A : Type} (h : handled A) : world * list driver_call :=
  (h_world h, h_calls h).

(** The handler that [vkr_context_init_queue_dispatch],
    [vkr_context_init_fence_dispatch],
    [vkr_context_init_semaphore_dispatch] or
    [vkr_context_init_event_dispatch] (vkr_queue.c:615-673) installs for
    the command, applied to it; [None] when an assertion fails. *)
Definition dispatch_driver_command (R : vn_replace_args_handle)
    (cmd : driver_command) (w : world) : option (world * list driver_call) :=
  match cmd with
  | cmd_vkQueueSubmit args answer =>
      Some (outcome (vkr_dispatch_vkQueueSubmit R answer args w))
  | cmd_vkQueueBindSparse args answer =>
      Some (outcome (vkr_dispatch_vkQueueBindSparse R answer args w))
  | cmd_vkQueueSubmit2 args answer =>
      Some (outcome (vkr_dispatch_vkQueueSubmit2 R answer args w))
  | cmd_vkResetFences args answer =>
      Some (outcome (vkr_dispatch_vkResetFences R answer args w))
  | cmd_vkGetFenceStatus args answer =>
      Some (outcome (vkr_dispatch_vkGetFenceStatus R answer args w))
  | cmd_vkWaitForFences args answer =>
      Some (outcome (vkr_dispatch_vkWaitForFences R answer args w))
  | cmd_vkResetFenceResource100000MESA args answer fd =>
      Some (outcome
              (vkr_dispatch_vkResetFenceResource100000MESA R answer fd args w))
  | cmd_vkGetSemaphoreCounterValue args answer =>
      Some (outcome (vkr_dispatch_vkGetSemaphoreCounterValue R answer args w))
  | cmd_vkWaitSemaphores args answer =>
      Some (outcome (vkr_dispatch_vkWaitSemaphores R answer args w))
  | cmd_vkSignalSemaphore args answer =>
      Some (outcome (vkr_dispatch_vkSignalSemaphore R answer args w))
  | cmd_vkWaitSemaphoreResource100000MESA args answer fd =>
      Some (outcome
              (vkr_dispatch_vkWaitSemaphoreResource100000MESA R answer fd
                 args w))
  | cmd_vkImportSemaphoreResource100000MESA args answer =>
      outcome <$>
        vkr_dispatch_vkImportSemaphoreResource100000MESA R answer args w
  | cmd_vkGetEventStatus args answer =>
      Some (outcome (vkr_dispatch_vkGetEventStatus R answer args w))
  | cmd_vkSetEvent args answer =>
      Some (outcome (vkr_dispatch_vkSetEvent R answer args w))
  | cmd_vkResetEvent args answer =>
      Some (outcome (vkr_dispatch_vkResetEvent R answer args w))
  end.

(** A stream of such commands, handled in order until an assertion
    fails: the world at the end and all the calls made. *)
Fixpoint dispatch_driver_commands (R : vn_replace_args_handle)
    (cmds : list driver_command) (w : world)
  : option (world * list driver_call) :=
  match cmds with
  | [] => Some (w, [])
  | cmd :: cmds' =>
      match dispatch_driver_command R cmd w with
      | None => None
      | Some (w1, calls1) =>
          match dispatch_driver_commands R cmds' w1 with
          | None => None
          | Some (w2, calls2) => Some (w2, calls1 ++ calls2)
          end
      end
  end.

(** Whether the answer of the driver to a command is one after which the
    guest cannot go on: device loss for the two waits, any failure for
    the export and the import of a sync file. *)
Definition poisons (cmd : driver_command) : bool :=
  match cmd with
  | cmd_vkWaitForFences _ answer | cmd_vkWaitSemaphores _ answer =>
      bool_decide (answer = VK_ERROR_DEVICE_LOST)
  | cmd_vkResetFenceResource100000MESA _ answer _
  | cmd_vkWaitSemaphoreResource100000MESA _ answer _
  | cmd_vkImportSemaphoreResource100000MESA _ answer =>
      bool_decide (answer ≠ VK_SUCCESS)
  | _ => false
  end.

(** The file descriptor that the driver hands over in answer to a
    command: the one of a successful export, unless it is negative. *)
Definition exported_fd (cmd : driver_command) : list Z :=
  match cmd with
  | cmd_vkResetFenceResource100000MESA _ answer fd
  | cmd_vkWaitSemaphoreResource100000MESA _ answer fd =>
      if bool_decide (answer = VK_SUCCESS ∧ (0 ≤ fd)%Z) then [fd] else []
  | _ => []
  end.

(** The file descriptors closed by a sequence of calls, in order. *)
Definition closed_fds (calls : list driver_call) : list Z :=
  calls ≫= λ c, match c with sys_close fd => [fd] | _ => [] end.

(** The import of a resource other than 0 is ruled out by an assertion. *)
Definition assertion_holds (R : vn_replace_args_handle)
    (cmd : driver_command) : Prop :=
  match cmd with
  | cmd_vkImportSemaphoreResource100000MESA args _ =>
      isr_resourceId
        (vn_replace_vkImportSemaphoreResource100000MESA_args_handle R args)
      = 0
  | _ => True
  end.

Definition run_device (evs : list (addr * sched_event)) (w : world) : world :=
  foldl (λ w e, step e.1 e.2 w) w evs.

(** The objects in the registries of the queues [qs], queue by queue. *)
Definition device_pending (qs : list addr) (w : world) : list addr :=
  qs ≫= λ q, pending_syncs (queue_at w q).

(** The ownership discipline for the queues [qs] of a device: no sync
    object is on the free list and in a registry at once, in two
    registries, or twice in one place; each is allocated; and each
    thread that waits on an object waits on the first of its registry. *)
Record device_inv (qs : list addr) (w : world) : Prop := mk_device_inv {
  dinv_queues : NoDup qs;
  dinv_nodup : NoDup (free_syncs (dev w) ++ device_pending qs w);
  dinv_alloc :
    ∀ a, a ∈ free_syncs (dev w) ++ device_pending qs w → a ∈ dom (syncs w);
  dinv_thread :
    ∀ q a, q ∈ qs → thread (queue_at w q) = T_fence_wait a →
           head (pending_syncs (queue_at w q)) = Some a
}.

(** What the steps of queue [q] in a schedule of the device add to the
    log of the callback, in order. *)
Fixpoint retired_by (q : addr) (evs : list (addr * sched_event)) (w : world)
  : list (N * N * N) :=
  match evs with
  | [] => []
  | e :: evs' =>
      (if decide (e.1 = q)
       then drop (length (retired (ctx w)))
                 (retired (ctx (step e.1 e.2 w)))
       else []) ++
      retired_by q evs' (step e.1 e.2 w)
  end.

(** The submissions to queue [q] in a schedule of the device that
    returned true, in order. *)
Fixpoint accepted_by (q : addr) (evs : list (addr * sched_event)) (w : world)
  : list (N * N * N) :=
  match evs with
  | [] => []
  | e :: evs' =>
      (if decide (e.1 = q) then accepted1 q e.2 w else []) ++
      accepted_by q evs' (step e.1 e.2 w)
  end.

(** A validation of ids to run the model with: id 0 is rejected and the
    decoder marked fatal, every other id is accepted. *)
Definition example_validate (c : vkr_context) (id : vkr_object_id)
  : bool * bool :=
  (negb (id =? 0), decoder_fatal c || (id =? 0)).

(** The example queue, given the id 55 and bound to ring 1. *)
Definition example_bound : world :=
  vkr_dispatch_vkGetDeviceQueue2 example_validate
    (mk_GetDeviceQueue2 0 0 0 (Some 1) 55) example_start.

(** Two submissions are in flight and the thread has not woken yet. *)
Definition example_backlog : world :=
  run example_queue (take 2 example_schedule) example_start.

(** A protocol whose handles are the handles of the driver: no handle is
    rewritten. *)
Definition example_replace : vn_replace_args_handle :=
  mk_replace id id id id id id id id id id id id id id id.

(** A wait that times out, the export of a fence as file descriptor 9, a
    semaphore wait that hits device loss, and a fence status query. *)
Definition example_driver_commands : list driver_command :=
  [cmd_vkWaitForFences (mk_WaitForFences 1 1 2 1 1000 VK_SUCCESS) VK_TIMEOUT;
   cmd_vkResetFenceResource100000MESA (mk_ResetFenceResource 1 5)
     VK_SUCCESS 9;
   cmd_vkWaitSemaphores (mk_WaitSemaphores 1 3 1000 VK_SUCCESS) VK_ERROR_DEVICE_LOST;
   cmd_vkGetFenceStatus (mk_GetFenceStatus 1 5 VK_SUCCESS) VK_SUCCESS].

(** The example device with a second queue, of family 1. *)
Definition example_second : option addr * world :=
  vkr_queue_create (mk_create_env true true true true) 0 1 0 101
                   example_start.

Definition example_two_queues : world :=
  with_dev (with_queues [1%positive; 2%positive] (dev example_second.2))
           example_second.2.

(** A submission to each queue, then both threads retire theirs, the
    second queue first. *)
Definition example_device_schedule : list (addr * sched_event) :=
  [(1%positive, Ev_submit (example_env 500 VK_SUCCESS) 0 1 10);
   (2%positive, Ev_submit (example_env 501 VK_SUCCESS) 0 2 20);
   (2%positive, Ev_wakeup); (1%positive, Ev_wakeup);
   (2%positive, Ev_wait_returns VK_SUCCESS);
   (1%positive, Ev_submit (example_env 502 VK_SUCCESS) 0 1 11);
   (1%positive, Ev_wait_returns VK_SUCCESS)].

(** * Properties *)

(** Reduces the projections of updated records and of the stores, and
    brings traces to a right-nested form. *)
Ltac wsimpl :=
  unfold sync_at, queue_at in *;
  cbn [syncs queue_objs dev ctx trace free_syncs queues KHR_external_fence_fd
       ctx_id decoder_fatal sync_queues object_table retired queue_id
       queue_handle queue_flags queue_family queue_index queue_ring_idx
       pending_syncs join thread sync_fence sync_flags sync_ring_idx
       sync_fence_id sync_device_lost
       store_sync store_queue emit with_syncs with_queue_objs with_dev
       with_ctx with_free_syncs with_queues with_pending_syncs with_join
       with_thread with_queue_ring_idx with_queue_id with_decoder_fatal
       with_sync_queues with_object_table with_retired with_device_lost
       list_addtail fst snd app] in *;
  rewrite <- ?app_assoc;
  cbn [app] in *.

(** The same, with every field update unfolded first: for equations
    between whole records. *)
Ltac wunfold :=
  unfold store_sync, store_queue, emit, with_syncs,
    with_queue_objs, with_dev, with_ctx, with_free_syncs, with_queues,
    with_pending_syncs, with_join, with_thread, with_queue_ring_idx,
    with_queue_id, with_decoder_fatal, with_sync_queues, with_object_table,
    with_retired, with_device_lost, list_addtail in *;
  wsimpl.

(** ** Reading the stores *)

Lemma sync_at_store_sync a s w : sync_at (store_sync a s w) a = s.
Proof. unfold sync_at, store_sync; simpl. apply lookup_total_insert_eq. Qed.

Lemma sync_at_store_sync_ne a b s w :
  a ≠ b → sync_at (store_sync a s w) b = sync_at w b.
Proof.
  intros Hne. unfold sync_at, store_sync; simpl.
  by apply lookup_total_insert_ne.
Qed.

Lemma queue_at_store_queue q v w : queue_at (store_queue q v w) q = v.
Proof. unfold queue_at, store_queue; simpl. apply lookup_total_insert_eq. Qed.

Lemma queue_at_store_queue_ne q q' v w :
  q ≠ q' → queue_at (store_queue q v w) q' = queue_at w q'.
Proof.
  intros Hne. unfold queue_at, store_queue; simpl.
  by apply lookup_total_insert_ne.
Qed.

Lemma mutex_held_app m held tr1 tr2 :
  mutex_held m held (tr1 ++ tr2) = mutex_held m (mutex_held m held tr1) tr2.
Proof.
  revert held. induction tr1 as [|e tr1 IH]; intros held; [done|].
  destruct e; simpl; auto.
Qed.

Lemma mutex_released m held tr :
  mutex_held m held (tr ++ [mtx_lock m; mtx_unlock m]) = false.
Proof.
  rewrite mutex_held_app. simpl. by rewrite !decide_True.
Qed.

(** ** The pool *)

(** C4. [vkr_device_alloc_queue_sync]: with a non-empty free list the
    first object is popped and its own fence is reset, no fence is
    created; with an empty free list the pool mutex is taken and released
    before vkCreateFence is called; when malloc or vkCreateFence fails the
    result is NULL and no object stays allocated, the free list is as
    before; whenever an object is returned its flags, ring index and
    fence id are the arguments and [device_lost] is false. *)
Theorem alloc_queue_sync_spec (e : alloc_env) (flags ring_idx fence_id : N)
    (w : world) :
  let r := vkr_device_alloc_queue_sync e flags ring_idx fence_id w in
  let lock := [mtx_lock free_sync_mutex; mtx_unlock free_sync_mutex] in
  queue_objs r.2 = queue_objs w ∧ ctx r.2 = ctx w ∧
  match free_syncs (dev w) with
  | sync :: rest =>
      r.1 = Some sync ∧
      free_syncs (dev r.2) = rest ∧
      trace r.2 =
        trace w ++ lock ++ [vk_ResetFences (sync_fence (sync_at w sync))] ∧
      sync_at r.2 sync =
        mk_sync (sync_fence (sync_at w sync)) flags ring_idx fence_id false ∧
      (∀ a, a ≠ sync → sync_at r.2 a = sync_at w a)
  | [] =>
      match malloc_result e with
      | None =>
          r.1 = None ∧ syncs r.2 = syncs w ∧ dev r.2 = dev w ∧
          trace r.2 = trace w ++ lock
      | Some _ =>
          dev r.2 = dev w ∧
          trace r.2 =
            trace w ++ lock ++
            [vk_CreateFence (KHR_external_fence_fd (dev w)) (create_result e)
                            (create_fence e)] ∧
          (∀ held, mutex_held free_sync_mutex held (trace w ++ lock) = false) ∧
          (if decide (create_result e = VK_SUCCESS) then
             ∃ sync, r.1 = Some sync ∧ (sync ∉ dom (syncs w)) ∧
                     syncs r.2 =
                       <[sync := mk_sync (create_fence e) flags ring_idx
                                         fence_id false]> (syncs w)
           else
             r.1 = None ∧ syncs r.2 = syncs w)
      end
  end.
Proof.
  intros r lock. subst r lock. unfold vkr_device_alloc_queue_sync. simpl.
  destruct (free_syncs (dev w)) as [|sync rest] eqn:Hfree.
  - destruct (malloc_result e) as [garbage|]; [|by wsimpl].
    pose proof (is_fresh (dom (syncs w))) as Hfresh.
    destruct (decide (create_result e ≠ VK_SUCCESS)) as [Hr|Hr].
    + rewrite decide_False by done. wsimpl.
      repeat split; try done.
      { intros held. apply mutex_released. }
      apply delete_insert_id. by apply not_elem_of_dom.
    + apply dec_stable in Hr. rewrite decide_True by done. wsimpl.
      repeat split; try done.
      { intros held. apply mutex_released. }
      eexists. repeat split; [exact Hfresh|].
      apply insert_insert_eq.
  - wsimpl. repeat split; try done.
    + apply lookup_total_insert_eq.
    + intros a Ha. by apply lookup_total_insert_ne.
Qed.

Lemma free_queue_sync_eq sync w :
  vkr_device_free_queue_sync sync w =
  mk_world (syncs w) (queue_objs w)
           (with_free_syncs (free_syncs (dev w) ++ [sync]) (dev w)) (ctx w)
           (trace w ++ [mtx_lock free_sync_mutex; mtx_unlock free_sync_mutex]).
Proof. unfold vkr_device_free_queue_sync. by wunfold. Qed.

Lemma sync_retire_eq sync w :
  vkr_queue_sync_retire sync w =
  mk_world (syncs w) (queue_objs w)
           (with_free_syncs (free_syncs (dev w) ++ [sync]) (dev w))
           (with_retired (retired (ctx w) ++ [retire_args w sync]) (ctx w))
           (trace w ++ [mtx_lock free_sync_mutex; mtx_unlock free_sync_mutex]).
Proof. unfold vkr_queue_sync_retire. rewrite free_queue_sync_eq. by wunfold. Qed.

(** ** The thread *)

Lemma loop_head_eq queue w :
  ∃ ev, is_sync_primitive ev = true ∧
    vkr_queue_thread_loop_head queue w =
    store_queue queue
      (with_thread (thread_next (queue_at w queue)) (queue_at w queue))
      (emit ev w).
Proof.
  unfold vkr_queue_thread_loop_head, thread_next.
  destruct (pending_syncs (queue_at w queue)) as [|sync rest] eqn:Hp,
           (join (queue_at w queue)) eqn:Hj; simpl;
    (eexists; split; [|reflexivity]; reflexivity).
Qed.

Lemma wakeup_effect queue w :
  let q := queue_at w queue in
  let w' := vkr_queue_thread_wakeup queue w in
  syncs w' = syncs w ∧ dev w' = dev w ∧ ctx w' = ctx w ∧
  queue_at w' queue =
    match thread q with
    | T_cnd_wait => with_thread (thread_next q) q
    | _ => q
    end ∧
  (∀ q', q' ≠ queue → queue_at w' q' = queue_at w q') ∧
  ∃ evs, trace w' = trace w ++ evs ∧ forallb is_sync_primitive evs = true.
Proof.
  unfold vkr_queue_thread_wakeup.
  destruct (thread (queue_at w queue)) eqn:Ht; simpl;
    try (repeat split; try done; exists []; by rewrite app_nil_r).
  destruct (loop_head_eq queue (emit (mtx_lock (queue_mutex queue)) w))
    as (ev & Hev & ->).
  rewrite !queue_at_store_queue. repeat split; try done.
  - intros q' Hq'. by rewrite queue_at_store_queue_ne.
  - exists [mtx_lock (queue_mutex queue); ev]. wsimpl. split; [done|].
    cbn [forallb is_sync_primitive andb]. by rewrite Hev.
Qed.

(** The wait of the thread ended in a timeout: nothing but the state of
    the thread changes. *)
Lemma wait_returns_timeout r queue w sync :
  thread (queue_at w queue) = T_fence_wait sync →
  sync_device_lost (sync_at w sync) = false →
  r = VK_TIMEOUT →
  let q := queue_at w queue in
  let w' := vkr_queue_thread_wait_returns r queue w in
  syncs w' = syncs w ∧ dev w' = dev w ∧ ctx w' = ctx w ∧
  queue_at w' queue = with_thread (thread_next q) q ∧
  (∀ q', q' ≠ queue → queue_at w' q' = queue_at w q') ∧
  ∃ ev, is_sync_primitive ev = true ∧
    trace w' =
      trace w ++ [vk_WaitForFences (sync_fence (sync_at w sync)) wait_timeout r;
                  mtx_lock (queue_mutex queue); ev].
Proof.
  intros Ht Hl ->. unfold vkr_queue_thread_wait_returns.
  rewrite Ht, Hl. rewrite decide_True by done.
  match goal with |- context [vkr_queue_thread_loop_head queue ?w0] =>
    destruct (loop_head_eq queue w0) as (ev & Hev & ->) end.
  rewrite !queue_at_store_queue. repeat split; try done.
  - intros q' Hq'. by rewrite queue_at_store_queue_ne.
  - exists ev. by wsimpl.
Qed.

(** The wait of the thread ended otherwise, or was skipped: the object
    is unlinked and retired. *)
Lemma wait_returns_retire r queue w sync :
  thread (queue_at w queue) = T_fence_wait sync →
  sync_device_lost (sync_at w sync) = true ∨ r ≠ VK_TIMEOUT →
  let q := queue_at w queue in
  let w' := vkr_queue_thread_wait_returns r queue w in
  let q' := with_pending_syncs (list_del sync (pending_syncs q)) q in
  syncs w' = syncs w ∧
  dev w' = with_free_syncs (free_syncs (dev w) ++ [sync]) (dev w) ∧
  ctx w' = with_retired (retired (ctx w) ++ [retire_args w sync]) (ctx w) ∧
  queue_at w' queue = with_thread (thread_next q') q' ∧
  (∀ q'', q'' ≠ queue → queue_at w' q'' = queue_at w q'') ∧
  ∃ ev, is_sync_primitive ev = true ∧
    trace w' =
      trace w ++ thread_wait_call w r (T_fence_wait sync) ++
      [mtx_lock (queue_mutex queue); mtx_lock free_sync_mutex;
       mtx_unlock free_sync_mutex; ev].
Proof.
  intros Ht Hr. unfold vkr_queue_thread_wait_returns. rewrite Ht.
  assert ((if sync_device_lost (sync_at w sync)
           then VK_ERROR_DEVICE_LOST else r) ≠ VK_TIMEOUT) as Hres.
  { destruct (sync_device_lost (sync_at w sync)), Hr; done. }
  unfold thread_wait_call.
  destruct (sync_device_lost (sync_at w sync)) eqn:Hl;
    rewrite decide_False by done;
    rewrite sync_retire_eq;
    match goal with |- context [vkr_queue_thread_loop_head queue ?w0] =>
      destruct (loop_head_eq queue w0) as (ev & Hev & ->) end;
    rewrite !queue_at_store_queue; wsimpl;
    rewrite !lookup_total_insert_eq; simpl;
    (repeat split; try done;
     [ intros q'' Hq''; by rewrite !lookup_total_insert_ne | by exists ev ]).
Qed.

(** ** Submission *)

Lemma alloc_effect e flags ring_idx fence_id w :
  let r := vkr_device_alloc_queue_sync e flags ring_idx fence_id w in
  queue_objs r.2 = queue_objs w ∧ ctx r.2 = ctx w ∧
  queues (dev r.2) = queues (dev w) ∧
  match r.1 with
  | None => syncs r.2 = syncs w ∧ free_syncs (dev r.2) = free_syncs (dev w)
  | Some a =>
      (∃ f, syncs r.2 = <[a := mk_sync f flags ring_idx fence_id false]>
                          (syncs w)) ∧
      (free_syncs (dev w) = a :: free_syncs (dev r.2) ∨
       (free_syncs (dev w) = [] ∧ free_syncs (dev r.2) = [] ∧
        a ∉ dom (syncs w)))
  end.
Proof.
  intros r. subst r. unfold vkr_device_alloc_queue_sync. simpl.
  destruct (free_syncs (dev w)) as [|sync rest] eqn:Hfree.
  - destruct (malloc_result e) as [garbage|]; [|by wsimpl].
    pose proof (is_fresh (dom (syncs w))) as Hfresh.
    destruct (decide (create_result e ≠ VK_SUCCESS)) as [Hr|Hr]; wsimpl.
    + repeat split; try done.
      apply delete_insert_id. by apply not_elem_of_dom.
    + repeat split; try done; [|by right].
      eexists. apply insert_insert_eq.
  - wsimpl. repeat split; try done; [|by left]. by eexists.
Qed.

Lemma submit_effect e queue flags ring_idx fence_id w :
  let ra := vkr_device_alloc_queue_sync (submit_alloc e) flags ring_idx
                                        fence_id w in
  let r := vkr_queue_sync_submit e queue flags ring_idx fence_id w in
  ctx r.2 = ctx w ∧ queues (dev r.2) = queues (dev w) ∧
  match ra.1 with
  | None => r = (false, ra.2)
  | Some a =>
      if decide (submit_result e = VK_ERROR_DEVICE_LOST
                 ∨ submit_result e = VK_SUCCESS) then
        r.1 = true ∧
        (∃ f, syncs r.2 =
                <[a := mk_sync f flags ring_idx fence_id
                         (bool_decide (submit_result e = VK_ERROR_DEVICE_LOST))]>
                  (syncs w)) ∧
        free_syncs (dev r.2) = free_syncs (dev ra.2) ∧
        queue_objs r.2 =
          <[queue := with_pending_syncs
                       (pending_syncs (queue_at w queue) ++ [a])
                       (queue_at w queue)]> (queue_objs w)
      else
        r.1 = false ∧ syncs r.2 = syncs ra.2 ∧
        free_syncs (dev r.2) = free_syncs (dev ra.2) ++ [a] ∧
        queue_objs r.2 = queue_objs w
  end.
Proof.
  intros ra r. subst ra r. unfold vkr_queue_sync_submit.
  pose proof (alloc_effect (submit_alloc e) flags ring_idx fence_id w) as Ha.
  simpl in Ha.
  destruct (vkr_device_alloc_queue_sync (submit_alloc e) flags ring_idx
              fence_id w) as [[a|] wa]; simpl in *;
    destruct Ha as (Hq & Hc & Hqs & Ha); [|done].
  destruct Ha as [[f Hs] Hfree].
  destruct (decide (submit_result e = VK_ERROR_DEVICE_LOST)) as [Hl|Hl].
  - rewrite decide_True by (by left). rewrite bool_decide_eq_true_2 by done.
    unfold sync_submit_enqueue. wsimpl. rewrite Hq, Hs, Hqs.
    repeat split; try done.
    exists f. rewrite lookup_total_insert_eq. simpl. apply insert_insert_eq.
  - rewrite bool_decide_eq_false_2 by done.
    destruct (decide (submit_result e ≠ VK_SUCCESS)) as [Hs'|Hs'].
    + rewrite decide_False by (intros [|]; done).
      rewrite free_queue_sync_eq. by wsimpl.
    + apply dec_stable in Hs'. rewrite decide_True by (by right).
      unfold sync_submit_enqueue. wsimpl. rewrite Hq, Hs, Hqs.
      repeat split; try done. by exists f.
Qed.

(** ** Ownership of the objects is preserved by every step *)

Lemma list_del_head a l : list_del a (a :: l) = l.
Proof. simpl. by rewrite decide_True. Qed.

Lemma in_flight_registry w queue :
  in_flight w queue = callback_args (ctx_id (ctx w)) <$> registry w queue.
Proof.
  unfold in_flight, registry. rewrite <- list_fmap_compose.
  by apply list_fmap_ext.
Qed.

Lemma registry_ext w w' queue :
  pending_syncs (queue_at w' queue) = pending_syncs (queue_at w queue) →
  (∀ a, a ∈ pending_syncs (queue_at w queue) → sync_at w' a = sync_at w a) →
  registry w' queue = registry w queue.
Proof.
  intros Hp Hs. unfold registry. rewrite Hp.
  apply list_fmap_ext. intros i a Hi.
  rewrite Hs; [done|]. by eapply list_elem_of_lookup_2.
Qed.

Lemma thread_next_head q a :
  thread_next q = T_fence_wait a → head (pending_syncs q) = Some a.
Proof.
  unfold thread_next.
  destruct (pending_syncs q), (join q); simpl; congruence.
Qed.

Lemma queue_inv_head queue w a :
  queue_inv queue w → thread (queue_at w queue) = T_fence_wait a →
  ∃ rest, pending_syncs (queue_at w queue) = a :: rest.
Proof. intros Hinv Ht. apply head_Some. by eapply inv_thread. Qed.

(** A step that leaves the objects and both lists as they are keeps the
    discipline. *)
Lemma unchanged_preserves queue w w' :
  queue_inv queue w →
  syncs w' = syncs w → free_syncs (dev w') = free_syncs (dev w) →
  pending_syncs (queue_at w' queue) = pending_syncs (queue_at w queue) →
  (∀ a, thread (queue_at w' queue) = T_fence_wait a →
        head (pending_syncs (queue_at w queue)) = Some a) →
  queue_inv queue w' ∧ registry w' queue = registry w queue.
Proof.
  intros [Hnd Hal Hth] Hs Hf Hp Ht. split.
  - split; rewrite ?Hf, ?Hp, ?Hs; done.
  - apply registry_ext; [done|].
    intros a _. unfold sync_at. by rewrite Hs.
Qed.

(** Unlinking the first object of the registry and putting it on the
    free list keeps the discipline; the rest of the registry is as it
    was. *)
Lemma retire_preserves queue w w' sync rest :
  queue_inv queue w →
  pending_syncs (queue_at w queue) = sync :: rest →
  syncs w' = syncs w →
  free_syncs (dev w') = free_syncs (dev w) ++ [sync] →
  pending_syncs (queue_at w' queue) = rest →
  (∀ a, thread (queue_at w' queue) = T_fence_wait a → head rest = Some a) →
  queue_inv queue w' ∧
  registry w queue = (sync, sync_at w sync) :: registry w' queue.
Proof.
  intros [Hnd Hal Hth] Hpend Hs Hf Hp Ht.
  rewrite Hpend in Hnd, Hal. split.
  - split; rewrite ?Hf, ?Hp, ?Hs; try done.
    + by rewrite <- app_assoc.
    + intros a Ha. apply Hal. by rewrite <- app_assoc in Ha.
  - unfold registry. rewrite Hp, Hpend. simpl. f_equal.
    apply list_fmap_ext. intros i a _. unfold sync_at. by rewrite Hs.
Qed.

Lemma wakeup_inv queue w :
  queue_inv queue w →
  let w' := vkr_queue_thread_wakeup queue w in
  queue_inv queue w' ∧ ctx w' = ctx w ∧
  registry w' queue = registry w queue.
Proof.
  intros Hinv w'.
  destruct (wakeup_effect queue w) as (Hs & Hd & Hc & Hq & _).
  fold w' in Hs, Hd, Hc, Hq.
  cut (queue_inv queue w' ∧ registry w' queue = registry w queue);
    [by intros []|].
  apply unchanged_preserves; try done; [by rewrite Hd| |]; rewrite Hq.
  - by destruct (thread (queue_at w queue)).
  - intros a Ha.
    destruct (thread (queue_at w queue)) eqn:Hold;
      try (apply (inv_thread _ _ Hinv); congruence).
    by apply thread_next_head.
Qed.

(** The three ways the end of a wait is handled. *)
Lemma wait_result_cases (lost : bool) (r : VkResult) :
  lost = true ∨ r ≠ VK_TIMEOUT ∨ (lost = false ∧ r = VK_TIMEOUT).
Proof.
  destruct lost; [by left|].
  destruct (decide (r = VK_TIMEOUT)); auto.
Qed.

Lemma wait_returns_inv r queue w :
  queue_inv queue w →
  let w' := vkr_queue_thread_wait_returns r queue w in
  queue_inv queue w' ∧ ctx_id (ctx w') = ctx_id (ctx w) ∧
  ∃ done, registry w queue = done ++ registry w' queue ∧
          retired (ctx w') =
            retired (ctx w) ++ (callback_args (ctx_id (ctx w)) <$> done).
Proof.
  intros Hinv w'.
  destruct (thread (queue_at w queue)) as [|sync|] eqn:Hthread.
  1,3: subst w'; unfold vkr_queue_thread_wait_returns; rewrite Hthread;
       (split; [done|]); (split; [done|]); exists []; simpl;
       by rewrite app_nil_r.
  destruct (queue_inv_head _ _ _ Hinv Hthread) as [rest Hpend].
  destruct (wait_result_cases (sync_device_lost (sync_at w sync)) r)
    as [Hl|[Hr|[Hl Hr]]].
  3: { destruct (wait_returns_timeout r queue w sync Hthread Hl Hr)
         as (Hs & Hd & Hc & Hq & _).
       fold w' in Hs, Hd, Hc, Hq.
       destruct (unchanged_preserves queue w w') as [Hinv' Hreg];
         try done; rewrite ?Hd, ?Hq; try done.
       { intros a Ha. by apply thread_next_head. }
       split; [done|]. split; [by rewrite Hc|].
       exists []. simpl. by rewrite Hreg, Hc, app_nil_r. }
  all: edestruct (wait_returns_retire r queue w sync Hthread)
         as (Hs & Hd & Hc & Hq & _);
       [ (by left) || (by right) | ];
       fold w' in Hs, Hd, Hc, Hq;
       rewrite Hpend, list_del_head in Hq;
       destruct (retire_preserves queue w w' sync rest) as [Hinv' Hreg];
       try done; rewrite ?Hd, ?Hq; try done;
       try (intros a Ha; by apply thread_next_head in Ha);
       (split; [done|]); (split; [by rewrite Hc|]);
       exists [(sync, sync_at w sync)]; by rewrite Hreg, Hc.
Qed.

Lemma submit_inv e queue flags ring_idx fence_id w :
  queue_inv queue w →
  let r := vkr_queue_sync_submit e queue flags ring_idx fence_id w in
  queue_inv queue r.2 ∧
  registry r.2 queue =
    registry w queue ++
    submitted1 queue (Ev_submit e flags ring_idx fence_id) w.
Proof.
  intros Hinv r. unfold submitted1. fold r.
  pose proof (submit_effect e queue flags ring_idx fence_id w) as He.
  pose proof (alloc_effect (submit_alloc e) flags ring_idx fence_id w) as Ha.
  simpl in He, Ha. fold r in He.
  destruct He as (Hc & _ & He). destruct Ha as (Hqa & Hca & _ & Ha).
  destruct (vkr_device_alloc_queue_sync (submit_alloc e) flags ring_idx
              fence_id w) as [[a|] wa]; simpl in *.
  2: { rewrite He. simpl. rewrite app_nil_r. destruct Ha as [Hs Hf].
       apply unchanged_preserves; try done.
       - unfold queue_at. by rewrite Hqa.
       - intros a. unfold queue_at. rewrite Hqa. apply (inv_thread _ _ Hinv). }
  destruct Ha as [[f Hsa] Hfree].
  remember (free_syncs (dev wa)) as F' eqn:HF'.
  remember (pending_syncs (queue_at w queue)) as P eqn:HP.
  assert (NoDup (F' ++ P) ∧ (a ∉ F' ++ P) ∧
          ∀ x, x ∈ F' ++ P → x ∈ dom (syncs w)) as (Hnd & Hna & Hdom).
  { destruct Hinv as [Hnd Hal _]. rewrite <- HP in Hnd, Hal.
    destruct Hfree as [Hfree|(Hfree & -> & Hfresh)]; rewrite Hfree in *.
    - simpl in Hnd. apply NoDup_cons in Hnd as [? ?].
      repeat split; try done. intros x Hx. apply Hal. by right.
    - simpl in *. repeat split; try done. intros Hin. by apply Hfresh, Hal. }
  apply not_elem_of_app in Hna as [HnaF HnaP].
  assert (∀ x, x ∈ P → x ≠ a) as Hne by (intros x Hx ->; done).
  destruct (decide (submit_result e = VK_ERROR_DEVICE_LOST
                    ∨ submit_result e = VK_SUCCESS)) as [Hok|Hfail].
  - destruct He as (-> & [f' Hs] & Hf & Hq).
    assert (queue_at r.2 queue
            = with_pending_syncs (P ++ [a]) (queue_at w queue)) as Hqat.
    { unfold queue_at at 1. rewrite Hq. apply lookup_total_insert_eq. }
    split.
    + split; rewrite ?Hf, ?Hqat, ?Hs; simpl.
      * rewrite app_assoc. apply NoDup_app. repeat split; try done.
        -- intros x Hx Hin. apply list_elem_of_singleton in Hin as ->.
           apply elem_of_app in Hx as [?|?]; done.
        -- apply NoDup_singleton.
      * intros x Hx. rewrite dom_insert_L.
        rewrite app_assoc in Hx. apply elem_of_app in Hx as [Hx|Hx].
        -- apply elem_of_union_r. by apply Hdom.
        -- apply list_elem_of_singleton in Hx as ->.
           by apply elem_of_union_l, elem_of_singleton.
      * intros x Hx.
        apply (inv_thread _ _ Hinv) in Hx. rewrite <- HP in Hx.
        destruct P; simpl in *; done.
    + unfold registry. rewrite Hqat. simpl.
      rewrite <- HP. rewrite fmap_app. f_equal.
      apply list_fmap_ext. intros i x Hx.
      apply list_elem_of_lookup_2 in Hx.
      unfold sync_at. rewrite Hs.
      rewrite lookup_total_insert_ne; [done|].
      intros ->. by apply (Hne x).
  - destruct He as (-> & Hs & Hf & Hq). rewrite app_nil_r.
    rewrite Hsa in Hs.
    assert (queue_at r.2 queue = queue_at w queue) as Hqat.
    { unfold queue_at. by rewrite Hq. }
    split.
    + split; rewrite ?Hf, ?Hqat, ?Hs; simpl; rewrite <- ?HP.
      * rewrite <- app_assoc. simpl.
        apply NoDup_app. apply NoDup_app in Hnd as (HndF & Hdisj & HndP).
        repeat split; try done.
        -- intros x Hx Hin. apply elem_of_cons in Hin as [->|Hin]; [done|].
           by apply (Hdisj x).
        -- apply NoDup_cons. split; done.
      * intros x Hx. rewrite dom_insert_L.
        rewrite <- app_assoc in Hx. simpl in Hx.
        apply elem_of_app in Hx as [Hx|Hx].
        -- apply elem_of_union_r, Hdom, elem_of_app. by left.
        -- apply elem_of_cons in Hx as [->|Hx].
           ++ by apply elem_of_union_l, elem_of_singleton.
           ++ apply elem_of_union_r, Hdom, elem_of_app. by right.
      * rewrite HP. apply (inv_thread _ _ Hinv).
    + apply registry_ext; [by rewrite Hqat|].
      intros x Hx. rewrite <- HP in Hx. unfold sync_at. rewrite Hs.
      rewrite lookup_total_insert_ne; [done|].
      intros ->. by apply (Hne x).
Qed.

Lemma step_inv queue ev w :
  queue_inv queue w →
  let w' := step queue ev w in
  queue_inv queue w' ∧ ctx_id (ctx w') = ctx_id (ctx w) ∧
  ∃ done,
    registry w queue ++ submitted1 queue ev w = done ++ registry w' queue ∧
    retired (ctx w') =
      retired (ctx w) ++ (callback_args (ctx_id (ctx w)) <$> done).
Proof.
  intros Hinv. destruct ev as [e flags ring_idx fence_id| |r].
  - destruct (submit_inv e queue flags ring_idx fence_id w Hinv)
      as (Hinv' & Hreg).
    destruct (submit_effect e queue flags ring_idx fence_id w) as (Hc & _).
    simpl. split; [done|]. split; [by rewrite Hc|].
    exists []. simpl. by rewrite Hreg, Hc, app_nil_r.
  - destruct (wakeup_inv queue w Hinv) as (Hinv' & Hc & Hreg).
    simpl. split; [done|]. split; [by rewrite Hc|].
    exists []. simpl. by rewrite Hreg, Hc, !app_nil_r.
  - simpl. rewrite app_nil_r. by apply wait_returns_inv.
Qed.

(** Along every schedule the discipline holds, and the objects that were
    in the registry followed by the ones submitted since are, in this
    order, the ones reported to the callback followed by the ones still
    in the registry. *)
Lemma run_inv queue evs w :
  queue_inv queue w →
  let w' := run queue evs w in
  queue_inv queue w' ∧ ctx_id (ctx w') = ctx_id (ctx w) ∧
  ∃ done,
    registry w queue ++ submitted queue evs w = done ++ registry w' queue ∧
    retired (ctx w') =
      retired (ctx w) ++ (callback_args (ctx_id (ctx w)) <$> done).
Proof.
  revert w. induction evs as [|ev evs IH]; intros w Hinv; simpl.
  - split; [done|]. split; [done|]. exists []. by rewrite !app_nil_r.
  - destruct (step_inv queue ev w Hinv)
      as (Hinv1 & Hid1 & done1 & Hreg1 & Hret1).
    destruct (IH _ Hinv1) as (Hinv2 & Hid2 & done2 & Hreg2 & Hret2).
    change (run queue (ev :: evs) w) with (run queue evs (step queue ev w)).
    split; [done|]. split; [by rewrite Hid2|].
    exists (done1 ++ done2).
    rewrite app_assoc, Hreg1, <- !app_assoc, Hreg2.
    split; [done|].
    by rewrite Hret2, Hret1, Hid1, fmap_app, <- app_assoc.
Qed.

Lemma accepted1_submitted1 queue ev w :
  accepted1 queue ev w =
  callback_args (ctx_id (ctx w)) <$> submitted1 queue ev w.
Proof.
  destruct ev as [e flags ring_idx fence_id| |r]; try done. simpl.
  pose proof (submit_effect e queue flags ring_idx fence_id w) as He.
  simpl in He. destruct He as (_ & _ & He).
  destruct (vkr_device_alloc_queue_sync (submit_alloc e) flags ring_idx
              fence_id w) as [[a|] wa]; simpl in *.
  2: { by rewrite He. }
  destruct (decide (submit_result e = VK_ERROR_DEVICE_LOST
                    ∨ submit_result e = VK_SUCCESS)).
  - destruct He as (-> & [f Hs] & _). simpl.
    unfold callback_args, sync_at. simpl. rewrite Hs.
    by rewrite lookup_total_insert_eq.
  - by destruct He as (-> & _).
Qed.

Lemma accepted_submitted queue evs w :
  queue_inv queue w →
  accepted queue evs w =
  callback_args (ctx_id (ctx w)) <$> submitted queue evs w.
Proof.
  revert w. induction evs as [|ev evs IH]; intros w Hinv; [done|]. simpl.
  destruct (step_inv queue ev w Hinv) as (Hinv1 & Hid1 & _).
  by rewrite fmap_app, accepted1_submitted1, (IH _ Hinv1), Hid1.
Qed.

(** The same for the arguments of the callback: its calls so far,
    followed by what it is owed for the registry, are what it was owed at
    the start followed by the accepted submissions. *)
Lemma run_fifo queue evs w :
  queue_inv queue w →
  let w' := run queue evs w in
  retired (ctx w') ++ in_flight w' queue =
    retired (ctx w) ++ in_flight w queue ++ accepted queue evs w.
Proof.
  intros Hinv w'.
  destruct (run_inv queue evs w Hinv) as (_ & Hid & done & Hreg & Hret).
  fold w' in Hid, Hreg, Hret.
  rewrite !in_flight_registry, accepted_submitted, Hret, Hid by done.
  by rewrite <- fmap_app, Hreg, fmap_app, app_assoc.
Qed.

(** ** Teardown *)

(** The loop of [vkr_queue_retire_all_syncs]. *)
Lemma retire_loop_effect l w :
  let w' := foldl (λ w sync, vkr_queue_sync_retire sync w) w l in
  syncs w' = syncs w ∧ queue_objs w' = queue_objs w ∧
  dev w' = with_free_syncs (free_syncs (dev w) ++ l) (dev w) ∧
  ctx w' = with_retired (retired (ctx w) ++ (retire_args w <$> l)) (ctx w) ∧
  trace w' = trace w ++ retire_loop_trace l.
Proof.
  revert w. induction l as [|a l IH]; intros w; simpl.
  - rewrite !app_nil_r. by destruct w as [? ? [] [] ?].
  - destruct (IH (vkr_queue_sync_retire a w)) as (Hs & Hq & Hd & Hc & Ht).
    rewrite Hs, Hq, Hd, Hc, Ht. rewrite sync_retire_eq. wsimpl.
    repeat split; try done.
Qed.

Lemma retire_args_ext w w' a :
  syncs w' = syncs w → ctx_id (ctx w') = ctx_id (ctx w) →
  retire_args w' a = retire_args w a.
Proof. intros Hs Hc. unfold retire_args, sync_at. by rewrite Hs, Hc. Qed.

Lemma syncs_emit e w : syncs (emit e w) = syncs w.
Proof. done. Qed.
Lemma dev_emit e w : dev (emit e w) = dev w.
Proof. done. Qed.
Lemma ctx_emit e w : ctx (emit e w) = ctx w.
Proof. done. Qed.
Lemma queue_at_emit e w q : queue_at (emit e w) q = queue_at w q.
Proof. done. Qed.
Lemma trace_emit e w : trace (emit e w) = trace w ++ [e].
Proof. done. Qed.

(** The thread returns once [join] is set: [thrd_join] comes back with
    the thread exited, after at most one more retirement. *)
Lemma thrd_join_effect r queue w :
  let q := queue_at w queue in
  join q = true →
  (∀ a, thread q = T_fence_wait a → head (pending_syncs q) = Some a) →
  let w' := thrd_join r queue w in
  syncs w' = syncs w ∧
  (∀ q', q' ≠ queue → queue_at w' q' = queue_at w q') ∧
  ∃ done rest prims,
    pending_syncs q = done ++ rest ∧
    dev w' = with_free_syncs (free_syncs (dev w) ++ done) (dev w) ∧
    ctx w' = with_retired (retired (ctx w) ++ (retire_args w <$> done))
                          (ctx w) ∧
    queue_at w' queue = with_thread T_exited (with_pending_syncs rest q) ∧
    trace w' =
      trace w ++ thread_wait_call w r (thread q) ++ prims ++
      [thrd_join_returned queue] ∧
    forallb is_sync_primitive prims = true.
Proof.
  intros q Hjoin Hhead w'. subst w'. unfold thrd_join.
  assert (∀ p, thread_next (with_pending_syncs p q) = T_exited) as Hnext.
  { intros p. unfold thread_next. simpl. rewrite Hjoin. by destruct p. }
  assert (dev w = with_free_syncs (free_syncs (dev w) ++ []) (dev w)) as Hd0.
  { rewrite app_nil_r. by destruct (dev w). }
  assert (ctx w = with_retired (retired (ctx w) ++ []) (ctx w)) as Hc0.
  { rewrite app_nil_r. by destruct (ctx w). }
  assert (with_pending_syncs (pending_syncs q) q = q) as Hq0
    by (by destruct q).
  rewrite syncs_emit, dev_emit, ctx_emit, trace_emit.
  setoid_rewrite queue_at_emit. fold q.
  destruct (thread q) as [|sync|] eqn:Hthread.
  - destruct (wakeup_effect queue w)
      as (Hs & Hd & Hc & Hq & Hfr & evs & Ht & Hf).
    fold q in Hq. rewrite Hthread in Hq.
    split; [done|]. split; [done|].
    exists [], (pending_syncs q), evs.
    rewrite Hq0. specialize (Hnext (pending_syncs q)). rewrite Hq0 in Hnext.
    rewrite Hd, Hc, Hq, Hnext, Ht. rewrite <- app_assoc.
    repeat split; try done.
  - pose proof (Hhead sync eq_refl) as Hh.
    apply head_Some in Hh as [rest Hpend].
    destruct (wait_result_cases (sync_device_lost (sync_at w sync)) r)
      as [Hl|[Hr|[Hl Hr]]].
    3: { destruct (wait_returns_timeout r queue w sync Hthread Hl Hr)
           as (Hs & Hd & Hc & Hq & Hfr & ev & Hev & Ht).
         fold q in Hq.
         split; [done|]. split; [done|].
         exists [], (pending_syncs q), [mtx_lock (queue_mutex queue); ev].
         rewrite Hq0. specialize (Hnext (pending_syncs q)).
         rewrite Hq0 in Hnext.
         rewrite Hd, Hc, Hq, Hnext, Ht. simpl. rewrite Hl, Hev.
         rewrite <- app_assoc. simpl. repeat split; try done. }
    all: edestruct (wait_returns_retire r queue w sync Hthread)
           as (Hs & Hd & Hc & Hq & Hfr & ev & Hev & Ht);
         [ (by left) || (by right) | ];
         fold q in Hq; rewrite Hpend, list_del_head in Hq;
         rewrite Hnext in Hq;
         (split; [done|]); (split; [done|]);
         exists [sync], rest,
           [mtx_lock (queue_mutex queue); mtx_lock free_sync_mutex;
            mtx_unlock free_sync_mutex; ev];
         rewrite Hd, Hc, Hq, Ht; rewrite <- ?app_assoc; simpl;
         rewrite Hev; rewrite <- ?app_assoc; simpl;
         (repeat split; try done).
  - split; [done|]. split; [done|].
    exists [], (pending_syncs q), []. rewrite Hq0.
    repeat split; try done.
    fold q. clearbody q. destruct q; simpl in *; by subst.
Qed.

Lemma retire_all_effect r queue w :
  let q := queue_at w queue in
  (∀ a, thread q = T_fence_wait a → head (pending_syncs q) = Some a) →
  let w' := vkr_queue_retire_all_syncs r queue w in
  syncs w' = syncs w ∧
  (∀ q', q' ≠ queue → queue_at w' q' = queue_at w q') ∧
  dev w' = with_free_syncs (free_syncs (dev w) ++ pending_syncs q) (dev w) ∧
  ctx w' = with_retired (retired (ctx w) ++ in_flight w queue) (ctx w) ∧
  ∃ done rest prims,
    pending_syncs q = done ++ rest ∧
    queue_at w' queue =
      with_thread T_exited (with_pending_syncs rest (with_join true q)) ∧
    trace w' =
      trace w ++
      [mtx_lock (queue_mutex queue); mtx_unlock (queue_mutex queue);
       cnd_signal queue] ++
      thread_wait_call w r (thread q) ++ prims ++
      [thrd_join_returned queue] ++ retire_loop_trace rest ∧
    forallb is_sync_primitive prims = true.
Proof.
  intros q Hhead w'. subst w'.
  unfold vkr_queue_retire_all_syncs, vkr_queue_request_join.
  set (w1 := emit (cnd_signal queue) _).
  assert (queue_at w1 queue = with_join true q) as Hq1.
  { subst w1. rewrite !queue_at_emit. by rewrite queue_at_store_queue. }
  assert (∀ q', q' ≠ queue → queue_at w1 q' = queue_at w q') as Hfr1.
  { intros q' Hq'. subst w1. rewrite !queue_at_emit.
    by rewrite queue_at_store_queue_ne. }
  assert (syncs w1 = syncs w ∧ dev w1 = dev w ∧ ctx w1 = ctx w ∧
          trace w1 = trace w ++ [mtx_lock (queue_mutex queue);
                                 mtx_unlock (queue_mutex queue);
                                 cnd_signal queue]) as (Hs1 & Hd1 & Hc1 & Ht1).
  { subst w1. by wsimpl. }
  destruct (thrd_join_effect r queue w1)
    as (Hs2 & Hfr2 & done & rest & prims & Hp & Hd2 & Hc2 & Hq2 & Ht2 & Hf2).
  { by rewrite Hq1. }
  { rewrite Hq1. simpl. apply Hhead. }
  rewrite Hq1 in Hp, Hq2, Ht2. simpl in Hp.
  change (thread (with_join true q)) with (thread q) in Ht2.
  assert (thread_wait_call w1 r (thread q) = thread_wait_call w r (thread q))
    as Hcall.
  { unfold thread_wait_call, sync_at. by rewrite Hs1. }
  rewrite Hcall in Ht2.
  set (w2 := thrd_join r queue w1) in *. clearbody w2.
  destruct (retire_loop_effect (pending_syncs (queue_at w2 queue)) w2)
    as (Hs3 & Hq3 & Hd3 & Hc3 & Ht3).
  rewrite Hq2 in Hs3, Hq3, Hd3, Hc3, Ht3. simpl in Hs3, Hq3, Hd3, Hc3, Ht3.
  rewrite Hq2. simpl.
  split; [by rewrite Hs3, Hs2|].
  split. { intros q' Hq'. unfold queue_at at 1. rewrite Hq3.
           fold (queue_at w2 q'). rewrite Hfr2; auto. }
  split. { rewrite Hd3, Hd2, Hd1, Hp. simpl. by rewrite <- app_assoc. }
  split. { assert (retire_args w1 <$> done = retire_args w <$> done) as Hr1.
           { apply list_fmap_ext. intros i a _.
             apply retire_args_ext; [done|by rewrite Hc1]. }
           assert (retire_args w2 <$> rest = retire_args w <$> rest) as Hr2.
           { apply list_fmap_ext. intros i a _.
             apply retire_args_ext; [by rewrite Hs2|].
             by rewrite Hc2, Hc1. }
           rewrite Hc3, Hr2, Hc2, Hr1, Hc1. unfold in_flight. fold q.
           rewrite Hp, fmap_app. unfold with_retired. simpl.
           by rewrite <- app_assoc. }
  exists done, rest, prims. split; [done|]. split.
  { unfold queue_at at 1. rewrite Hq3. fold (queue_at w2 queue).
    by rewrite Hq2. }
  split; [|done].
  rewrite Ht3, Ht2, Ht1, <- !app_assoc. done.
Qed.

Lemma destroy_effect r queue w :
  let q := queue_at w queue in
  (∀ a, thread q = T_fence_wait a → head (pending_syncs q) = Some a) →
  let w' := vkr_queue_destroy r queue w in
  syncs w' = syncs w ∧
  (∀ q', q' ≠ queue → queue_at w' q' = queue_at w q') ∧
  queue_objs w' !! queue = None ∧
  dev w' = with_queues (list_del queue (queues (dev w)))
             (with_free_syncs (free_syncs (dev w) ++ pending_syncs q)
                              (dev w)) ∧
  ctx w' =
    with_object_table
      (if decide (queue_id q ≠ 0)
       then delete (queue_id q) (object_table (ctx w))
       else object_table (ctx w))
      (with_sync_queues
         (if decide (0 < queue_ring_idx q)
          then <[N.to_nat (queue_ring_idx q) := None]> (sync_queues (ctx w))
          else sync_queues (ctx w))
         (with_retired (retired (ctx w) ++ in_flight w queue) (ctx w))) ∧
  ∃ done rest prims,
    pending_syncs q = done ++ rest ∧
    trace w' =
      trace w ++
      [mtx_lock (queue_mutex queue); mtx_unlock (queue_mutex queue);
       cnd_signal queue] ++
      thread_wait_call w r (thread q) ++ prims ++
      [thrd_join_returned queue] ++ retire_loop_trace rest ++
      [mtx_destroy (queue_mutex queue); cnd_destroy queue] ++
      (if decide (queue_id q ≠ 0) then [] else [free_queue queue]) ∧
    forallb is_sync_primitive prims = true.
Proof.
  intros q Hhead w'. subst w'. unfold vkr_queue_destroy.
  destruct (retire_all_effect r queue w Hhead)
    as (Hs & Hfr & Hd & Hc & done & rest & prims & Hp & Hq & Ht & Hprims).
  fold q in Hd, Hq, Ht, Hp.
  set (w1 := vkr_queue_retire_all_syncs r queue w) in *. clearbody w1.
  match goal with |- context [queue_at ?w2 queue] =>
    assert (queue_at w2 queue
            = with_thread T_exited
                (with_pending_syncs rest (with_join true q)))
      as Hq2 by done;
    rewrite Hq2
  end.
  cbn [queue_id queue_ring_idx with_thread with_pending_syncs with_join].
  assert (∀ q', q' ≠ queue →
            delete queue (queue_objs w1) !!! q' = queue_at w q') as Hdel.
  { intros q' Hq'. rewrite lookup_total_delete_ne by done. by apply Hfr. }
  clearbody q.
  destruct (decide (queue_id q ≠ 0)) as [Hid|Hid];
    destruct (decide (0 < queue_ring_idx q)) as [Hri|Hri];
    unfold vkr_context_remove_object; wsimpl;
    rewrite ?Hq;
    cbn [queue_id queue_ring_idx with_thread with_pending_syncs with_join];
    (split; [done|]);
    (split; [exact Hdel|]);
    (split; [apply lookup_delete_eq|]);
    rewrite Hd, Hc;
    (split; [done|]); (split; [done|]);
    exists done, rest, prims; rewrite Ht, ?app_nil_r;
    repeat (first [rewrite <- app_assoc | progress (cbn [app])]); done.
Qed.

(** ** Order of the completion callbacks *)

(** C1. On one queue, for every schedule of submissions, thread wake-ups
    and wait results (so whatever the timing of the fences is): a
    submission that returns true puts its (ring index, fence id) at the
    tail of the registry; the object the thread waits on is the first of
    the registry, and when its wait ends without a timeout it is the one
    reported and removed; at every moment the calls of [retire_fence] made
    so far, followed by the objects still in the registry, are those of
    the start followed by the accepted submissions in submission order;
    and once the queue is destroyed every one of them has been reported,
    once, in that order. *)
Theorem retire_fence_fifo (queue : addr) (evs : list sched_event)
    (r : VkResult) (w : world) :
  queue_inv queue w →
  let w1 := run queue evs w in
  (∀ e flags ring_idx fence_id,
     let s := vkr_queue_sync_submit e queue flags ring_idx fence_id w1 in
     s.1 = true →
     in_flight s.2 queue =
       in_flight w1 queue ++ [(ctx_id (ctx w), ring_idx, fence_id)]) ∧
  (∀ sync r',
     thread (queue_at w1 queue) = T_fence_wait sync →
     head (pending_syncs (queue_at w1 queue)) = Some sync ∧
     (sync_device_lost (sync_at w1 sync) = true ∨ r' ≠ VK_TIMEOUT →
      let w2 := vkr_queue_thread_wait_returns r' queue w1 in
      retired (ctx w2) = retired (ctx w1) ++ [retire_args w1 sync] ∧
      in_flight w1 queue = retire_args w1 sync :: in_flight w2 queue)) ∧
  retired (ctx w1) ++ in_flight w1 queue =
    retired (ctx w) ++ in_flight w queue ++ accepted queue evs w ∧
  retired (ctx (vkr_queue_destroy r queue w1)) =
    retired (ctx w) ++ in_flight w queue ++ accepted queue evs w.
Proof.
  intros Hinv w1.
  destruct (run_inv queue evs w Hinv) as (Hinv1 & Hid1 & _).
  pose proof (run_fifo queue evs w Hinv) as Heq1.
  fold w1 in Hinv1, Hid1, Heq1.
  split; [|split; [|split]].
  - intros e flags ring_idx fence_id s Hok.
    pose proof (run_fifo queue [Ev_submit e flags ring_idx fence_id] w1 Hinv1)
      as Heq.
    destruct (submit_effect e queue flags ring_idx fence_id w1) as (Hc & _).
    simpl in Heq. fold s in Heq, Hc. rewrite Hok, Hc, Hid1 in Heq.
    apply app_inv_head in Heq. by rewrite app_nil_r in Heq.
  - intros sync r' Hthread.
    pose proof (inv_thread _ _ Hinv1 sync Hthread) as Hhead.
    split; [done|]. intros Hr w2.
    destruct (wait_returns_retire r' queue w1 sync Hthread Hr)
      as (_ & _ & Hc & _).
    pose proof (run_fifo queue [Ev_wait_returns r'] w1 Hinv1) as Heq.
    simpl in Heq. fold w2 in Hc, Heq. rewrite Hc in Heq |- *. simpl in *.
    split; [done|].
    rewrite <- app_assoc in Heq. apply app_inv_head in Heq.
    by rewrite app_nil_r in Heq.
  - done.
  - destruct (destroy_effect r queue w1 (inv_thread _ _ Hinv1))
      as (_ & _ & _ & _ & Hc & _).
    rewrite Hc. simpl. done.
Qed.

(** ** Device loss *)

(** C2. When vkQueueSubmit answers VK_ERROR_DEVICE_LOST for the object
    [sync] taken from the pool, [vkr_queue_sync_submit] returns true, the
    object is marked [device_lost] and is the new last node of the
    registry. Whatever happens next on the queue, when the objects that
    were ahead of it have been reported and the thread waits on it, the
    thread makes no driver call for it whatever the driver would have
    answered: it unlinks it from the front of the registry, calls
    [retire_fence] with the ring index and fence id of that submission,
    and puts it on the free list. *)
Theorem device_lost_submit_retire (e : submit_env) (queue : addr)
    (flags ring_idx fence_id : N) (w : world) (sync : addr) :
  queue_inv queue w →
  (vkr_device_alloc_queue_sync (submit_alloc e) flags ring_idx fence_id w).1
    = Some sync →
  submit_result e = VK_ERROR_DEVICE_LOST →
  let s := vkr_queue_sync_submit e queue flags ring_idx fence_id w in
  s.1 = true ∧
  sync_device_lost (sync_at s.2 sync) = true ∧
  pending_syncs (queue_at s.2 queue) =
    pending_syncs (queue_at w queue) ++ [sync] ∧
  ∀ evs r,
    let w1 := run queue evs s.2 in
    length (retired (ctx w1)) =
      (length (retired (ctx w)) + length (pending_syncs (queue_at w queue)))%nat →
    thread (queue_at w1 queue) = T_fence_wait sync →
    let w2 := vkr_queue_thread_wait_returns r queue w1 in
    (∃ prims, trace w2 = trace w1 ++ prims ∧
              forallb is_sync_primitive prims = true) ∧
    pending_syncs (queue_at w1 queue) = sync :: pending_syncs (queue_at w2 queue) ∧
    retired (ctx w2) =
      retired (ctx w1) ++ [(ctx_id (ctx w), ring_idx, fence_id)] ∧
    free_syncs (dev w2) = free_syncs (dev w1) ++ [sync].
Proof.
  intros Hinv Halloc Hlost s.
  pose proof (submit_effect e queue flags ring_idx fence_id w) as He.
  simpl in He. fold s in He. rewrite Halloc in He.
  destruct He as (Hc & _ & He).
  rewrite decide_True in He by (by left).
  destruct He as (Hok & [f Hs] & _ & Hq).
  rewrite bool_decide_eq_true_2 in Hs by done.
  assert (sync_at s.2 sync = mk_sync f flags ring_idx fence_id true) as Hrec.
  { unfold sync_at. rewrite Hs. apply lookup_total_insert_eq. }
  assert (pending_syncs (queue_at s.2 queue)
          = pending_syncs (queue_at w queue) ++ [sync]) as Hpend.
  { unfold queue_at at 1. rewrite Hq. by rewrite lookup_total_insert_eq. }
  split; [done|]. split; [by rewrite Hrec|]. split; [done|].
  intros evs r w1 Hlen Hthread w2.
  destruct (submit_inv e queue flags ring_idx fence_id w Hinv)
    as (Hinv_s & Hreg_s).
  fold s in Hinv_s, Hreg_s. unfold submitted1 in Hreg_s. fold s in Hreg_s.
  rewrite Halloc, Hok in Hreg_s.
  destruct (run_inv queue evs s.2 Hinv_s)
    as (Hinv1 & Hid1 & done & Hreg1 & Hret1).
  fold w1 in Hinv1, Hid1, Hreg1, Hret1.
  rewrite Hc in Hret1, Hid1.
  assert (length done = length (registry w queue)) as Hdone.
  { rewrite Hret1, length_app, length_fmap in Hlen.
    unfold registry. rewrite length_fmap. lia. }
  rewrite Hreg_s, <- app_assoc in Hreg1.
  apply app_inj_1 in Hreg1 as [<- Hreg1]; [|done].
  simpl in Hreg1.
  assert (∃ rest, pending_syncs (queue_at w1 queue) = sync :: rest
                  ∧ sync_at w1 sync = sync_at s.2 sync) as (rest & Hp1 & Hrec1).
  { unfold registry in Hreg1.
    destruct (pending_syncs (queue_at w1 queue)) as [|a rest];
      simplify_eq/=. by exists rest. }
  assert (sync_device_lost (sync_at w1 sync) = true) as Hl1
    by (by rewrite Hrec1, Hrec).
  destruct (wait_returns_retire r queue w1 sync Hthread (or_introl Hl1))
    as (_ & Hd2 & Hc2 & Hq2 & _ & ev & Hev & Ht2).
  fold w2 in Hd2, Hc2, Hq2, Ht2.
  rewrite Hp1, list_del_head in Hq2.
  unfold thread_wait_call in Ht2. rewrite Hl1 in Ht2. simpl in Ht2.
  split. { eexists. split; [exact Ht2|]. simpl. by rewrite Hev. }
  split. { by rewrite Hp1, Hq2. }
  split. { rewrite Hc2. simpl. unfold retire_args.
           by rewrite Hrec1, Hrec, Hid1. }
  by rewrite Hd2.
Qed.

(** ** Teardown drains the registry *)



(** ** A submission the driver refuses *)

(** C5. When vkQueueSubmit answers anything but VK_SUCCESS and
    VK_ERROR_DEVICE_LOST for the object [sync] taken from the pool,
    [vkr_queue_sync_submit] returns false after putting [sync] back at
    the tail of the free list; no queue object and nothing of the context
    changes, so the registry is as before and no callback is made; and
    whatever happens afterwards on the queue, the callbacks made are for
    the objects that were in the registry and for later accepted
    submissions: none is ever made for the refused one. *)
Theorem submit_failure_releases (e : submit_env) (queue : addr)
    (flags ring_idx fence_id : N) (w : world) (sync : addr) :
  queue_inv queue w →
  (vkr_device_alloc_queue_sync (submit_alloc e) flags ring_idx fence_id w).1
    = Some sync →
  submit_result e ≠ VK_SUCCESS →
  submit_result e ≠ VK_ERROR_DEVICE_LOST →
  let a := vkr_device_alloc_queue_sync (submit_alloc e) flags ring_idx
                                       fence_id w in
  let s := vkr_queue_sync_submit e queue flags ring_idx fence_id w in
  s.1 = false ∧
  free_syncs (dev s.2) = free_syncs (dev a.2) ++ [sync] ∧
  queue_objs s.2 = queue_objs w ∧
  ctx s.2 = ctx w ∧
  registry s.2 queue = registry w queue ∧
  ∀ evs,
    let w1 := run queue evs s.2 in
    retired (ctx w1) ++ in_flight w1 queue =
      retired (ctx w) ++ in_flight w queue ++ accepted queue evs s.2.
Proof.
  intros Hinv Halloc Hne1 Hne2 a s.
  pose proof (submit_effect e queue flags ring_idx fence_id w) as He.
  simpl in He. fold s a in He. fold a in Halloc. rewrite Halloc in He.
  destruct He as (Hc & _ & He).
  rewrite decide_False in He by (intros [|]; done).
  destruct He as (Hfalse & _ & Hf & Hq).
  destruct (submit_inv e queue flags ring_idx fence_id w Hinv)
    as (Hinv_s & Hreg).
  fold s in Hinv_s, Hreg. unfold submitted1 in Hreg.
  fold s a in Hreg. rewrite Halloc, Hfalse, app_nil_r in Hreg.
  repeat split; try done.
  intros evs w1. subst w1.
  rewrite (run_fifo queue evs s.2 Hinv_s).
  by rewrite Hc, !in_flight_registry, Hreg, Hc.
Qed.

(** ** Timeouts of the wait *)

(** C8, as amended. When the thread ends its wait on an object that is
    not marked device-lost, the wait was vkWaitForFences on the fence of
    that object with a timeout of 3,000,000,000 ns. If the result is
    VK_TIMEOUT, the objects, the pool, the registry and the context
    (callback log and fatal flag) are unchanged, and the thread goes back
    to waiting on the same object unless [join] has been requested, in
    which case it returns and leaves the object in the registry. If the
    result is anything else the object is unlinked from the front of the
    registry, reported to [retire_fence] and put on the free list. *)
Theorem thread_wait_timeout_retry (r : VkResult) (queue : addr) (w : world)
    (sync : addr) :
  queue_inv queue w →
  thread (queue_at w queue) = T_fence_wait sync →
  sync_device_lost (sync_at w sync) = false →
  let q := queue_at w queue in
  let w' := vkr_queue_thread_wait_returns r queue w in
  (∃ prims,
     trace w' =
       trace w ++
       [vk_WaitForFences (sync_fence (sync_at w sync)) 3000000000 r] ++ prims ∧
     forallb is_sync_primitive prims = true) ∧
  (r = VK_TIMEOUT →
   syncs w' = syncs w ∧ dev w' = dev w ∧ ctx w' = ctx w ∧
   pending_syncs (queue_at w' queue) = pending_syncs q ∧
   thread (queue_at w' queue) =
     if join q then T_exited else T_fence_wait sync) ∧
  (r ≠ VK_TIMEOUT →
   pending_syncs q = sync :: pending_syncs (queue_at w' queue) ∧
   retired (ctx w') = retired (ctx w) ++ [retire_args w sync] ∧
   free_syncs (dev w') = free_syncs (dev w) ++ [sync]).
Proof.
  intros Hinv Hthread Hlost q w'.
  destruct (queue_inv_head _ _ _ Hinv Hthread) as [rest Hpend]. fold q in Hpend.
  change 3000000000 with wait_timeout.
  split; [|split].
  - destruct (decide (r = VK_TIMEOUT)) as [Hr|Hr].
    + destruct (wait_returns_timeout r queue w sync Hthread Hlost Hr)
        as (_ & _ & _ & _ & _ & ev & Hev & Ht).
      exists [mtx_lock (queue_mutex queue); ev]. split; [done|].
      simpl. by rewrite Hev.
    + destruct (wait_returns_retire r queue w sync Hthread (or_intror Hr))
        as (_ & _ & _ & _ & _ & ev & Hev & Ht).
      unfold thread_wait_call in Ht. rewrite Hlost in Ht.
      eexists. split; [exact Ht|]. simpl. by rewrite Hev.
  - intros Hr.
    destruct (wait_returns_timeout r queue w sync Hthread Hlost Hr)
      as (Hs & Hd & Hc & Hq & _).
    fold w' q in Hs, Hd, Hc, Hq. rewrite Hq. simpl.
    repeat split; try done.
    unfold thread_next. rewrite Hpend. by destruct (join q).
  - intros Hr.
    destruct (wait_returns_retire r queue w sync Hthread (or_intror Hr))
      as (_ & Hd & Hc & Hq & _).
    fold w' q in Hd, Hc, Hq. rewrite Hq, Hd, Hc, Hpend, list_del_head. done.
Qed.

(** ** Reuse of the pooled fence *)

Lemma created_fences_app tr1 tr2 :
  created_fences (tr1 ++ tr2) = (created_fences tr1 + created_fences tr2)%nat.
Proof. unfold created_fences. by rewrite filter_app, length_app. Qed.

Lemma created_fences_prims prims :
  forallb is_sync_primitive prims = true → created_fences prims = 0%nat.
Proof.
  unfold created_fences. induction prims as [|e prims IH]; [done|].
  simpl. intros [He Hp]%andb_true_iff. rewrite filter_cons.
  destruct e; try done; simpl; auto.
Qed.

Lemma alloc_created e flags ring_idx fence_id w :
  let a := vkr_device_alloc_queue_sync e flags ring_idx fence_id w in
  created_fences (trace a.2) =
    (created_fences (trace w) +
     match free_syncs (dev w), a.1 with
     | [], Some _ => 1
     | _, _ => 0
     end)%nat.
Proof.
  intros a. subst a. unfold vkr_device_alloc_queue_sync. simpl.
  destruct (free_syncs (dev w)) as [|sync rest].
  - destruct (malloc_result e); [|wsimpl; by rewrite created_fences_app].
    destruct (decide (create_result e ≠ VK_SUCCESS)) as [Hr|Hr]; wsimpl;
      rewrite created_fences_app; f_equal;
      unfold created_fences; rewrite !filter_cons; simpl.
    + by rewrite bool_decide_eq_false_2.
    + apply dec_stable in Hr. by rewrite bool_decide_eq_true_2.
  - wsimpl. by rewrite created_fences_app.
Qed.

Lemma submit_created e queue flags ring_idx fence_id w :
  let a := vkr_device_alloc_queue_sync (submit_alloc e) flags ring_idx
                                       fence_id w in
  let s := vkr_queue_sync_submit e queue flags ring_idx fence_id w in
  created_fences (trace s.2) = created_fences (trace a.2).
Proof.
  intros a s. subst a s. unfold vkr_queue_sync_submit.
  destruct (vkr_device_alloc_queue_sync (submit_alloc e) flags ring_idx
              fence_id w) as [[sync|] wa]; [|done].
  destruct (decide (submit_result e = VK_ERROR_DEVICE_LOST));
    [|destruct (decide (submit_result e ≠ VK_SUCCESS))];
    unfold sync_submit_enqueue; rewrite ?free_queue_sync_eq; wsimpl;
    by rewrite created_fences_app, Nat.add_0_r.
Qed.

(** One step of a schedule without concurrent submissions creates a
    fence only when no object exists yet, and never loses one. *)
Lemma step_created queue ev w c0 :
  queue_inv queue w →
  match ev with
  | Ev_submit _ _ _ _ => pending_syncs (queue_at w queue) = []
  | _ => True
  end →
  created_fences (trace w) = (c0 + live_syncs queue w)%nat →
  (live_syncs queue w ≤ 1)%nat →
  let w' := step queue ev w in
  created_fences (trace w') = (c0 + live_syncs queue w')%nat ∧
  (live_syncs queue w' ≤ 1)%nat ∧
  (live_syncs queue w = 1%nat ∨ accepted1 queue ev w ≠ [] →
   live_syncs queue w' = 1%nat).
Proof.
  intros Hinv Hseq Hc Hle. unfold live_syncs in *.
  destruct ev as [e flags ring_idx fence_id| |r]; simpl.
  - rewrite Hseq in *. simpl in Hc, Hle. rewrite Nat.add_0_r in Hc, Hle.
    pose proof (submit_effect e queue flags ring_idx fence_id w) as He.
    pose proof (alloc_effect (submit_alloc e) flags ring_idx fence_id w) as Ha.
    pose proof (alloc_created (submit_alloc e) flags ring_idx fence_id w) as Hca.
    pose proof (submit_created e queue flags ring_idx fence_id w) as Hcs.
    simpl in He, Ha, Hca, Hcs. rewrite Hcs, Hca, Hc. clear Hcs Hca Hc.
    destruct He as (_ & _ & He). destruct Ha as (Hqa & _ & _ & Ha).
    set (s := vkr_queue_sync_submit e queue flags ring_idx fence_id w) in *.
    destruct (vkr_device_alloc_queue_sync (submit_alloc e) flags ring_idx
                fence_id w) as [[a|] wa]; simpl in *.
    2: { rewrite He. simpl. destruct Ha as [_ Hf]. rewrite Hf.
         unfold queue_at. rewrite Hqa. fold (queue_at w queue).
         rewrite Hseq. simpl.
         destruct (free_syncs (dev w)); simpl in *; repeat split; try lia.
         intros [|]; done. }
    destruct Ha as [_ Hfree].
    assert (free_syncs (dev wa) = [] ∧
            (length (free_syncs (dev w)) +
             match free_syncs (dev w) with [] => 1 | _ => 0 end = 1)%nat)
      as [Hfa Hone].
    { destruct Hfree as [Hfree|(Hfree & ? & _)]; rewrite Hfree in *.
      - simpl in *. destruct (free_syncs (dev wa)); simpl in *; [done|lia].
      - done. }
    destruct (decide (submit_result e = VK_ERROR_DEVICE_LOST
                      ∨ submit_result e = VK_SUCCESS)).
    + destruct He as (_ & _ & Hf & Hq).
      unfold queue_at at 1 2 3. rewrite Hq, lookup_total_insert_eq. simpl.
      rewrite Hf, Hfa, Hseq. simpl. lia.
    + destruct He as (_ & _ & Hf & Hq).
      unfold queue_at at 1 2 3. rewrite Hq. fold (queue_at w queue).
      rewrite Hf, Hfa, Hseq. simpl. lia.
  - destruct (wakeup_effect queue w)
      as (_ & Hd & _ & Hq & _ & evs & Ht & Hprims).
    rewrite Hd, Ht, created_fences_app, (created_fences_prims evs Hprims).
    assert (pending_syncs (queue_at (vkr_queue_thread_wakeup queue w) queue)
            = pending_syncs (queue_at w queue)) as ->.
    { rewrite Hq. by destruct (thread (queue_at w queue)). }
    repeat split; try lia. intros [|]; done.
  - destruct (thread (queue_at w queue)) as [|sync|] eqn:Hthread.
    1,3: unfold vkr_queue_thread_wait_returns; rewrite Hthread;
         repeat split; try lia; intros [|]; done.
    destruct (queue_inv_head _ _ _ Hinv Hthread) as [rest Hpend].
    destruct (wait_result_cases (sync_device_lost (sync_at w sync)) r)
      as [Hl|[Hr|[Hl Hr]]].
    3: { destruct (wait_returns_timeout r queue w sync Hthread Hl Hr)
           as (_ & Hd & _ & Hq & _ & ev & Hev & Ht).
         rewrite Hd, Hq, Ht, created_fences_app. simpl.
         unfold created_fences at 2. rewrite !filter_cons. simpl.
         destruct ev; try done; simpl;
           repeat split; try lia; intros [|]; done. }
    all: edestruct (wait_returns_retire r queue w sync Hthread)
           as (_ & Hd & _ & Hq & _ & ev & Hev & Ht);
         [ (by left) || (by right) | ];
         rewrite Hd, Hq, Ht, !created_fences_app; simpl;
         rewrite Hpend in Hc, Hle |- *; rewrite list_del_head;
         simpl in Hc, Hle |- *; rewrite length_app; simpl;
         assert (created_fences
                   (if sync_device_lost (sync_at w sync) then []
                    else [vk_WaitForFences (sync_fence (sync_at w sync))
                                           wait_timeout r]) = 0%nat) as ->
           by (by destruct (sync_device_lost (sync_at w sync)));
         unfold created_fences at 2; rewrite !filter_cons; simpl;
         destruct ev; try done; simpl;
         repeat split; try lia.
Qed.

Lemma run_created queue evs w c0 :
  queue_inv queue w → sequential queue evs w →
  created_fences (trace w) = (c0 + live_syncs queue w)%nat →
  (live_syncs queue w ≤ 1)%nat →
  let w1 := run queue evs w in
  created_fences (trace w1) = (c0 + live_syncs queue w1)%nat ∧
  (live_syncs queue w1 ≤ 1)%nat ∧
  (live_syncs queue w = 1%nat ∨ accepted queue evs w ≠ [] →
   live_syncs queue w1 = 1%nat).
Proof.
  revert w. induction evs as [|ev evs IH]; intros w Hinv Hseq Hc Hle; simpl.
  - repeat split; try done. intros [|]; done.
  - destruct Hseq as [Hseq1 Hseq].
    destruct (step_created queue ev w c0 Hinv Hseq1 Hc Hle)
      as (Hc1 & Hle1 & H1).
    destruct (step_inv queue ev w Hinv) as (Hinv1 & _).
    destruct (IH _ Hinv1 Hseq Hc1 Hle1) as (Hc2 & Hle2 & H2).
    change (run queue (ev :: evs) w) with (run queue evs (step queue ev w)).
    repeat split; try done.
    intros [Hone|Hacc].
    + apply H2. left. apply H1. by left.
    + apply H2.
      destruct (accepted1 queue ev w) eqn:Hacc1.
      * by right.
      * left. apply H1. right. done.
Qed.

(** C9. On a queue and a device that start with no synchronization
    object, along every schedule in which each submission is made only
    once the registry is empty again (no concurrent submissions), and
    whatever the number N of accepted submissions: at most one native
    fence is ever created, exactly one is as soon as one submission has
    been accepted, and the fences created are exactly the objects that
    sit in the pool or in the registry; every acquire after the first
    creation recycles the pooled object. *)
Theorem pool_reuse_single_fence (queue : addr) (evs : list sched_event)
    (w : world) :
  queue_inv queue w →
  free_syncs (dev w) = [] →
  pending_syncs (queue_at w queue) = [] →
  sequential queue evs w →
  let w1 := run queue evs w in
  let created := (created_fences (trace w1) - created_fences (trace w))%nat in
  (created ≤ 1)%nat ∧
  (accepted queue evs w ≠ [] → created = 1%nat) ∧
  created = live_syncs queue w1.
Proof.
  intros Hinv Hfree Hpend Hseq w1 created.
  assert (live_syncs queue w = 0%nat) as Hlive.
  { unfold live_syncs. by rewrite Hfree, Hpend. }
  destruct (run_created queue evs w (created_fences (trace w)) Hinv Hseq)
    as (Hc & Hle & Hone); [lia|lia|].
  fold w1 in Hc, Hle, Hone. subst created. rewrite Hc.
  repeat split; try lia.
  intros Hacc. rewrite Hone; [lia|by right].
Qed.

(** ** Identity and ring binding *)

Section identity_properties.

Variable validate : vkr_context → vkr_object_id → bool * bool.

Lemma assign_object_id_frame queue id w :
  let w' := vkr_queue_assign_object_id validate queue id w in
  syncs w' = syncs w ∧ dev w' = dev w ∧ trace w' = trace w ∧
  sync_queues (ctx w') = sync_queues (ctx w) ∧
  retired (ctx w') = retired (ctx w) ∧
  queue_ring_idx (queue_at w' queue) = queue_ring_idx (queue_at w queue) ∧
  ∀ q', q' ≠ queue → queue_at w' q' = queue_at w q'.
Proof.
  unfold vkr_queue_assign_object_id, vkr_cs_decoder_set_fatal,
    vkr_context_add_object.
  destruct (decide (queue_id (queue_at w queue) ≠ 0));
    [by destruct (decide (queue_id (queue_at w queue) ≠ id))|].
  destruct (validate (ctx w) id) as [[|] fatal]; cbn [negb]; wsimpl;
    rewrite ?lookup_total_insert_eq; repeat split; try done.
  intros q' Hq'. by rewrite lookup_total_insert_ne.
Qed.

(** C7. [vkr_queue_assign_object_id]: on a queue whose id is already set
    (not 0), assigning the same id changes nothing at all; assigning a
    different id sets the fatal flag of the decoder and changes nothing
    else, so the id stays; in both cases the stored id is kept. On a
    queue whose id is not set, the id is stored (and the queue entered
    in the object table under it) exactly when the validation of the
    context accepts it; otherwise the queue object is left as it was, id
    0 included. *)
Theorem assign_object_id_spec (queue : addr) (id : vkr_object_id)
    (w : world) :
  let q := queue_at w queue in
  let w' := vkr_queue_assign_object_id validate queue id w in
  (queue_id q ≠ 0 → queue_id q = id → w' = w) ∧
  (queue_id q ≠ 0 → queue_id q ≠ id →
   w' = vkr_cs_decoder_set_fatal w ∧
   decoder_fatal (ctx w') = true ∧
   queue_at w' queue = q) ∧
  (queue_id q ≠ 0 → queue_id (queue_at w' queue) = queue_id q) ∧
  (queue_id q = 0 → (validate (ctx w) id).1 = true →
   queue_at w' queue = with_queue_id id q ∧
   object_table (ctx w') = <[id := queue]> (object_table (ctx w))) ∧
  (queue_id q = 0 → (validate (ctx w) id).1 = false →
   queue_objs w' = queue_objs w ∧
   object_table (ctx w') = object_table (ctx w)).
Proof.
  intros q w'. subst q w'.
  unfold vkr_queue_assign_object_id, vkr_cs_decoder_set_fatal,
    vkr_context_add_object.
  destruct (decide (queue_id (queue_at w queue) ≠ 0)) as [Hset|Hunset].
  - destruct (decide (queue_id (queue_at w queue) ≠ id)) as [Hne|Heq];
      repeat split; intros; try done.
  - apply dec_stable in Hunset.
    destruct (validate (ctx w) id) as [[|] fatal]; cbn [negb]; wsimpl;
      rewrite ?lookup_total_insert_eq; repeat split; intros; try done.
Qed.

(** C6. [vkr_dispatch_vkGetDeviceQueue2] on a query that finds [queue]
    and carries a ring index: index 0 and any index at or beyond the
    size of the ring table set the fatal flag and change nothing else;
    an index whose slot is already taken sets the fatal flag and changes
    nothing else, so the slot still holds the earlier queue and no queue
    object is touched; an index in [1, size) whose slot is empty is
    recorded, the slot then holds [queue] and the ring index of [queue]
    is that index, all other slots being as before. *)
Theorem get_device_queue2_ring_binding (args : vn_command_vkGetDeviceQueue2)
    (w : world) (queue : addr) (ringIdx : N) :
  vkr_device_lookup_queue (gdq2_flags args) (gdq2_queueFamilyIndex args)
                          (gdq2_queueIndex args) w = Some queue →
  gdq2_ringIdx args = Some ringIdx →
  let w' := vkr_dispatch_vkGetDeviceQueue2 validate args w in
  let R := sync_queues_size w in
  (ringIdx = 0 ∨ R ≤ ringIdx →
   w' = vkr_cs_decoder_set_fatal w ∧ decoder_fatal (ctx w') = true ∧
   sync_queues (ctx w') = sync_queues (ctx w) ∧
   queue_objs w' = queue_objs w) ∧
  (∀ other, 0 < ringIdx < R → sync_queue_at w ringIdx = Some other →
   w' = vkr_cs_decoder_set_fatal w ∧ decoder_fatal (ctx w') = true ∧
   sync_queue_at w' ringIdx = Some other ∧
   sync_queues (ctx w') = sync_queues (ctx w) ∧
   queue_objs w' = queue_objs w) ∧
  (0 < ringIdx < R → sync_queue_at w ringIdx = None →
   sync_queues (ctx w') =
     <[N.to_nat ringIdx := Some queue]> (sync_queues (ctx w)) ∧
   sync_queue_at w' ringIdx = Some queue ∧
   queue_ring_idx (queue_at w' queue) = ringIdx ∧
   ∀ q', q' ≠ queue → queue_at w' q' = queue_at w q').
Proof.
  intros Hlookup Hring w' R. subst w' R.
  unfold vkr_dispatch_vkGetDeviceQueue2. rewrite Hlookup, Hring.
  destruct (decide (ringIdx = 0 ∨ sync_queues_size w ≤ ringIdx))
    as [Hbad|Hgood].
  { split; [done|]. split.
    - intros other Hin. lia.
    - intros Hin. lia. }
  split; [intros Hbad; by destruct Hgood|].
  destruct (sync_queue_at w ringIdx) as [other|] eqn:Hslot.
  { split; [|done]. intros other' _ Hother. by simplify_eq. }
  split; [done|]. intros Hin _.
  match goal with |- context [vkr_queue_assign_object_id validate queue ?i ?w0]
    => destruct (assign_object_id_frame queue i w0)
         as (_ & _ & _ & Hsq & _ & Hri & Hfr) end.
  rewrite Hri. unfold sync_queue_at. rewrite Hsq. wsimpl.
  rewrite !lookup_total_insert_eq. simpl.
  unfold sync_queues_size in Hin.
  rewrite list_lookup_insert_eq by lia.
  repeat split; try done.
  intros q' Hq'. rewrite Hfr by done. by rewrite lookup_total_insert_ne.
Qed.

End identity_properties.

(** ** vkQueueWaitIdle *)

(** C10. [vkr_dispatch_vkQueueWaitIdle], whatever the command and the
    state: the fatal flag of the decoder is set, no call is made (the
    trace is unchanged, so nothing reaches the driver and nothing
    blocks), and nothing else changes. *)
Theorem queue_wait_idle_is_fatal (args : vn_command_vkQueueWaitIdle)
    (w : world) :
  let w' := vkr_dispatch_vkQueueWaitIdle args w in
  decoder_fatal (ctx w') = true ∧
  trace w' = trace w ∧
  filter is_vk_call (drop (length (trace w)) (trace w')) = [] ∧
  syncs w' = syncs w ∧ queue_objs w' = queue_objs w ∧ dev w' = dev w ∧
  ctx w' = with_decoder_fatal true (ctx w).
Proof.
  intros w'. subst w'.
  unfold vkr_dispatch_vkQueueWaitIdle, vkr_cs_decoder_set_fatal. simpl.
  repeat split. by rewrite drop_all.
Qed.

(** * Further properties *)

(** X1. [vkr_device_lookup_queue] returns the first queue on the list of
    the device whose flags, family and index are the ones asked for:
    every queue before it on the list has another key. It returns NULL
    exactly when no queue on the list has that key. *)
Theorem lookup_queue_first_match (flags family index : N) (w : world) :
  match vkr_device_lookup_queue flags family index w with
  | Some queue =>
      ∃ before after,
        queues (dev w) = before ++ queue :: after ∧
        queue_key w queue = (flags, family, index) ∧
        ∀ q', q' ∈ before → queue_key w q' ≠ (flags, family, index)
  | None =>
      ∀ q', q' ∈ queues (dev w) → queue_key w q' ≠ (flags, family, index)
  end.
Proof.
  unfold vkr_device_lookup_queue. cbv zeta.
  induction (queues (dev w)) as [|q l IH]; simpl.
  - intros q' Hq'. by apply elem_of_nil in Hq'.
  - destruct ((queue_flags (queue_at w q) =? flags)
              && (queue_family (queue_at w q) =? family)
              && (queue_index (queue_at w q) =? index)) eqn:Hm.
    + exists [], l. split; [done|]. split.
      * apply andb_true_iff in Hm as [Hm Hi].
        apply andb_true_iff in Hm as [Hf Hfa].
        apply N.eqb_eq in Hi, Hf, Hfa. unfold queue_key. congruence.
      * intros q' Hq'. by apply elem_of_nil in Hq'.
    + assert (queue_key w q ≠ (flags, family, index)) as Hne.
      { unfold queue_key. intros Heq. injection Heq as Hf Hfa Hi.
        rewrite Hf, Hfa, Hi, !N.eqb_refl in Hm. done. }
      destruct (find _ l) as [queue|].
      * destruct IH as (before & after & -> & Hk & Hb).
        exists (q :: before), after. split; [done|]. split; [done|].
        intros q' [->|Hq']%elem_of_cons; auto.
      * intros q' [->|Hq']%elem_of_cons; auto.
Qed.

(** The lookup only reads the list of the device and the keys of the
    queues on it. *)
Lemma lookup_queue_ext flags family index w w' :
  queues (dev w') = queues (dev w) →
  (∀ q, q ∈ queues (dev w) → queue_key w' q = queue_key w q) →
  vkr_device_lookup_queue flags family index w' =
  vkr_device_lookup_queue flags family index w.
Proof.
  unfold vkr_device_lookup_queue. intros -> Hk.
  induction (queues (dev w)) as [|q l IH]; [done|]. simpl.
  pose proof (Hk q ltac:(left)) as Hq. unfold queue_key in Hq.
  injection Hq as -> -> ->.
  rewrite IH; [done|]. intros q' Hq'. apply Hk. by right.
Qed.

Lemma lookup_queue_elem flags family index w queue :
  vkr_device_lookup_queue flags family index w = Some queue →
  queue ∈ queues (dev w).
Proof.
  unfold vkr_device_lookup_queue. intros Hl.
  apply find_some in Hl as [Hin _]. by apply list_elem_of_In.
Qed.

Lemma set_fatal_idem w :
  vkr_cs_decoder_set_fatal (vkr_cs_decoder_set_fatal w) =
  vkr_cs_decoder_set_fatal w.
Proof. done. Qed.

Lemma ring_bind_key queue ringIdx w q :
  queue_key (ring_bind queue ringIdx w) q = queue_key w q.
Proof.
  unfold ring_bind, queue_key. wsimpl.
  destruct (decide (q = queue)) as [->|Hne].
  - by rewrite !lookup_total_insert_eq.
  - by rewrite !lookup_total_insert_ne.
Qed.

Lemma ring_bind_slot queue ringIdx w :
  ringIdx < sync_queues_size w →
  sync_queue_at (ring_bind queue ringIdx w) ringIdx = Some queue.
Proof.
  unfold sync_queues_size, sync_queue_at, ring_bind. intros Hin. wsimpl.
  by rewrite list_lookup_insert_eq by lia.
Qed.

Lemma ring_bind_slot_ne queue ringIdx w i :
  i ≠ ringIdx →
  sync_queue_at (ring_bind queue ringIdx w) i = sync_queue_at w i.
Proof.
  unfold sync_queue_at, ring_bind. intros Hne. wsimpl.
  by rewrite list_lookup_insert_ne by lia.
Qed.

Section identity_more.

Variable validate : vkr_context → vkr_object_id → bool * bool.

Lemma assign_object_id_key queue id w q' :
  queue_key (vkr_queue_assign_object_id validate queue id w) q' =
  queue_key w q'.
Proof.
  unfold vkr_queue_assign_object_id, vkr_cs_decoder_set_fatal,
    vkr_context_add_object, queue_key.
  destruct (decide (queue_id (queue_at w queue) ≠ 0));
    [by destruct (decide (queue_id (queue_at w queue) ≠ id))|].
  destruct (validate (ctx w) id) as [[|] fatal]; cbn [negb]; wsimpl;
    [|done].
  destruct (decide (q' = queue)) as [->|Hne].
  - by rewrite !lookup_total_insert_eq.
  - by rewrite !lookup_total_insert_ne.
Qed.

Lemma assign_object_id_lookup flags family index queue id w :
  vkr_device_lookup_queue flags family index
    (vkr_queue_assign_object_id validate queue id w) =
  vkr_device_lookup_queue flags family index w.
Proof.
  apply lookup_queue_ext.
  - destruct (assign_object_id_frame validate queue id w) as (_ & Hd & _).
    by rewrite Hd.
  - intros q _. apply assign_object_id_key.
Qed.

Lemma assign_object_id_slot queue id w i :
  sync_queue_at (vkr_queue_assign_object_id validate queue id w) i =
  sync_queue_at w i.
Proof.
  destruct (assign_object_id_frame validate queue id w)
    as (_ & _ & _ & Hsq & _).
  unfold sync_queue_at. by rewrite Hsq.
Qed.

Lemma assign_object_id_size queue id w :
  sync_queues_size (vkr_queue_assign_object_id validate queue id w) =
  sync_queues_size w.
Proof.
  destruct (assign_object_id_frame validate queue id w)
    as (_ & _ & _ & Hsq & _).
  unfold sync_queues_size. by rewrite Hsq.
Qed.

(** The ways [vkr_dispatch_vkGetDeviceQueue2] ends. *)
Lemma get_device_queue2_cases args w :
  let w' := vkr_dispatch_vkGetDeviceQueue2 validate args w in
  w' = vkr_cs_decoder_set_fatal w ∨
  (∃ queue,
     vkr_device_lookup_queue (gdq2_flags args) (gdq2_queueFamilyIndex args)
                             (gdq2_queueIndex args) w = Some queue ∧
     ((gdq2_ringIdx args = None ∧
       w' = vkr_queue_assign_object_id validate queue (gdq2_pQueue args) w) ∨
      (∃ ringIdx,
         gdq2_ringIdx args = Some ringIdx ∧
         0 < ringIdx < sync_queues_size w ∧
         sync_queue_at w ringIdx = None ∧
         w' = vkr_queue_assign_object_id validate queue (gdq2_pQueue args)
                (ring_bind queue ringIdx w)))).
Proof.
  intros w'. subst w'. unfold vkr_dispatch_vkGetDeviceQueue2.
  destruct (vkr_device_lookup_queue (gdq2_flags args)
              (gdq2_queueFamilyIndex args) (gdq2_queueIndex args) w)
    as [queue|]; [|by left].
  destruct (gdq2_ringIdx args) as [ringIdx|].
  2: { right. exists queue. split; [done|]. by left. }
  destruct (decide (ringIdx = 0 ∨ sync_queues_size w ≤ ringIdx))
    as [Hbad|Hgood]; [by left|].
  destruct (sync_queue_at w ringIdx) as [other|] eqn:Hslot; [by left|].
  right. exists queue. split; [done|]. right. exists ringIdx.
  split; [done|]. split; [lia|]. done.
Qed.

Lemma get_device_queue2_bind_eq args w queue ringIdx :
  vkr_device_lookup_queue (gdq2_flags args) (gdq2_queueFamilyIndex args)
                          (gdq2_queueIndex args) w = Some queue →
  gdq2_ringIdx args = Some ringIdx →
  0 < ringIdx < sync_queues_size w →
  sync_queue_at w ringIdx = None →
  vkr_dispatch_vkGetDeviceQueue2 validate args w =
  vkr_queue_assign_object_id validate queue (gdq2_pQueue args)
    (ring_bind queue ringIdx w).
Proof.
  intros Hl Hr Hin Hfree. unfold vkr_dispatch_vkGetDeviceQueue2.
  rewrite Hl, Hr. rewrite decide_False by lia. by rewrite Hfree.
Qed.

(** Assigning the id a queue was just given changes nothing. *)
Lemma assign_object_id_idem queue id w :
  (queue_id (queue_at w queue) = 0 →
   (validate (ctx w) id).1 = true ∧ id ≠ 0) →
  let w1 := vkr_queue_assign_object_id validate queue id w in
  vkr_queue_assign_object_id validate queue id w1 = w1.
Proof.
  intros Hnew w1.
  pose proof (eq_refl : w1 = vkr_queue_assign_object_id validate queue id w)
    as Hw1.
  clearbody w1. unfold vkr_queue_assign_object_id in Hw1 |- *.
  destruct (decide (queue_id (queue_at w queue) ≠ 0)) as [Hnz|Hz].
  - destruct (decide (queue_id (queue_at w queue) ≠ id)) as [Hne|He];
      subst w1.
    + change (queue_at (vkr_cs_decoder_set_fatal w) queue)
        with (queue_at w queue).
      by rewrite !decide_True by done.
    + rewrite decide_True by done. by rewrite decide_False by done.
  - apply dec_stable in Hz. destruct (Hnew Hz) as [Hok Hid].
    destruct (validate (ctx w) id) as [ok fatal]. simpl in Hok. subst ok.
    cbn [negb] in Hw1.
    assert (queue_id (queue_at w1 queue) = id) as Hq.
    { subst w1. unfold vkr_context_add_object. wsimpl.
      by rewrite lookup_total_insert_eq. }
    rewrite Hq. rewrite decide_True by done.
    rewrite decide_False; [done|]. intros Hne. by apply Hne.
Qed.

(** X2. vkGetDeviceQueue is idempotent: handling the same command a
    second time changes nothing, whether the first time was fatal (no
    such queue, or a queue that has another id), found the id already
    set, or set it. For a queue that has no id yet this holds when the
    validation accepts the id and the id is not 0. *)
Theorem get_device_queue_idempotent (args : vn_command_vkGetDeviceQueue)
    (w : world) :
  (∀ queue,
     vkr_device_lookup_queue 0 (gdq_queueFamilyIndex args)
                             (gdq_queueIndex args) w = Some queue →
     queue_id (queue_at w queue) = 0 →
     (validate (ctx w) (gdq_pQueue args)).1 = true ∧ gdq_pQueue args ≠ 0) →
  let w1 := vkr_dispatch_vkGetDeviceQueue validate args w in
  vkr_dispatch_vkGetDeviceQueue validate args w1 = w1.
Proof.
  intros Hnew w1. subst w1. unfold vkr_dispatch_vkGetDeviceQueue.
  destruct (vkr_device_lookup_queue 0 (gdq_queueFamilyIndex args)
              (gdq_queueIndex args) w) as [queue|] eqn:Hl.
  - rewrite assign_object_id_lookup, Hl.
    apply assign_object_id_idem. intros Hz. by apply (Hnew queue).
  - change (vkr_device_lookup_queue 0 (gdq_queueFamilyIndex args)
              (gdq_queueIndex args) (vkr_cs_decoder_set_fatal w))
      with (vkr_device_lookup_queue 0 (gdq_queueFamilyIndex args)
              (gdq_queueIndex args) w).
    by rewrite Hl.
Qed.

(** X3. A vkGetDeviceQueue2 that has bound a queue to a ring index
    cannot be repeated: handled a second time, the same command finds the
    slot taken, by the queue itself, sets the fatal flag of the decoder
    and changes nothing else. *)
Theorem get_device_queue2_rebind_is_fatal
    (args : vn_command_vkGetDeviceQueue2) (w : world) (queue : addr)
    (ringIdx : N) :
  vkr_device_lookup_queue (gdq2_flags args) (gdq2_queueFamilyIndex args)
                          (gdq2_queueIndex args) w = Some queue →
  gdq2_ringIdx args = Some ringIdx →
  0 < ringIdx < sync_queues_size w →
  sync_queue_at w ringIdx = None →
  let w1 := vkr_dispatch_vkGetDeviceQueue2 validate args w in
  sync_queue_at w1 ringIdx = Some queue ∧
  vkr_dispatch_vkGetDeviceQueue2 validate args w1 =
    vkr_cs_decoder_set_fatal w1.
Proof.
  intros Hl Hr Hin Hfree w1.
  pose proof (get_device_queue2_bind_eq args w queue ringIdx Hl Hr Hin Hfree)
    as Hw1.
  fold w1 in Hw1. clearbody w1.
  assert (sync_queue_at w1 ringIdx = Some queue) as Hslot.
  { rewrite Hw1, assign_object_id_slot. apply ring_bind_slot. lia. }
  split; [done|].
  assert (vkr_device_lookup_queue (gdq2_flags args)
            (gdq2_queueFamilyIndex args) (gdq2_queueIndex args) w1
          = Some queue) as Hl1.
  { rewrite Hw1, assign_object_id_lookup, <- Hl.
    apply lookup_queue_ext; [done|]. intros q _. apply ring_bind_key. }
  assert (sync_queues_size w1 = sync_queues_size w) as Hsize.
  { rewrite Hw1, assign_object_id_size.
    unfold sync_queues_size, ring_bind. wsimpl. by rewrite length_insert. }
  unfold vkr_dispatch_vkGetDeviceQueue2 at 1. rewrite Hl1, Hr.
  rewrite Hsize. rewrite decide_False by lia. by rewrite Hslot.
Qed.

End identity_more.

Lemma queue_static_with_thread t q :
  queue_static (with_thread t q) = queue_static q.
Proof. done. Qed.

Lemma queue_static_with_pending l q :
  queue_static (with_pending_syncs l q) = queue_static q.
Proof. done. Qed.

Lemma ctx_static_with_retired l c :
  ctx_static (with_retired l c) = ctx_static c.
Proof. done. Qed.

Lemma wait_returns_frame r queue w :
  let w' := vkr_queue_thread_wait_returns r queue w in
  ctx_static (ctx w') = ctx_static (ctx w) ∧
  queues (dev w') = queues (dev w) ∧
  (∀ q', q' ≠ queue → queue_at w' q' = queue_at w q') ∧
  queue_static (queue_at w' queue) = queue_static (queue_at w queue).
Proof.
  intros w'.
  destruct (thread (queue_at w queue)) as [|sync|] eqn:Hthread.
  1,3: subst w'; unfold vkr_queue_thread_wait_returns; by rewrite Hthread.
  destruct (wait_result_cases (sync_device_lost (sync_at w sync)) r)
    as [Hl|[Hr|[Hl Hr]]].
  3: { destruct (wait_returns_timeout r queue w sync Hthread Hl Hr)
         as (_ & Hd & Hc & Hq & Hfr & _).
       fold w' in Hd, Hc, Hq, Hfr. by rewrite Hd, Hc, Hq. }
  all: edestruct (wait_returns_retire r queue w sync Hthread)
         as (_ & Hd & Hc & Hq & Hfr & _);
       [ (by left) || (by right) | ];
       fold w' in Hd, Hc, Hq, Hfr; by rewrite Hd, Hc, Hq.
Qed.

Lemma wakeup_frame queue w :
  let w' := vkr_queue_thread_wakeup queue w in
  ctx_static (ctx w') = ctx_static (ctx w) ∧
  queues (dev w') = queues (dev w) ∧
  (∀ q', q' ≠ queue → queue_at w' q' = queue_at w q') ∧
  queue_static (queue_at w' queue) = queue_static (queue_at w queue).
Proof.
  intros w'. destruct (wakeup_effect queue w) as (_ & Hd & Hc & Hq & Hfr & _).
  fold w' in Hd, Hc, Hq, Hfr. rewrite Hd, Hc, Hq.
  by destruct (thread (queue_at w queue)).
Qed.

Lemma submit_frame e queue flags ring_idx fence_id w :
  let w' := (vkr_queue_sync_submit e queue flags ring_idx fence_id w).2 in
  ctx_static (ctx w') = ctx_static (ctx w) ∧
  queues (dev w') = queues (dev w) ∧
  (∀ q', q' ≠ queue → queue_at w' q' = queue_at w q') ∧
  queue_static (queue_at w' queue) = queue_static (queue_at w queue) ∧
  thread (queue_at w' queue) = thread (queue_at w queue).
Proof.
  intros w'. subst w'.
  pose proof (submit_effect e queue flags ring_idx fence_id w) as He.
  pose proof (alloc_effect (submit_alloc e) flags ring_idx fence_id w) as Ha.
  simpl in He, Ha. destruct He as (Hc & Hqs & He).
  destruct Ha as (Hqa & _).
  rewrite Hc, Hqs. split; [done|]. split; [done|].
  destruct (vkr_device_alloc_queue_sync (submit_alloc e) flags ring_idx
              fence_id w) as [[a|] wa]; simpl in *.
  2: { rewrite He. simpl. unfold queue_at. by rewrite Hqa. }
  destruct (decide (submit_result e = VK_ERROR_DEVICE_LOST
                    ∨ submit_result e = VK_SUCCESS)).
  - destruct He as (_ & _ & _ & Hq). unfold queue_at. rewrite Hq.
    rewrite lookup_total_insert_eq. repeat split; try done.
    intros q' Hq'. by rewrite lookup_total_insert_ne.
  - destruct He as (_ & _ & _ & Hq). unfold queue_at. by rewrite Hq.
Qed.

Lemma step_frame queue ev w :
  let w' := step queue ev w in
  ctx_static (ctx w') = ctx_static (ctx w) ∧
  queues (dev w') = queues (dev w) ∧
  (∀ q', q' ≠ queue → queue_at w' q' = queue_at w q') ∧
  queue_static (queue_at w' queue) = queue_static (queue_at w queue).
Proof.
  destruct ev as [e flags ring_idx fence_id| |r]; simpl.
  - destruct (submit_frame e queue flags ring_idx fence_id w)
      as (? & ? & ? & ? & _). done.
  - apply wakeup_frame.
  - apply wait_returns_frame.
Qed.

Lemma run_frame queue evs w :
  let w' := run queue evs w in
  ctx_static (ctx w') = ctx_static (ctx w) ∧
  queues (dev w') = queues (dev w) ∧
  (∀ q', q' ≠ queue → queue_at w' q' = queue_at w q') ∧
  queue_static (queue_at w' queue) = queue_static (queue_at w queue).
Proof.
  revert w. induction evs as [|ev evs IH]; intros w; [done|].
  destruct (step_frame queue ev w) as (Hc & Hd & Hfr & Hq).
  destruct (IH (step queue ev w)) as (Hc' & Hd' & Hfr' & Hq').
  change (run queue (ev :: evs) w) with (run queue evs (step queue ev w)).
  cbv zeta. rewrite Hc', Hd', Hq'. repeat split; try done.
  intros q' Hne. rewrite Hfr' by done. by apply Hfr.
Qed.

(** X4. Submissions to a queue and the steps of its thread, in any
    number and order, leave alone what is not theirs: the fatal flag of
    the decoder, the ring table, the object table, the list of queues of
    the device, every other queue object and, in their own queue, the id,
    the handle, the key, the ring index and the join flag. *)
Theorem run_touches_only_its_queue (queue : addr) (evs : list sched_event)
    (w : world) :
  let w' := run queue evs w in
  decoder_fatal (ctx w') = decoder_fatal (ctx w) ∧
  sync_queues (ctx w') = sync_queues (ctx w) ∧
  object_table (ctx w') = object_table (ctx w) ∧
  queues (dev w') = queues (dev w) ∧
  (∀ q', q' ≠ queue → queue_at w' q' = queue_at w q') ∧
  queue_static (queue_at w' queue) = queue_static (queue_at w queue).
Proof.
  intros w'. destruct (run_frame queue evs w) as (Hc & Hd & Hfr & Hq).
  fold w' in Hc, Hd, Hfr, Hq. unfold ctx_static in Hc.
  injection Hc as _ Hfatal Hsq Hot. done.
Qed.

Lemma retire_all_frame r queue w :
  let w' := vkr_queue_retire_all_syncs r queue w in
  ctx_static (ctx w') = ctx_static (ctx w) ∧
  queues (dev w') = queues (dev w) ∧
  (∀ q', q' ≠ queue → queue_at w' q' = queue_at w q') ∧
  queue_id (queue_at w' queue) = queue_id (queue_at w queue) ∧
  queue_ring_idx (queue_at w' queue) = queue_ring_idx (queue_at w queue).
Proof.
  intros w'. subst w'. unfold vkr_queue_retire_all_syncs.
  set (w1 := vkr_queue_request_join queue w).
  assert (ctx w1 = ctx w ∧ dev w1 = dev w ∧
          (∀ q', q' ≠ queue → queue_at w1 q' = queue_at w q') ∧
          queue_at w1 queue = with_join true (queue_at w queue))
    as (Hc1 & Hd1 & Hfr1 & Hq1).
  { subst w1. unfold vkr_queue_request_join. wsimpl.
    rewrite lookup_total_insert_eq. repeat split; try done.
    intros q' Hq'. by rewrite lookup_total_insert_ne. }
  clearbody w1.
  set (w2 := thrd_join r queue w1).
  assert (ctx_static (ctx w2) = ctx_static (ctx w1) ∧
          queues (dev w2) = queues (dev w1) ∧
          (∀ q', q' ≠ queue → queue_at w2 q' = queue_at w1 q') ∧
          queue_static (queue_at w2 queue) = queue_static (queue_at w1 queue))
    as (Hc2 & Hd2 & Hfr2 & Hq2).
  { subst w2. unfold thrd_join.
    destruct (thread (queue_at w1 queue)).
    - rewrite ctx_emit, dev_emit. setoid_rewrite queue_at_emit.
      apply wakeup_frame.
    - rewrite ctx_emit, dev_emit. setoid_rewrite queue_at_emit.
      apply wait_returns_frame.
    - done. }
  clearbody w2.
  pose proof (retire_loop_effect (pending_syncs (queue_at w2 queue)) w2)
    as H3.
  cbv zeta in H3.
  set (w3 := foldl (λ w sync, vkr_queue_sync_retire sync w) w2
                   (pending_syncs (queue_at w2 queue))) in *.
  clearbody w3. destruct H3 as (_ & Hq3 & Hd3 & Hc3 & _).
  assert (∀ q', queue_at w3 q' = queue_at w2 q') as Hq3'.
  { intros q'. unfold queue_at. by rewrite Hq3. }
  rewrite Hc3, Hd3, !Hq3'.
  rewrite ctx_static_with_retired, Hc2, Hc1. split; [done|].
  split. { cbn [queues with_free_syncs]. by rewrite Hd2, Hd1. }
  split. { intros q' Hne. rewrite Hq3', Hfr2 by done. by apply Hfr1. }
  rewrite Hq1 in Hq2. unfold queue_static in Hq2.
  cbn [queue_id queue_ring_idx with_join] in Hq2.
  by injection Hq2 as -> _ _ _ _ -> _.
Qed.

(** What [vkr_queue_destroy] does to the ring table and to the queue
    object. *)
Lemma destroy_ring_table r queue w :
  let q := queue_at w queue in
  let w' := vkr_queue_destroy r queue w in
  sync_queues (ctx w') =
    (if decide (0 < queue_ring_idx q)
     then <[N.to_nat (queue_ring_idx q) := None]> (sync_queues (ctx w))
     else sync_queues (ctx w)) ∧
  decoder_fatal (ctx w') = decoder_fatal (ctx w) ∧
  queue_objs w' !! queue = None ∧
  ∀ q', q' ≠ queue → queue_at w' q' = queue_at w q'.
Proof.
  intros q w'. subst q w'. unfold vkr_queue_destroy.
  destruct (retire_all_frame r queue w) as (Hc & _ & Hfr & Hid & Hri).
  set (w1 := vkr_queue_retire_all_syncs r queue w) in *. clearbody w1.
  unfold ctx_static in Hc. injection Hc as _ Hfatal Hsq _.
  change (queue_at (with_dev _ _) queue) with (queue_at w1 queue).
  rewrite Hid, Hri.
  unfold vkr_context_remove_object.
  destruct (decide (0 < queue_ring_idx (queue_at w queue)));
    destruct (decide (queue_id (queue_at w queue) ≠ 0));
    wsimpl; rewrite ?Hsq, ?Hfatal, ?lookup_delete_eq;
    (repeat split; try done);
    intros q' Hne; rewrite lookup_total_delete_ne by done; by apply Hfr.
Qed.

Lemma ring_table_extends_refl w : ring_table_extends w w.
Proof. unfold ring_table_extends. repeat split; auto. Qed.

Lemma ring_table_extends_trans w1 w2 w3 :
  ring_table_extends w1 w2 → ring_table_extends w2 w3 →
  ring_table_extends w1 w3.
Proof.
  intros (Hl & H0 & Hk & Hn & Hs & Hd & Ht & Hr)
         (Hl' & H0' & Hk' & Hn' & Hs' & Hd' & Ht' & Hr').
  unfold ring_table_extends.
  rewrite Hl', H0', Hs', Hd', Ht', Hr'. repeat split; auto.
  intros i q Hq. destruct (Hn' i q Hq) as [Hold|Hin]; [by apply Hn|].
  right. by rewrite <- Hd.
Qed.

Lemma ring_table_extends_fatal w :
  ring_table_extends w (vkr_cs_decoder_set_fatal w).
Proof. unfold ring_table_extends. repeat split; auto. Qed.

Section queue_commands_properties.

Variable validate : vkr_context → vkr_object_id → bool * bool.

Lemma ring_table_extends_assign queue id w :
  ring_table_extends w (vkr_queue_assign_object_id validate queue id w).
Proof.
  destruct (assign_object_id_frame validate queue id w)
    as (Hs & Hd & Ht & Hsq & Hr & _).
  unfold ring_table_extends, sync_queue_at.
  rewrite Hs, Hd, Ht, Hsq, Hr. repeat split; auto.
Qed.

Lemma ring_table_extends_bind queue ringIdx w :
  queue ∈ queues (dev w) → 0 < ringIdx →
  sync_queue_at w ringIdx = None →
  ring_table_extends w (ring_bind queue ringIdx w).
Proof.
  intros Hin Hpos Hfree. unfold ring_table_extends.
  split. { unfold ring_bind. wsimpl. by rewrite length_insert. }
  split. { apply ring_bind_slot_ne. lia. }
  split. { intros i q Hq. rewrite ring_bind_slot_ne; [done|].
           intros ->. congruence. }
  split; [|done].
  intros i q Hq. destruct (decide (i = ringIdx)) as [->|Hne].
  - right. unfold sync_queue_at, ring_bind in Hq. wsimpl.
    destruct (decide (N.to_nat ringIdx < length (sync_queues (ctx w)))%nat).
    + rewrite list_lookup_insert_eq in Hq by done. simpl in Hq. congruence.
    + rewrite list_insert_ge in Hq by lia.
      fold (sync_queue_at w ringIdx) in Hq. congruence.
  - left. by rewrite ring_bind_slot_ne in Hq.
Qed.

Lemma dispatch_ring_table cmd w :
  ring_table_extends w (dispatch_queue_command validate cmd w).
Proof.
  destruct cmd as [args|args|args]; simpl.
  - unfold vkr_dispatch_vkGetDeviceQueue.
    destruct (vkr_device_lookup_queue _ _ _ _);
      [apply ring_table_extends_assign|apply ring_table_extends_fatal].
  - destruct (get_device_queue2_cases validate args w)
      as [->|(queue & Hl & [[_ ->]|(i & _ & Hin & Hfree & ->)])].
    + apply ring_table_extends_fatal.
    + apply ring_table_extends_assign.
    + eapply ring_table_extends_trans; [|apply ring_table_extends_assign].
      apply ring_table_extends_bind; [|lia|done].
      by eapply lookup_queue_elem.
  - apply ring_table_extends_fatal.
Qed.

Lemma dispatch_commands_ring_table cmds w :
  ring_table_extends w (dispatch_queue_commands validate cmds w).
Proof.
  revert w. induction cmds as [|cmd cmds IH]; intros w.
  - apply ring_table_extends_refl.
  - eapply ring_table_extends_trans; [apply dispatch_ring_table|].
    apply IH.
Qed.

(** X5. Whatever vkGetDeviceQueue, vkGetDeviceQueue2 and vkQueueWaitIdle
    commands are handled, and in whatever order: the ring table keeps its
    size, slot 0 is never written, a slot that is bound keeps its queue,
    every new binding names a queue that is on the list of the device,
    and the sync objects, the device, the log of the callback and the
    trace of external calls are as before. *)
Theorem ring_bindings_are_stable (cmds : list queue_command) (w : world) :
  let w' := dispatch_queue_commands validate cmds w in
  sync_queues_size w' = sync_queues_size w ∧
  sync_queue_at w' 0 = sync_queue_at w 0 ∧
  (∀ i q, sync_queue_at w i = Some q → sync_queue_at w' i = Some q) ∧
  (∀ i q, sync_queue_at w' i = Some q →
          sync_queue_at w i = Some q ∨ q ∈ queues (dev w)) ∧
  syncs w' = syncs w ∧ dev w' = dev w ∧ trace w' = trace w ∧
  retired (ctx w') = retired (ctx w).
Proof.
  intros w'. destruct (dispatch_commands_ring_table cmds w)
    as (Hl & H0 & Hrest).
  fold w' in Hl, H0, Hrest. unfold sync_queues_size. by rewrite Hl.
Qed.

Lemma assign_object_id_fatal queue id w :
  (∀ c i, decoder_fatal c = true → (validate c i).2 = true) →
  decoder_fatal (ctx w) = true →
  decoder_fatal (ctx (vkr_queue_assign_object_id validate queue id w)) = true.
Proof.
  intros Hv Hf. unfold vkr_queue_assign_object_id, vkr_cs_decoder_set_fatal,
    vkr_context_add_object.
  destruct (decide (queue_id (queue_at w queue) ≠ 0));
    [by destruct (decide (queue_id (queue_at w queue) ≠ id))|].
  pose proof (Hv (ctx w) id Hf) as Hv'.
  destruct (validate (ctx w) id) as [[|] fatal]; simpl in Hv'; subst fatal;
    cbn [negb]; by wsimpl.
Qed.

Lemma dispatch_fatal cmd w :
  (∀ c i, decoder_fatal c = true → (validate c i).2 = true) →
  decoder_fatal (ctx w) = true ∨ (∃ args, cmd = cmd_vkQueueWaitIdle args) →
  decoder_fatal (ctx (dispatch_queue_command validate cmd w)) = true.
Proof.
  intros Hv [Hf|[a ->]]; [|done].
  destruct cmd as [args|args|args]; simpl; [| |done].
  - unfold vkr_dispatch_vkGetDeviceQueue.
    destruct (vkr_device_lookup_queue _ _ _ _); [|done].
    by apply assign_object_id_fatal.
  - destruct (get_device_queue2_cases validate args w)
      as [->|(queue & Hl & [[_ ->]|(i & _ & Hin & Hfree & ->)])];
      [done| |]; by apply assign_object_id_fatal.
Qed.

(** X6. Provided the validation of ids never clears the fatal flag of
    the decoder, no command handler does: a stream of commands that
    starts with the flag set, or that holds a vkQueueWaitIdle, ends with
    the flag set. *)
Theorem decoder_fatal_is_sticky (cmds : list queue_command) (w : world) :
  (∀ c i, decoder_fatal c = true → (validate c i).2 = true) →
  decoder_fatal (ctx w) = true ∨ (∃ args, cmd_vkQueueWaitIdle args ∈ cmds) →
  decoder_fatal (ctx (dispatch_queue_commands validate cmds w)) = true.
Proof.
  intros Hv. revert w. induction cmds as [|cmd cmds IH]; intros w Hf.
  - destruct Hf as [Hf|[a Ha]]; [done|]. by apply elem_of_nil in Ha.
  - simpl. apply IH. destruct Hf as [Hf|[a Ha]].
    + left. apply dispatch_fatal; auto.
    + apply elem_of_cons in Ha as [<-|Ha].
      * left. apply dispatch_fatal; eauto.
      * right. eauto.
Qed.

End queue_commands_properties.




(** X7. [vkr_queue_create] never touches the sync objects, the device or
    the context. When the allocation, both primitives and the thread
    succeed, it returns a queue at an address that was not allocated,
    with the handle, flags, family and index given, id 0, ring index 0,
    an empty registry, no join requested and its thread started. When
    one of them fails it returns NULL, the store of queues is as before,
    and what had been set up is undone: the mutex is destroyed if it was
    initialised, the condition variable if it was too, and the queue is
    freed. *)
Theorem queue_create_spec (e : create_env) (flags family index : N)
    (handle : VkQueue) (w : world) :
  let r := vkr_queue_create e flags family index handle w in
  let queue := fresh (dom (queue_objs w)) in
  syncs r.2 = syncs w ∧ dev r.2 = dev w ∧ ctx r.2 = ctx w ∧
  (queue ∉ dom (queue_objs w)) ∧
  (if object_alloc_ok e && mtx_init_ok e && cnd_init_ok e && thrd_create_ok e
   then
     r.1 = Some queue ∧
     queue_objs r.2 =
       <[queue := mk_queue 0 handle flags family index 0 [] false T_cnd_wait]>
         (queue_objs w) ∧
     trace r.2 = trace w
   else
     r.1 = None ∧ queue_objs r.2 = queue_objs w ∧
     trace r.2 = trace w ++ create_cleanup e queue).
Proof.
  intros r queue. subst r.
  pose proof (is_fresh (dom (queue_objs w))) as Hfresh. fold queue in Hfresh.
  assert (queue_objs w !! queue = None) as Hnone by by apply not_elem_of_dom.
  unfold vkr_queue_create, vkr_object_alloc, create_cleanup. fold queue.
  destruct (object_alloc_ok e); cbn [negb andb];
    [|by rewrite app_nil_r].
  destruct (mtx_init_ok e); cbn [negb andb].
  2: { wsimpl. rewrite !delete_insert_eq, delete_id by done. done. }
  destruct (cnd_init_ok e); cbn [negb andb].
  2: { wsimpl. rewrite !delete_insert_eq, delete_id by done. done. }
  destruct (thrd_create_ok e); cbn [negb andb].
  2: { wsimpl. rewrite !delete_insert_eq, delete_id by done. done. }
  wsimpl. rewrite lookup_total_insert_eq, !insert_insert_eq. done.
Qed.




Lemma sync_queue_at_insert w' w k v i :
  sync_queues (ctx w') = <[N.to_nat k := v]> (sync_queues (ctx w)) →
  sync_queue_at w' i =
    if decide (i = k ∧ k < sync_queues_size w) then v else sync_queue_at w i.
Proof.
  intros Hsq. unfold sync_queue_at, sync_queues_size. rewrite Hsq.
  destruct (decide (i = k ∧ k < N.of_nat (length (sync_queues (ctx w)))))
    as [[-> Hlt]|Hn].
  - by rewrite list_lookup_insert_eq by lia.
  - destruct (decide (i = k)) as [->|Hne].
    + by rewrite list_insert_ge by lia.
    + by rewrite list_lookup_insert_ne by lia.
Qed.

(** X9. When the ring table names a queue in the slot of its ring index
    and in no other slot (in none when the index is 0),
    [vkr_queue_destroy] leaves no slot that names it: that slot is
    cleared, every other slot is as before, the table keeps its size,
    and the queue object is deallocated. *)
Theorem destroy_unbinds_queue (r : VkResult) (queue : addr) (w : world) :
  (∀ i, sync_queue_at w i = Some queue ↔
        0 < i ∧ i = queue_ring_idx (queue_at w queue)) →
  let w' := vkr_queue_destroy r queue w in
  sync_queues_size w' = sync_queues_size w ∧
  (∀ i, sync_queue_at w' i =
        if decide (sync_queue_at w i = Some queue) then None
        else sync_queue_at w i) ∧
  queue_objs w' !! queue = None.
Proof.
  intros Hbound w'.
  destruct (destroy_ring_table r queue w) as (Hsq & _ & Hgone & _).
  fold w' in Hsq, Hgone.
  split; [|split; [|done]].
  - unfold sync_queues_size. rewrite Hsq.
    destruct (decide _); by rewrite ?length_insert.
  - intros i. destruct (decide (0 < queue_ring_idx (queue_at w queue)))
      as [Hpos|Hzero].
    + rewrite (sync_queue_at_insert _ _ _ _ i Hsq).
      pose proof (proj2 (Hbound (queue_ring_idx (queue_at w queue)))
                    (conj Hpos eq_refl)) as Hslot.
      destruct (decide (i = _ ∧ _)) as [[-> Hlt]|Hn].
      * by rewrite decide_True.
      * rewrite decide_False; [done|]. intros Hi.
        apply Hbound in Hi as [_ ->]. apply Hn. split; [done|].
        unfold sync_queue_at, sync_queues_size in *.
        destruct (sync_queues (ctx w) !! N.to_nat _) eqn:Hlk; [|done].
        apply lookup_lt_Some in Hlk. lia.
    + unfold sync_queue_at at 1. rewrite Hsq.
      rewrite decide_False; [done|]. intros Hi.
      apply Hbound in Hi as [Hpos ->]. done.
Qed.

Section stale.

Variable validate : vkr_context → vkr_object_id → bool * bool.

(** X10. A queue that slot [i] of the ring table names can be bound again,
    to a free ring [j], by another vkGetDeviceQueue2, which is not fatal
    when it carries the id the queue has. The queue then holds both
    slots and its ring index is [j], and [vkr_queue_destroy] clears slot
    [j] only: slot [i] still names the queue, which is no longer
    allocated. *)
Theorem rebound_queue_leaves_stale_slot
    (args : vn_command_vkGetDeviceQueue2) (r : VkResult) (w : world)
    (queue : addr) (i j : N) :
  vkr_device_lookup_queue (gdq2_flags args) (gdq2_queueFamilyIndex args)
                          (gdq2_queueIndex args) w = Some queue →
  gdq2_ringIdx args = Some j →
  0 < j < sync_queues_size w →
  sync_queue_at w j = None →
  sync_queue_at w i = Some queue →
  let w1 := vkr_dispatch_vkGetDeviceQueue2 validate args w in
  let w2 := vkr_queue_destroy r queue w1 in
  queue_ring_idx (queue_at w1 queue) = j ∧
  sync_queue_at w1 i = Some queue ∧ sync_queue_at w1 j = Some queue ∧
  (queue_id (queue_at w queue) ≠ 0 →
   queue_id (queue_at w queue) = gdq2_pQueue args →
   decoder_fatal (ctx w1) = decoder_fatal (ctx w)) ∧
  sync_queue_at w2 j = None ∧
  sync_queue_at w2 i = Some queue ∧
  queue_objs w2 !! queue = None.
Proof.
  intros Hl Hr Hin Hfree Hold w1 w2.
  assert (i ≠ j) as Hij by (intros ->; congruence).
  pose proof (get_device_queue2_bind_eq validate args w queue j Hl Hr Hin
                Hfree) as Hw1.
  fold w1 in Hw1.
  destruct (assign_object_id_frame validate queue (gdq2_pQueue args)
              (ring_bind queue j w)) as (_ & _ & _ & Hsq & _ & Hri & _).
  rewrite <- Hw1 in Hsq, Hri.
  assert (queue_at (ring_bind queue j w) queue =
          with_queue_ring_idx j (queue_at w queue)) as Hqb.
  { unfold ring_bind. wsimpl. by rewrite lookup_total_insert_eq. }
  assert (queue_ring_idx (queue_at w1 queue) = j) as Hring.
  { by rewrite Hri, Hqb. }
  assert (sync_queue_at w1 i = Some queue) as Hi1.
  { unfold sync_queue_at. rewrite Hsq. fold (sync_queue_at (ring_bind queue j w) i).
    by rewrite ring_bind_slot_ne. }
  assert (sync_queue_at w1 j = Some queue) as Hj1.
  { unfold sync_queue_at. rewrite Hsq. fold (sync_queue_at (ring_bind queue j w) j).
    apply ring_bind_slot. lia. }
  assert (sync_queues_size w1 = sync_queues_size w) as Hsize.
  { unfold sync_queues_size. rewrite Hsq. unfold ring_bind. wsimpl.
    by rewrite length_insert. }
  split; [done|]. split; [done|]. split; [done|]. split.
  { intros Hnz Hid. rewrite Hw1. unfold vkr_queue_assign_object_id.
    rewrite Hqb. cbn [queue_id with_queue_ring_idx].
    rewrite decide_True by done. by rewrite decide_False by (by intros ?). }
  destruct (destroy_ring_table r queue w1) as (Hsq2 & _ & Hgone & _).
  fold w2 in Hsq2, Hgone. rewrite Hring in Hsq2.
  rewrite decide_True in Hsq2 by lia.
  rewrite !(sync_queue_at_insert _ _ _ _ _ Hsq2), Hsize.
  rewrite decide_True by (split; [done|lia]).
  by rewrite decide_False by (intros [? _]; done).
Qed.

End stale.

(** X11. From a state that keeps the ownership discipline every schedule
    leads to a state that keeps it: no sync object is on the free list
    and in the registry at once, or twice on either, each is allocated,
    and the thread waits on the first object of the registry. After
    [vkr_queue_destroy] the free list is the one of before followed by
    the registry; it holds no object twice and only allocated objects. *)
Theorem pool_ownership_invariant (queue : addr) (evs : list sched_event)
    (r : VkResult) (w : world) :
  queue_inv queue w →
  let w1 := run queue evs w in
  let w2 := vkr_queue_destroy r queue w1 in
  queue_inv queue w1 ∧
  free_syncs (dev w2) =
    free_syncs (dev w1) ++ pending_syncs (queue_at w1 queue) ∧
  NoDup (free_syncs (dev w2)) ∧
  (∀ a, a ∈ free_syncs (dev w2) → a ∈ dom (syncs w2)).
Proof.
  intros Hinv w1 w2.
  destruct (run_inv queue evs w Hinv) as (Hinv1 & _). fold w1 in Hinv1.
  destruct (destroy_effect r queue w1 (inv_thread _ _ Hinv1))
    as (Hs & _ & _ & Hd & _).
  fold w2 in Hs, Hd. rewrite Hd, Hs. cbn [free_syncs with_queues with_free_syncs].
  split; [done|]. split; [done|]. split.
  - apply (inv_nodup _ _ Hinv1).
  - apply (inv_alloc _ _ Hinv1).
Qed.

Lemma step_conserved queue ev w :
  queue_inv queue w →
  let w' := step queue ev w in
  (created_fences (trace w') + live_syncs queue w =
   created_fences (trace w) + live_syncs queue w')%nat ∧
  (live_syncs queue w ≤ live_syncs queue w')%nat.
Proof.
  intros Hinv. unfold live_syncs.
  destruct ev as [e flags ring_idx fence_id| |r]; simpl.
  - pose proof (submit_effect e queue flags ring_idx fence_id w) as He.
    pose proof (alloc_effect (submit_alloc e) flags ring_idx fence_id w) as Ha.
    pose proof (alloc_created (submit_alloc e) flags ring_idx fence_id w) as Hca.
    pose proof (submit_created e queue flags ring_idx fence_id w) as Hcs.
    simpl in He, Ha, Hca, Hcs. rewrite Hcs, Hca. clear Hcs Hca.
    destruct He as (_ & _ & He). destruct Ha as (Hqa & _ & _ & Ha).
    set (s := vkr_queue_sync_submit e queue flags ring_idx fence_id w) in *.
    destruct (vkr_device_alloc_queue_sync (submit_alloc e) flags ring_idx
                fence_id w) as [[a|] wa]; simpl in *.
    2: { rewrite He. simpl. destruct Ha as [_ Hf]. rewrite Hf.
         unfold queue_at. rewrite Hqa.
         destruct (free_syncs (dev w)); simpl; lia. }
    destruct Ha as [_ Hfree].
    assert ((length (free_syncs (dev w)) +
             match free_syncs (dev w) with [] => 1 | _ => 0 end =
             length (free_syncs (dev wa)) + 1)%nat) as Hone.
    { destruct Hfree as [Hfree|(Hfree & Hfa & _)]; rewrite Hfree.
      - simpl. lia.
      - rewrite Hfa. done. }
    destruct (decide (submit_result e = VK_ERROR_DEVICE_LOST
                      ∨ submit_result e = VK_SUCCESS)).
    + destruct He as (_ & _ & Hf & Hq).
      unfold queue_at at 2 4. rewrite Hq, lookup_total_insert_eq.
      cbn [pending_syncs with_pending_syncs].
      rewrite Hf, length_app. simpl. lia.
    + destruct He as (_ & _ & Hf & Hq).
      unfold queue_at at 2 4. rewrite Hq. fold (queue_at w queue).
      rewrite Hf, length_app. simpl. lia.
  - destruct (wakeup_effect queue w)
      as (_ & Hd & _ & Hq & _ & evs & Ht & Hprims).
    rewrite Hd, Ht, created_fences_app, (created_fences_prims evs Hprims).
    assert (pending_syncs (queue_at (vkr_queue_thread_wakeup queue w) queue)
            = pending_syncs (queue_at w queue)) as ->.
    { rewrite Hq. by destruct (thread (queue_at w queue)). }
    lia.
  - destruct (thread (queue_at w queue)) as [|sync|] eqn:Hthread.
    1,3: unfold vkr_queue_thread_wait_returns; rewrite Hthread; lia.
    destruct (queue_inv_head _ _ _ Hinv Hthread) as [rest Hpend].
    destruct (wait_result_cases (sync_device_lost (sync_at w sync)) r)
      as [Hl|[Hr|[Hl Hr]]].
    3: { destruct (wait_returns_timeout r queue w sync Hthread Hl Hr)
           as (_ & Hd & _ & Hq & _ & ev & Hev & Ht).
         rewrite Hd, Hq, Ht, created_fences_app.
         cbn [pending_syncs with_thread].
         unfold created_fences at 2. rewrite !filter_cons.
         destruct ev; try done; simpl; lia. }
    all: edestruct (wait_returns_retire r queue w sync Hthread)
           as (_ & Hd & _ & Hq & _ & ev & Hev & Ht);
         [ (by left) || (by right) | ];
         rewrite Hd, Hq, Ht, !created_fences_app;
         cbn [pending_syncs with_thread with_pending_syncs free_syncs
              with_free_syncs];
         rewrite Hpend, list_del_head, length_app;
         assert (created_fences
                   (thread_wait_call w r (T_fence_wait sync)) = 0%nat) as ->
           by (unfold thread_wait_call;
               by destruct (sync_device_lost (sync_at w sync)));
         unfold created_fences at 2; rewrite !filter_cons;
         destruct ev; try done; simpl; lia.
Qed.

(** X12. Along every schedule, concurrent submissions included, the
    number of fences created is the number of objects that the free list
    and the registry have gained together, and they never lose one:
    every fence created belongs to an object that is pooled or in
    flight. *)
Theorem fences_are_conserved (queue : addr) (evs : list sched_event)
    (w : world) :
  queue_inv queue w →
  let w1 := run queue evs w in
  (created_fences (trace w1) + live_syncs queue w =
   created_fences (trace w) + live_syncs queue w1)%nat ∧
  (live_syncs queue w ≤ live_syncs queue w1)%nat.
Proof.
  revert w. induction evs as [|ev evs IH]; intros w Hinv; [simpl; lia|].
  destruct (step_conserved queue ev w Hinv) as [Hc1 Hl1].
  destruct (step_inv queue ev w Hinv) as (Hinv1 & _).
  destruct (IH _ Hinv1) as [Hc2 Hl2].
  change (run queue (ev :: evs) w) with (run queue evs (step queue ev w)).
  cbv zeta. lia.
Qed.

Lemma thread_next_with_thread t q :
  thread_next (with_thread t q) = thread_next q.
Proof. done. Qed.


Lemma accepted_no_submit queue rs w :
  accepted queue (Ev_wait_returns <$> rs) w = [].
Proof. revert w. induction rs as [|r rs IH]; intros w; [done|]. apply IH. Qed.

(** The thread, awake and with no join requested, retires the whole
    registry when none of its waits times out. *)
Lemma drain_waits queue rs w :
  queue_inv queue w →
  join (queue_at w queue) = false →
  thread (queue_at w queue) = thread_next (queue_at w queue) →
  length rs = length (pending_syncs (queue_at w queue)) →
  Forall (λ r, r ≠ VK_TIMEOUT) rs →
  let w' := run queue (Ev_wait_returns <$> rs) w in
  pending_syncs (queue_at w' queue) = [] ∧
  thread (queue_at w' queue) = T_cnd_wait ∧
  free_syncs (dev w') =
    free_syncs (dev w) ++ pending_syncs (queue_at w queue).
Proof.
  revert w. induction rs as [|r rs IH]; intros w Hinv Hj Ht Hlen Hrs.
  - simpl in *. destruct (pending_syncs (queue_at w queue)) eqn:Hp; [|done].
    rewrite app_nil_r. repeat split; try done.
    rewrite Ht. unfold thread_next. by rewrite Hp, Hj.
  - destruct (pending_syncs (queue_at w queue)) as [|a rest] eqn:Hp; [done|].
    apply Forall_cons in Hrs as [Hr Hrs].
    assert (thread (queue_at w queue) = T_fence_wait a) as Hthread.
    { rewrite Ht. unfold thread_next. by rewrite Hp, Hj. }
    destruct (wait_returns_retire r queue w a Hthread (or_intror Hr))
      as (_ & Hd & _ & Hq & _).
    destruct (wait_returns_inv r queue w Hinv) as (Hinv1 & _).
    rewrite Hp, list_del_head in Hq.
    rewrite fmap_cons.
    change (run queue (Ev_wait_returns r :: (Ev_wait_returns <$> rs)) w)
      with (run queue (Ev_wait_returns <$> rs)
                (vkr_queue_thread_wait_returns r queue w)).
    set (w1 := vkr_queue_thread_wait_returns r queue w) in *. clearbody w1.
    destruct (IH w1) as (Hp' & Ht' & Hf'); try done.
    + by rewrite Hq.
    + by rewrite Hq.
    + rewrite Hq. simpl in Hlen. cbn [pending_syncs with_thread
        with_pending_syncs]. lia.
    + cbv zeta. rewrite Hp', Ht', Hf', Hd, Hq.
      cbn [free_syncs with_free_syncs pending_syncs with_thread
           with_pending_syncs].
      by rewrite <- app_assoc.
Qed.

(** X13. Progress of the thread. When no join is requested and the
    thread has not returned, one wake-up followed by as many ends of
    waits as the registry has objects, none of them a timeout, empties
    the registry: every object has been reported to the callback, in
    order, every object is back on the free list, and the thread sleeps
    in [cnd_wait]. *)
Theorem thread_drains_registry (queue : addr) (rs : list VkResult)
    (w : world) :
  queue_inv queue w →
  join (queue_at w queue) = false →
  thread (queue_at w queue) ≠ T_exited →
  length rs = length (pending_syncs (queue_at w queue)) →
  Forall (λ r, r ≠ VK_TIMEOUT) rs →
  let w' := run queue (Ev_wakeup :: (Ev_wait_returns <$> rs)) w in
  pending_syncs (queue_at w' queue) = [] ∧
  thread (queue_at w' queue) = T_cnd_wait ∧
  retired (ctx w') = retired (ctx w) ++ in_flight w queue ∧
  free_syncs (dev w') =
    free_syncs (dev w) ++ pending_syncs (queue_at w queue).
Proof.
  intros Hinv Hj Hlive Hlen Hrs w'.
  pose proof (run_fifo queue (Ev_wakeup :: (Ev_wait_returns <$> rs)) w Hinv)
    as Hfifo.
  fold w' in Hfifo. simpl in Hfifo.
  rewrite accepted_no_submit, app_nil_r in Hfifo.
  destruct (wakeup_effect queue w) as (_ & Hd & _ & Hq & _).
  destruct (wakeup_inv queue w Hinv) as (Hinv0 & _).
  subst w'.
  change (run queue (Ev_wakeup :: (Ev_wait_returns <$> rs)) w)
    with (run queue (Ev_wait_returns <$> rs)
              (vkr_queue_thread_wakeup queue w)) in *.
  set (w0 := vkr_queue_thread_wakeup queue w) in *. clearbody w0.
  assert (pending_syncs (queue_at w0 queue) =
            pending_syncs (queue_at w queue) ∧
          join (queue_at w0 queue) = false ∧
          thread (queue_at w0 queue) = thread_next (queue_at w0 queue))
    as (Hp0 & Hj0 & Ht0).
  { rewrite Hq. destruct (thread (queue_at w queue)) as [|a|] eqn:Ht;
      [done| |done].
    repeat split; try done.
    destruct (queue_inv_head _ _ _ Hinv Ht) as [rest Hp].
    unfold thread_next. by rewrite Hp, Hj. }
  destruct (drain_waits queue rs w0) as (Hp' & Ht' & Hf'); try done.
  { by rewrite Hp0. }
  unfold in_flight at 1 in Hfifo. rewrite Hp' in Hfifo. simpl in Hfifo.
  rewrite app_nil_r in Hfifo.
  by rewrite Hp', Ht', Hf', Hfifo, Hd, Hp0.
Qed.




Lemma locks_after_lock m tr : locks_after [] (mtx_lock m :: tr) = locks_after [m] tr.
Proof. done. Qed.

Lemma locks_after_lock_pool q tr :
  locks_after [queue_mutex q] (mtx_lock free_sync_mutex :: tr) =
  locks_after [free_sync_mutex; queue_mutex q] tr.
Proof. done. Qed.

Lemma locks_after_unlock m held tr :
  locks_after (m :: held) (mtx_unlock m :: tr) = locks_after held tr.
Proof. simpl. by rewrite bool_decide_eq_true_2. Qed.

Lemma locks_after_cnd_wait q tr :
  locks_after [queue_mutex q] (cnd_wait q :: tr) = locks_after [] tr.
Proof. simpl. by rewrite bool_decide_eq_true_2. Qed.

(** Rewrites a trace that keeps the rules down to the mutexes held at
    its end. *)
Lemma not_held_nil (m : mutex) : bool_decide (m ∈ @nil mutex) = false.
Proof. done. Qed.

Lemma pool_not_held q :
  bool_decide (free_sync_mutex ∈ [queue_mutex q]) = false.
Proof. done. Qed.

(** Evaluates [locks_after] on a trace that keeps the rules. *)
Ltac locks :=
  cbn [locks_after app mbind option_bind];
  rewrite ?not_held_nil, ?pool_not_held;
  repeat (rewrite bool_decide_eq_true_2 by done);
  cbn [orb].


Lemma locks_free_sync sync w :
  ∃ frag,
    trace (vkr_device_free_queue_sync sync w) = trace w ++ frag ∧
    locks_after [] frag = Some [] ∧
    ∀ q, locks_after [queue_mutex q] frag = Some [queue_mutex q].
Proof.
  rewrite free_queue_sync_eq. cbn [trace].
  eexists; split; [reflexivity|]. split; [|intros q]; by locks.
Qed.

Lemma locks_retire sync w :
  ∃ frag,
    trace (vkr_queue_sync_retire sync w) = trace w ++ frag ∧
    locks_after [] frag = Some [] ∧
    ∀ q, locks_after [queue_mutex q] frag = Some [queue_mutex q].
Proof.
  rewrite sync_retire_eq. cbn [trace].
  eexists; split; [reflexivity|]. split; [|intros q]; by locks.
Qed.









Section driver_commands_properties.

Variable R : vn_replace_args_handle.

Lemma set_fatal_if (b c : bool) w :
  (if c then vkr_cs_decoder_set_fatal
               (if b then vkr_cs_decoder_set_fatal w else w)
   else (if b then vkr_cs_decoder_set_fatal w else w)) =
  (if b || c then vkr_cs_decoder_set_fatal w else w).
Proof. by destruct b, c. Qed.

Lemma dispatch_driver_command_effect cmd w :
  assertion_holds R cmd →
  ∃ calls,
    dispatch_driver_command R cmd w =
      Some (if poisons cmd then vkr_cs_decoder_set_fatal w else w, calls) ∧
    closed_fds calls = exported_fd cmd ∧
    length calls = (1 + length (exported_fd cmd))%nat.
Proof.
  intros Hassert.
  destruct cmd; cbn [dispatch_driver_command poisons exported_fd];
    try (eexists; split; [reflexivity|]; split; reflexivity).
  - (* vkWaitForFences *)
    unfold vkr_dispatch_vkWaitForFences, outcome.
    cbn [h_world h_calls wff_ret].
    destruct (decide (answer = VK_ERROR_DEVICE_LOST)).
    + rewrite bool_decide_eq_true_2 by done. by eexists.
    + rewrite bool_decide_eq_false_2 by done. by eexists.
  - (* vkResetFenceResource100000MESA *)
    unfold vkr_dispatch_vkResetFenceResource100000MESA, outcome.
    destruct (decide (answer ≠ VK_SUCCESS)) as [Hf|Hs].
    + rewrite bool_decide_eq_true_2 by done.
      rewrite bool_decide_eq_false_2 by (by intros []). by eexists.
    + apply dec_stable in Hs. rewrite bool_decide_eq_false_2 by (by intros ?).
      destruct (decide (0 ≤ fd)%Z).
      * rewrite bool_decide_eq_true_2 by done. by eexists.
      * rewrite bool_decide_eq_false_2 by (by intros []). by eexists.
  - (* vkWaitSemaphores *)
    unfold vkr_dispatch_vkWaitSemaphores, outcome.
    cbn [h_world h_calls ws_ret].
    destruct (decide (answer = VK_ERROR_DEVICE_LOST)).
    + rewrite bool_decide_eq_true_2 by done. by eexists.
    + rewrite bool_decide_eq_false_2 by done. by eexists.
  - (* vkWaitSemaphoreResource100000MESA *)
    unfold vkr_dispatch_vkWaitSemaphoreResource100000MESA, outcome.
    destruct (decide (answer ≠ VK_SUCCESS)) as [Hf|Hs].
    + rewrite bool_decide_eq_true_2 by done.
      rewrite bool_decide_eq_false_2 by (by intros []). by eexists.
    + apply dec_stable in Hs. rewrite bool_decide_eq_false_2 by (by intros ?).
      destruct (decide (0 ≤ fd)%Z).
      * rewrite bool_decide_eq_true_2 by done. by eexists.
      * rewrite bool_decide_eq_false_2 by (by intros []). by eexists.
  - (* vkImportSemaphoreResource100000MESA *)
    unfold vkr_dispatch_vkImportSemaphoreResource100000MESA, outcome.
    cbn [assertion_holds] in Hassert.
    rewrite decide_False by (by intros ?). cbn [fmap option_fmap option_map].
    destruct (decide (answer ≠ VK_SUCCESS)).
    + rewrite bool_decide_eq_true_2 by done. by eexists.
    + rewrite bool_decide_eq_false_2 by done. by eexists.
Qed.

Lemma dispatch_driver_commands_effect cmds w :
  Forall (assertion_holds R) cmds →
  ∃ calls,
    dispatch_driver_commands R cmds w =
      Some (if existsb poisons cmds then vkr_cs_decoder_set_fatal w else w,
            calls) ∧
    closed_fds calls = cmds ≫= exported_fd ∧
    length calls = (length cmds + length (cmds ≫= exported_fd))%nat.
Proof.
  revert w. induction cmds as [|cmd cmds IH]; intros w Hassert.
  - by exists [].
  - apply Forall_cons in Hassert as [Hcmd Hassert].
    destruct (dispatch_driver_command_effect cmd w Hcmd)
      as (c1 & H1 & Hfd1 & Hlen1).
    destruct (IH (if poisons cmd then vkr_cs_decoder_set_fatal w else w)
                 Hassert) as (c2 & H2 & Hfd2 & Hlen2).
    exists (c1 ++ c2). cbn [dispatch_driver_commands existsb].
    rewrite H1, H2, set_fatal_if. split; [done|].
    unfold closed_fds in *. rewrite bind_app, Hfd1, Hfd2.
    split; [done|]. rewrite length_app, Hlen1, Hlen2.
    cbn [mbind list_bind]. rewrite length_app. simpl. lia.
Qed.

(** X15. A stream of commands for the handlers that forward to the
    driver, none of which trips the assertion of the import, is handled
    to its end. The world at the end is the one of the start, with the
    fatal flag of the decoder set in addition when some answer of the
    driver poisons: device loss for vkWaitForFences and vkWaitSemaphores,
    any failure for the two exports of a sync file and for the import.
    Every other result, VK_ERROR_DEVICE_LOST from vkQueueSubmit included,
    goes back to the guest without marking the decoder. *)
Theorem driver_commands_poison_decoder (cmds : list driver_command)
    (w : world) :
  Forall (assertion_holds R) cmds →
  ∃ calls,
    dispatch_driver_commands R cmds w =
      Some (if existsb poisons cmds then vkr_cs_decoder_set_fatal w else w,
            calls).
Proof.
  intros Hassert.
  destruct (dispatch_driver_commands_effect cmds w Hassert)
    as (calls & Heq & _).
  by exists calls.
Qed.

Lemma dispatch_driver_commands_asserts cmds w r :
  dispatch_driver_commands R cmds w = Some r →
  Forall (assertion_holds R) cmds.
Proof.
  revert w r. induction cmds as [|cmd cmds IH]; intros w r; [by constructor|].
  cbn [dispatch_driver_commands].
  destruct (dispatch_driver_command R cmd w) as [[w1 c1]|] eqn:H1; [|done].
  destruct (dispatch_driver_commands R cmds w1) as [[w2 c2]|] eqn:H2;
    [|done].
  intros _. constructor; [|by eapply IH].
  destruct cmd; try done. cbn [dispatch_driver_command] in H1.
  unfold vkr_dispatch_vkImportSemaphoreResource100000MESA in H1.
  cbn [assertion_holds].
  destruct (decide (isr_resourceId _ ≠ 0)) as [|He]; [done|].
  by apply dec_stable in He.
Qed.

(** X16. Whenever a stream of such commands is handled to its end, the
    file descriptors closed are, in order, exactly those that the driver
    handed over in answer to a successful
    vkResetFenceResource100000MESA or
    vkWaitSemaphoreResource100000MESA, each closed once and a negative
    one never; and besides these closes every command makes exactly one
    call. *)
Theorem exported_sync_fds_are_closed (cmds : list driver_command)
    (w w' : world) (calls : list driver_call) :
  dispatch_driver_commands R cmds w = Some (w', calls) →
  closed_fds calls = cmds ≫= exported_fd ∧
  length calls = (length cmds + length (closed_fds calls))%nat.
Proof.
  intros Hrun.
  destruct (dispatch_driver_commands_effect cmds w
              (dispatch_driver_commands_asserts _ _ _ Hrun))
    as (calls' & Heq & Hfd & Hlen).
  rewrite Hrun in Heq. injection Heq as _ <-.
  by rewrite Hfd.
Qed.

End driver_commands_properties.

(** ** Several queues of one device

    The queues of a device share its pool. An event of a schedule of the
    device names the queue it is about. *)

(** One step of a queue moves objects between the free list and the
    registry, or adds one that was not allocated; it writes no object
    that is allocated and off the free list. *)
Lemma step_pool queue ev w :
  queue_inv queue w →
  let w' := step queue ev w in
  ∃ x, (x = [] ∨ ∃ a, x = [a] ∧ a ∉ dom (syncs w)) ∧
    free_syncs (dev w') ++ pending_syncs (queue_at w' queue) ≡ₚ
      x ++ free_syncs (dev w) ++ pending_syncs (queue_at w queue) ∧
    (∀ a, a ∈ dom (syncs w) → a ∈ dom (syncs w')) ∧
    (∀ a, a ∈ x → a ∈ dom (syncs w')) ∧
    (∀ a, a ∉ free_syncs (dev w) → a ∈ dom (syncs w) →
          sync_at w' a = sync_at w a).
Proof.
  intros Hinv w'. subst w'.
  destruct ev as [e flags ring_idx fence_id| |r]; simpl.
  - pose proof (submit_effect e queue flags ring_idx fence_id w) as He.
    pose proof (alloc_effect (submit_alloc e) flags ring_idx fence_id w) as Ha.
    simpl in He, Ha. destruct He as (_ & _ & He).
    destruct Ha as (Hqa & _ & _ & Ha).
    set (s := vkr_queue_sync_submit e queue flags ring_idx fence_id w) in *.
    destruct (vkr_device_alloc_queue_sync (submit_alloc e) flags ring_idx
                fence_id w) as [[a|] wa]; simpl in *.
    2: { rewrite He. simpl. destruct Ha as [Hs Hf]. exists [].
         unfold queue_at, sync_at. rewrite Hs, Hf, Hqa.
         repeat split; auto. intros a Ha. by apply elem_of_nil in Ha. }
    destruct Ha as [[f Hsa] Hfree].
    assert (∃ sv, syncs s.2 = <[a := sv]> (syncs w) ∧
              ((free_syncs (dev s.2) = free_syncs (dev wa) ∧
                pending_syncs (queue_at s.2 queue) =
                  pending_syncs (queue_at w queue) ++ [a]) ∨
               (free_syncs (dev s.2) = free_syncs (dev wa) ++ [a] ∧
                pending_syncs (queue_at s.2 queue) =
                  pending_syncs (queue_at w queue))))
      as (sv & Hs & Hlists).
    { destruct (decide (submit_result e = VK_ERROR_DEVICE_LOST
                        ∨ submit_result e = VK_SUCCESS)).
      - destruct He as (_ & [f' Hs] & Hf & Hq). eexists. split; [exact Hs|].
        left. split; [done|]. unfold queue_at at 1.
        by rewrite Hq, lookup_total_insert_eq.
      - destruct He as (_ & Hs & Hf & Hq). eexists. split.
        { rewrite Hs. exact Hsa. }
        right. split; [done|]. unfold queue_at. by rewrite Hq. }
    assert (∀ a', a' ∈ dom (syncs w) → a' ∈ dom (syncs s.2)) as Hdom.
    { intros a' Ha'. rewrite Hs. apply elem_of_dom.
      destruct (decide (a' = a)) as [->|Hne].
      - by rewrite lookup_insert_eq.
      - rewrite lookup_insert_ne by done. by apply elem_of_dom. }
    assert (a ∈ dom (syncs s.2)) as Hadom.
    { rewrite Hs. apply elem_of_dom. by rewrite lookup_insert_eq. }
    destruct Hfree as [Hfree|(Hfree & Hfa & Hfresh)].
    + exists []. split; [by left|]. split.
      { rewrite Hfree. cbn [app].
        destruct Hlists as [[-> ->]|[-> ->]].
        - rewrite app_assoc. by rewrite <- Permutation_cons_append.
        - rewrite <- app_assoc. cbn [app].
          by rewrite <- Permutation_middle. }
      split; [done|]. split.
      { intros a' Ha'. by apply elem_of_nil in Ha'. }
      intros a' Hnf _. unfold sync_at. rewrite Hs.
      apply lookup_total_insert_ne. intros ->. apply Hnf.
      rewrite Hfree. by left.
    + exists [a]. split; [right; by exists a|]. split.
      { rewrite Hfree. cbn [app].
        destruct Hlists as [[-> ->]|[-> ->]]; rewrite Hfa; cbn [app].
        - by rewrite <- Permutation_cons_append.
        - done. }
      split; [done|]. split.
      { intros a' ->%list_elem_of_singleton. done. }
      intros a' _ Ha'. unfold sync_at. rewrite Hs.
      apply lookup_total_insert_ne. by intros ->.
  - destruct (wakeup_effect queue w) as (Hs & Hd & _ & Hq & _).
    exists []. rewrite Hd. unfold sync_at. rewrite Hs.
    assert (pending_syncs (queue_at (vkr_queue_thread_wakeup queue w) queue)
            = pending_syncs (queue_at w queue)) as ->.
    { rewrite Hq. by destruct (thread (queue_at w queue)). }
    repeat split; auto. intros a Ha. by apply elem_of_nil in Ha.
  - exists [].
    destruct (thread (queue_at w queue)) as [|sync|] eqn:Hthread.
    1,3: unfold vkr_queue_thread_wait_returns; rewrite Hthread;
         repeat split; auto; intros a Ha; by apply elem_of_nil in Ha.
    destruct (queue_inv_head _ _ _ Hinv Hthread) as [rest Hpend].
    destruct (wait_result_cases (sync_device_lost (sync_at w sync)) r)
      as [Hl|[Hr|[Hl Hr]]].
    3: { destruct (wait_returns_timeout r queue w sync Hthread Hl Hr)
           as (Hs & Hd & _ & Hq & _).
         unfold sync_at. rewrite Hs, Hd, Hq.
         repeat split; auto. intros a Ha. by apply elem_of_nil in Ha. }
    all: edestruct (wait_returns_retire r queue w sync Hthread)
           as (Hs & Hd & _ & Hq & _);
         [ (by left) || (by right) | ];
         unfold sync_at; rewrite Hs, Hd, Hq;
         cbn [free_syncs with_free_syncs pending_syncs with_thread
              with_pending_syncs];
         rewrite Hpend, list_del_head, <- app_assoc;
         repeat split; auto; intros a Ha; by apply elem_of_nil in Ha.
Qed.

Lemma device_pending_ext qs w w' :
  (∀ q, q ∈ qs → pending_syncs (queue_at w' q) = pending_syncs (queue_at w q)) →
  device_pending qs w' = device_pending qs w.
Proof.
  unfold device_pending. induction qs as [|q qs IH]; intros Hq; [done|].
  cbn [mbind list_bind]. rewrite (Hq q) by by left.
  f_equal. apply IH. intros q' Hq'. apply Hq. by right.
Qed.

(** The registry of one queue taken out of those of the device. *)
Lemma device_pending_split qs q :
  NoDup qs → q ∈ qs →
  ∃ qs', (q ∉ qs') ∧
    (∀ q', q' ∈ qs → q' ≠ q → q' ∈ qs') ∧
    ∀ w, device_pending qs w ≡ₚ
         pending_syncs (queue_at w q) ++ device_pending qs' w.
Proof.
  intros Hnd Hq. apply list_elem_of_split in Hq as (l1 & l2 & ->).
  exists (l1 ++ l2). split; [|split].
  - apply NoDup_app in Hnd as (_ & Hdis & Hnd2).
    apply NoDup_cons in Hnd2 as [Hq2 _].
    intros [Hin|Hin]%elem_of_app; [|done].
    apply (Hdis q Hin). by left.
  - intros q' Hq' Hne. rewrite elem_of_app in Hq' |- *.
    destruct Hq' as [?|[->|?]%elem_of_cons]; auto. done.
  - intros w. unfold device_pending. rewrite !bind_app. cbn [mbind list_bind].
    by rewrite Permutation_app_swap_app.
Qed.

Lemma device_inv_queue_inv qs q w :
  device_inv qs w → q ∈ qs → queue_inv q w.
Proof.
  intros [Hqs Hnd Hal Hth] Hq.
  destruct (device_pending_split qs q Hqs Hq) as (qs' & _ & _ & Hperm).
  split.
  - rewrite (Hperm w), app_assoc in Hnd. by apply NoDup_app in Hnd as [? _].
  - intros a Ha. apply Hal. rewrite (Hperm w), app_assoc.
    apply elem_of_app. by left.
  - intros a. by apply Hth.
Qed.

Lemma step_device_inv qs q ev w :
  device_inv qs w → q ∈ qs → device_inv qs (step q ev w).
Proof.
  intros Hdinv Hq.
  pose proof (device_inv_queue_inv qs q w Hdinv Hq) as Hinv.
  destruct Hdinv as [Hqs Hnd Hal Hth].
  destruct (device_pending_split qs q Hqs Hq) as (qs' & Hq' & _ & Hperm).
  destruct (step_pool q ev w Hinv) as (x & Hx & Hlists & Hdom & Hxdom & _).
  destruct (step_frame q ev w) as (_ & _ & Hfr & _).
  destruct (step_inv q ev w Hinv) as (Hinv' & _).
  set (w' := step q ev w) in *. clearbody w'.
  assert (device_pending qs' w' = device_pending qs' w) as Hrest.
  { apply device_pending_ext. intros q0 Hq0. rewrite Hfr; [done|].
    by intros ->. }
  assert (free_syncs (dev w') ++ device_pending qs w' ≡ₚ
          x ++ free_syncs (dev w) ++ device_pending qs w) as Hall.
  { rewrite (Hperm w'), (Hperm w), Hrest.
    rewrite (app_assoc (free_syncs (dev w'))), Hlists.
    by rewrite <- !app_assoc. }
  split; [done| | |].
  - rewrite Hall. destruct Hx as [->|(a & -> & Ha)]; [done|].
    cbn [app]. apply NoDup_cons. split; [|done].
    intros Hin. by apply Ha, Hal.
  - intros a. rewrite Hall. intros [Ha|Ha]%elem_of_app; [by apply Hxdom|].
    by apply Hdom, Hal.
  - intros q0 a Hq0. destruct (decide (q0 = q)) as [->|Hne].
    + apply (inv_thread _ _ Hinv').
    + rewrite Hfr by done. by apply Hth.
Qed.

Lemma run_device_inv qs evs w :
  device_inv qs w → Forall (λ e, e.1 ∈ qs) evs →
  device_inv qs (run_device evs w).
Proof.
  revert w. induction evs as [|e evs IH]; intros w Hinv Hevs; [done|].
  apply Forall_cons in Hevs as [He Hevs].
  apply IH; [|done]. by apply step_device_inv.
Qed.

Lemma device_pending_elem qs q a w :
  q ∈ qs → a ∈ pending_syncs (queue_at w q) → a ∈ device_pending qs w.
Proof.
  intros Hq Ha. unfold device_pending. apply list_elem_of_bind.
  by exists q.
Qed.

(** X17. Several queues share the pool of their device. From a state
    that keeps the ownership discipline of the device, every schedule of
    submissions and thread steps on these queues leads to a state that
    keeps it: each queue keeps the discipline of its own, no object of a
    registry is on the free list, and no object is in the registries of
    two queues. *)
Theorem device_pool_ownership (qs : list addr)
    (evs : list (addr * sched_event)) (w : world) :
  device_inv qs w → Forall (λ e, e.1 ∈ qs) evs →
  let w' := run_device evs w in
  device_inv qs w' ∧
  (∀ q, q ∈ qs → queue_inv q w') ∧
  (∀ q a, q ∈ qs → a ∈ pending_syncs (queue_at w' q) →
          a ∉ free_syncs (dev w')) ∧
  (∀ q1 q2 a, q1 ∈ qs → q2 ∈ qs → q1 ≠ q2 →
              a ∈ pending_syncs (queue_at w' q1) →
              a ∉ pending_syncs (queue_at w' q2)).
Proof.
  intros Hinv Hevs w'.
  pose proof (run_device_inv qs evs w Hinv Hevs) as Hinv'. fold w' in Hinv'.
  clearbody w'. split; [done|]. split; [|split].
  - intros q Hq. by eapply device_inv_queue_inv.
  - intros q a Hq Ha Hfree.
    destruct Hinv' as [_ Hnd _ _]. apply NoDup_app in Hnd as (_ & Hdis & _).
    apply (Hdis a Hfree). by eapply device_pending_elem.
  - intros q1 q2 a Hq1 Hq2 Hne Ha1 Ha2.
    destruct Hinv' as [Hqs Hnd _ _].
    destruct (device_pending_split qs q1 Hqs Hq1)
      as (qs' & _ & Hin & Hperm).
    rewrite (Hperm w') in Hnd.
    apply NoDup_app in Hnd as (_ & _ & Hnd).
    apply NoDup_app in Hnd as (_ & Hdis & _).
    apply (Hdis a Ha1). apply (device_pending_elem qs' q2); [|done].
    apply Hin; [done|]. by intros ->.
Qed.

Lemma step_other_registry qs q q' ev w :
  device_inv qs w → q ∈ qs → q' ∈ qs → q ≠ q' →
  registry (step q' ev w) q = registry w q.
Proof.
  intros Hdinv Hq Hq' Hne.
  pose proof (device_inv_queue_inv qs q' w Hdinv Hq') as Hinv'.
  destruct (step_pool q' ev w Hinv') as (_ & _ & _ & _ & _ & Hsame).
  destruct (step_frame q' ev w) as (_ & _ & Hfr & _).
  apply registry_ext; [by rewrite Hfr|].
  intros a Ha. destruct Hdinv as [_ Hnd Hal _].
  pose proof (device_pending_elem qs q a w Hq Ha) as Hin.
  apply Hsame.
  - apply NoDup_app in Hnd as (_ & Hdis & _). intros Hf. by apply (Hdis a).
  - apply Hal, elem_of_app. by right.
Qed.

(** X18. With several queues sharing the pool, and whatever the other
    queues do in between: what the steps of one queue have reported to
    the callback, followed by what the callback is owed for the registry
    of that queue, is what it was owed for that registry at the start
    followed by the accepted submissions to that queue, in submission
    order. *)
Theorem device_fifo_per_queue (qs : list addr)
    (evs : list (addr * sched_event)) (q : addr) (w : world) :
  device_inv qs w → Forall (λ e, e.1 ∈ qs) evs → q ∈ qs →
  let w' := run_device evs w in
  retired_by q evs w ++ in_flight w' q =
    in_flight w q ++ accepted_by q evs w.
Proof.
  intros Hinv Hevs Hq. revert w Hinv.
  induction evs as [|[q' ev] evs IH]; intros w Hinv.
  - simpl. by rewrite app_nil_r.
  - apply Forall_cons in Hevs as [Hq' Hevs]. cbn [fst] in Hq'.
    specialize (IH Hevs (step q' ev w) (step_device_inv qs q' ev w Hinv Hq')).
    pose proof (device_inv_queue_inv qs q' w Hinv Hq') as Hinv'.
    destruct (step_inv q' ev w Hinv') as (_ & Hid & done & Hreg & Hret).
    change (run_device ((q', ev) :: evs) w)
      with (run_device evs (step q' ev w)).
    cbv zeta in IH |- *. cbn [retired_by accepted_by fst snd].
    destruct (decide (q' = q)) as [->|Hne].
    + rewrite Hret, drop_app_length, <- !app_assoc, IH.
      rewrite !app_assoc. f_equal.
      rewrite !in_flight_registry, accepted1_submitted1, Hid.
      by rewrite <- !fmap_app, Hreg.
    + cbn [app]. rewrite IH. f_equal.
      rewrite !in_flight_registry, Hid.
      by rewrite (step_other_registry qs q q' ev w).
Qed.

(** X19. [vkr_queue_sync_submit] returns true exactly when an object was
    obtained from the pool and vkQueueSubmit answered VK_SUCCESS or
    VK_ERROR_DEVICE_LOST. When it returns true the object obtained is the
    last of the registry and carries the ring index and the fence id of
    the call, marked device-lost exactly on device loss. When it returns
    false no queue object has changed, and when no object could be
    obtained nothing happened beyond the failed acquire: vkQueueSubmit
    was not called. In every case the context is as before, so a
    submission never calls the callback. *)
Theorem sync_submit_contract (e : submit_env) (queue : addr)
    (flags ring_idx fence_id : N) (w : world) :
  let a := vkr_device_alloc_queue_sync (submit_alloc e) flags ring_idx
                                       fence_id w in
  let s := vkr_queue_sync_submit e queue flags ring_idx fence_id w in
  (s.1 = true ↔
   is_Some a.1 ∧
   (submit_result e = VK_SUCCESS ∨ submit_result e = VK_ERROR_DEVICE_LOST)) ∧
  (s.1 = true →
   ∃ sync, a.1 = Some sync ∧
     pending_syncs (queue_at s.2 queue) =
       pending_syncs (queue_at w queue) ++ [sync] ∧
     sync_ring_idx (sync_at s.2 sync) = ring_idx ∧
     sync_fence_id (sync_at s.2 sync) = fence_id ∧
     sync_device_lost (sync_at s.2 sync) =
       bool_decide (submit_result e = VK_ERROR_DEVICE_LOST)) ∧
  (s.1 = false → queue_objs s.2 = queue_objs w) ∧
  (a.1 = None → s = (false, a.2)) ∧
  ctx s.2 = ctx w.
Proof.
  intros a s. subst a s.
  pose proof (submit_effect e queue flags ring_idx fence_id w) as He.
  pose proof (alloc_effect (submit_alloc e) flags ring_idx fence_id w) as Ha.
  simpl in He, Ha. destruct He as (Hc & _ & He). rewrite Hc.
  destruct Ha as (Hqa & _).
  destruct (vkr_device_alloc_queue_sync (submit_alloc e) flags ring_idx
              fence_id w) as [[sync|] wa]; simpl in *.
  2: { rewrite He. simpl. repeat split; try done.
       by intros [[? ?] _]. }
  destruct (decide (submit_result e = VK_ERROR_DEVICE_LOST
                    ∨ submit_result e = VK_SUCCESS)) as [Hok|Hbad].
  - destruct He as (Htrue & [f' Hs] & _ & Hq). rewrite Htrue.
    split; [split; [intros _; split; [by eexists|tauto]|done]|].
    split; [|done]. intros _. exists sync. split; [done|]. split.
    + unfold queue_at at 1. by rewrite Hq, lookup_total_insert_eq.
    + unfold sync_at. by rewrite Hs, lookup_total_insert_eq.
  - destruct He as (Hfalse & _ & _ & Hq). rewrite Hfalse.
    repeat split; try done. intros [_ [?|?]]; destruct Hbad; auto.
Qed.



Lemma alloc_fence_stable e flags ring_idx fence_id w a :
  a ∈ dom (syncs w) →
  let r := vkr_device_alloc_queue_sync e flags ring_idx fence_id w in
  a ∈ dom (syncs r.2) ∧
  sync_fence (sync_at r.2 a) = sync_fence (sync_at w a).
Proof.
  intros Ha r. subst r. unfold vkr_device_alloc_queue_sync. cbv zeta.
  destruct (free_syncs (dev (emit (mtx_lock free_sync_mutex) w)))
    as [|sync rest].
  - destruct (malloc_result e) as [garbage|]; [|by wsimpl].
    pose proof (is_fresh (dom (syncs w))) as Hfresh.
    assert (a ≠ fresh (dom (syncs w))) as Hne by (by intros ->).
    destruct (decide (create_result e ≠ VK_SUCCESS)); wsimpl.
    + rewrite delete_insert_eq.
      rewrite dom_delete_L, lookup_total_delete_ne by done.
      split; [|done]. apply elem_of_difference. split; [done|].
      by intros ?%elem_of_singleton.
    + rewrite !dom_insert_L, !lookup_total_insert_ne by done.
      split; [|done]. by do 2 (apply elem_of_union; right).
  - wsimpl. rewrite dom_insert_L. split; [by apply elem_of_union; right|].
    destruct (decide (a = sync)) as [->|Hne].
    + by rewrite lookup_total_insert_eq.
    + by rewrite lookup_total_insert_ne.
Qed.

Lemma step_fence_stable queue ev w a :
  a ∈ dom (syncs w) →
  let w' := step queue ev w in
  a ∈ dom (syncs w') ∧
  sync_fence (sync_at w' a) = sync_fence (sync_at w a).
Proof.
  intros Ha w'. subst w'.
  destruct ev as [e flags ring_idx fence_id| |r]; simpl.
  - unfold vkr_queue_sync_submit.
    destruct (alloc_fence_stable (submit_alloc e) flags ring_idx fence_id w a
                Ha) as [Hdom Hf].
    destruct (vkr_device_alloc_queue_sync (submit_alloc e) flags ring_idx
                fence_id w) as [[sync|] wa]; simpl in *; [|done].
    destruct (decide (submit_result e = VK_ERROR_DEVICE_LOST));
      [|destruct (decide (submit_result e ≠ VK_SUCCESS))];
      unfold sync_submit_enqueue; rewrite ?free_queue_sync_eq; wsimpl;
      try done.
    rewrite dom_insert_L. split; [by apply elem_of_union; right|].
    destruct (decide (a = sync)) as [->|Hne].
    + by rewrite lookup_total_insert_eq.
    + by rewrite lookup_total_insert_ne.
  - destruct (wakeup_effect queue w) as (Hs & _).
    unfold sync_at. by rewrite Hs.
  - destruct (thread (queue_at w queue)) as [|sync|] eqn:Hthread.
    1,3: unfold vkr_queue_thread_wait_returns; by rewrite Hthread.
    destruct (wait_result_cases (sync_device_lost (sync_at w sync)) r)
      as [Hl|[Hr|[Hl Hr]]].
    3: { destruct (wait_returns_timeout r queue w sync Hthread Hl Hr)
           as (Hs & _).
         unfold sync_at. by rewrite Hs. }
    all: edestruct (wait_returns_retire r queue w sync Hthread)
           as (Hs & _);
         [ (by left) || (by right) | ];
         unfold sync_at; by rewrite Hs.
Qed.

(** X21. An allocated sync object stays allocated and keeps its native
    fence along every schedule of the queues of a device, however often
    it is retired and acquired again: the pool never frees an object and
    never gives it another fence. *)
Theorem sync_fence_is_stable (evs : list (addr * sched_event)) (w : world)
    (a : addr) :
  a ∈ dom (syncs w) →
  let w' := run_device evs w in
  a ∈ dom (syncs w') ∧
  sync_fence (sync_at w' a) = sync_fence (sync_at w a).
Proof.
  revert w. induction evs as [|[q ev] evs IH]; intros w Ha; [done|].
  destruct (step_fence_stable q ev w a Ha) as [Ha1 Hf1].
  destruct (IH _ Ha1) as [Ha2 Hf2].
  change (run_device ((q, ev) :: evs) w)
    with (run_device evs (step q ev w)).
  cbv zeta. split; [done|]. by rewrite Hf2.
Qed.

(** * The model at work on a concrete queue *)

Lemma queue_inv_idle queue w :
  free_syncs (dev w) = [] →
  pending_syncs (queue_at w queue) = [] →
  thread (queue_at w queue) = T_cnd_wait →
  queue_inv queue w.
Proof.
  intros Hf Hp Ht. split; rewrite ?Hf, ?Hp, ?Ht; simpl.
  - apply NoDup_nil_2.
  - intros a Ha. by apply elem_of_nil in Ha.
  - done.
Qed.


Lemma example_start_inv : queue_inv example_queue example_start.
Proof. apply queue_inv_idle; reflexivity. Qed.

Lemma example_waiting_inv : queue_inv example_queue example_waiting.
Proof. apply run_inv, example_start_inv. Qed.

(** Two submissions with fence ids 10 and 11, a timeout on the first,
    then teardown: the callback is called for 10, then for 11. *)
Lemma retire_fence_fifo_witness :
  queue_inv example_queue example_start ∧
  retired (ctx (vkr_queue_destroy VK_SUCCESS example_queue
                  (run example_queue example_schedule example_start)))
  = [(7, 1, 10); (7, 2, 11)].
Proof.
  split; [exact example_start_inv|].
  rewrite (proj2 (proj2 (proj2
    (retire_fence_fifo example_queue example_schedule VK_SUCCESS
       example_start example_start_inv)))).
  vm_compute. reflexivity.
Defined.

(** A submission that hits device loss, retired by the thread without a
    wait, whatever the driver would have answered. *)
Lemma device_lost_submit_retire_witness :
  queue_inv example_queue example_start ∧
  (let s := vkr_queue_sync_submit (example_env 500 VK_ERROR_DEVICE_LOST)
              example_queue 0 3 42 example_start in
   let w1 := run example_queue [Ev_wakeup] s.2 in
   let w2 := vkr_queue_thread_wait_returns VK_TIMEOUT example_queue w1 in
   s.1 = true ∧
   retired (ctx w2) = retired (ctx w1) ++ [(7, 3, 42)] ∧
   free_syncs (dev w2) = free_syncs (dev w1) ++ [1%positive]).
Proof.
  split; [exact example_start_inv|].
  destruct (device_lost_submit_retire (example_env 500 VK_ERROR_DEVICE_LOST)
              example_queue 0 3 42 example_start 1%positive
              example_start_inv eq_refl eq_refl)
    as (Hok & _ & _ & Hlater).
  destruct (Hlater [Ev_wakeup] VK_TIMEOUT eq_refl eq_refl)
    as (_ & _ & Hret & Hfree).
  split; [exact Hok|]. split; [exact Hret|exact Hfree].
Defined.


(** A submission refused with VK_ERROR_OUT_OF_HOST_MEMORY (-1). *)
Lemma submit_failure_releases_witness :
  queue_inv example_queue example_start ∧
  (let s := vkr_queue_sync_submit (example_env 500 (-1)%Z) example_queue
              0 1 10 example_start in
   s.1 = false ∧ free_syncs (dev s.2) = [1%positive] ∧
   registry s.2 example_queue = registry example_start example_queue).
Proof.
  split; [exact example_start_inv|].
  destruct (submit_failure_releases (example_env 500 (-1)%Z) example_queue
              0 1 10 example_start 1%positive example_start_inv eq_refl)
    as (Hfalse & Hfree & _ & _ & Hreg & _); [done|done|].
  split; [exact Hfalse|]. split; [|exact Hreg].
  rewrite Hfree. vm_compute. reflexivity.
Defined.

(** The thread waits on the object of one submission; a timeout leaves
    everything in place and the thread waits on it again. *)
Lemma thread_wait_timeout_retry_witness :
  queue_inv example_queue example_waiting ∧
  thread (queue_at example_waiting example_queue) = T_fence_wait 1%positive ∧
  sync_device_lost (sync_at example_waiting 1%positive) = false ∧
  (let w' := vkr_queue_thread_wait_returns VK_TIMEOUT example_queue
               example_waiting in
   ctx w' = ctx example_waiting ∧
   pending_syncs (queue_at w' example_queue) = [1%positive] ∧
   thread (queue_at w' example_queue) = T_fence_wait 1%positive).
Proof.
  split; [exact example_waiting_inv|].
  split; [reflexivity|]. split; [reflexivity|].
  destruct (thread_wait_timeout_retry VK_TIMEOUT example_queue
              example_waiting 1%positive example_waiting_inv
              eq_refl eq_refl)
    as (_ & Htimeout & _).
  destruct (Htimeout eq_refl) as (_ & _ & Hc & Hp & Ht).
  split; [exact Hc|]. split; [exact Hp|exact Ht].
Defined.

(** C8 as stated fails when teardown has asked the thread to return: the
    thread waits on an object that is not device-lost, its wait ends with
    VK_TIMEOUT, and the thread returns instead of waiting on the object
    again; the object stays in the registry and is then retired by
    [vkr_queue_destroy] although no wait on it ever ended otherwise. *)
Lemma thread_wait_timeout_join_counterexample :
  thread (queue_at example_joining example_queue) = T_fence_wait 1%positive ∧
  sync_device_lost (sync_at example_joining 1%positive) = false ∧
  join (queue_at example_joining example_queue) = true ∧
  (let w' := vkr_queue_thread_wait_returns VK_TIMEOUT example_queue
               example_joining in
   thread (queue_at w' example_queue) = T_exited ∧
   pending_syncs (queue_at w' example_queue) = [1%positive] ∧
   retired (ctx w') = []) ∧
  (let w' := vkr_queue_destroy VK_TIMEOUT example_queue example_waiting in
   filter is_vk_call (drop (length (trace example_waiting)) (trace w'))
     = [vk_WaitForFences 500 3000000000 VK_TIMEOUT] ∧
   retired (ctx w') = [(7, 1, 10)]).
Proof. vm_compute. repeat split. Qed.

(** Three submissions in a row on one queue, the second device-lost: one
    fence is created. *)
Lemma pool_reuse_single_fence_witness :
  queue_inv example_queue example_start ∧
  sequential example_queue example_cycles example_start ∧
  created_fences (trace (run example_queue example_cycles example_start))
  = 1%nat.
Proof.
  assert (sequential example_queue example_cycles example_start) as Hseq
    by (vm_compute; repeat split).
  split; [exact example_start_inv|]. split; [exact Hseq|].
  destruct (pool_reuse_single_fence example_queue example_cycles
              example_start example_start_inv eq_refl eq_refl Hseq)
    as (_ & Hone & _).
  assert (accepted example_queue example_cycles example_start ≠ []) as Hacc
    by (vm_compute; discriminate).
  specialize (Hone Hacc).
  change (created_fences (trace example_start)) with 0%nat in Hone.
  rewrite Nat.sub_0_r in Hone. exact Hone.
Defined.

(** Binding ring 2 to the example queue, with a validation that accepts
    every id. *)
Lemma get_device_queue2_ring_binding_witness :
  vkr_device_lookup_queue 0 0 0 example_start = Some example_queue ∧
  (let w' := vkr_dispatch_vkGetDeviceQueue2 (λ _ _, (true, false))
               (mk_GetDeviceQueue2 0 0 0 (Some 2) 55) example_start in
   sync_queue_at w' 2 = Some example_queue ∧
   queue_ring_idx (queue_at w' example_queue) = 2).
Proof.
  split; [reflexivity|].
  destruct (get_device_queue2_ring_binding (λ _ _, (true, false))
              (mk_GetDeviceQueue2 0 0 0 (Some 2) 55) example_start
              example_queue 2 eq_refl eq_refl)
    as (_ & _ & Hbind).
  destruct Hbind as (_ & Hslot & Hidx & _); [vm_compute; done|reflexivity|].
  split; [exact Hslot|exact Hidx].
Defined.

(** ** The further properties on the concrete queue *)

(** The example queue is given the id 55; asking again changes nothing. *)
Lemma get_device_queue_idempotent_witness :
  let args := mk_GetDeviceQueue 0 0 55 in
  let w1 := vkr_dispatch_vkGetDeviceQueue example_validate args
              example_start in
  queue_id (queue_at w1 example_queue) = 55 ∧
  vkr_dispatch_vkGetDeviceQueue example_validate args w1 = w1.
Proof.
  split; [reflexivity|].
  apply (get_device_queue_idempotent example_validate
           (mk_GetDeviceQueue 0 0 55) example_start).
  intros queue _ _. split; [reflexivity|done].
Defined.

(** The example queue is bound to ring 2; the same command again is
    fatal. *)
Lemma get_device_queue2_rebind_is_fatal_witness :
  let args := mk_GetDeviceQueue2 0 0 0 (Some 2) 55 in
  let w1 := vkr_dispatch_vkGetDeviceQueue2 example_validate args
              example_start in
  decoder_fatal (ctx w1) = false ∧
  sync_queue_at w1 2 = Some example_queue ∧
  vkr_dispatch_vkGetDeviceQueue2 example_validate args w1 =
    vkr_cs_decoder_set_fatal w1.
Proof.
  split; [reflexivity|].
  apply (get_device_queue2_rebind_is_fatal example_validate
           (mk_GetDeviceQueue2 0 0 0 (Some 2) 55) example_start
           example_queue 2); [reflexivity|reflexivity| |reflexivity].
  vm_compute. done.
Defined.

(** A vkQueueWaitIdle followed by a valid vkGetDeviceQueue: the flag
    stays set. *)
Lemma decoder_fatal_is_sticky_witness :
  (∀ c i, decoder_fatal c = true → (example_validate c i).2 = true) ∧
  decoder_fatal
    (ctx (dispatch_queue_commands example_validate
            [cmd_vkQueueWaitIdle (mk_QueueWaitIdle 100);
             cmd_vkGetDeviceQueue (mk_GetDeviceQueue 0 0 55)]
            example_start)) = true.
Proof.
  assert (∀ c i, decoder_fatal c = true → (example_validate c i).2 = true)
    as Hv.
  { intros c i Hf. unfold example_validate. simpl. by rewrite Hf. }
  split; [exact Hv|].
  apply (decoder_fatal_is_sticky example_validate _ example_start Hv).
  right. exists (mk_QueueWaitIdle 100). apply list_elem_of_here.
Defined.

(** Slot 1, and no other, names the example queue once it is bound. *)
Lemma example_bound_slots i :
  sync_queue_at example_bound i = Some example_queue ↔
  0 < i ∧ i = queue_ring_idx (queue_at example_bound example_queue).
Proof.
  change (queue_ring_idx (queue_at example_bound example_queue)) with 1.
  unfold sync_queue_at.
  change (sync_queues (ctx example_bound))
    with [None; Some example_queue; None; None].
  destruct (N.to_nat i) as [|[|[|[|n]]]] eqn:Hi; simpl;
    (split; [intros [=]; lia | intros [? ->]; try done]).
Qed.

(** The bound example queue is destroyed: slot 1 is cleared. *)
Lemma destroy_unbinds_queue_witness :
  (∀ i, sync_queue_at example_bound i = Some example_queue ↔
        0 < i ∧ i = queue_ring_idx (queue_at example_bound example_queue)) ∧
  (let w' := vkr_queue_destroy VK_SUCCESS example_queue example_bound in
   sync_queue_at w' 1 = None ∧ queue_objs w' !! example_queue = None).
Proof.
  split; [exact example_bound_slots|].
  destruct (destroy_unbinds_queue VK_SUCCESS example_queue example_bound
              example_bound_slots) as (_ & Hslots & Hgone).
  split; [|exact Hgone]. rewrite Hslots. reflexivity.
Defined.

(** The example queue, bound to ring 1, is bound to ring 2 as well and
    destroyed: slot 1 still names it. *)
Lemma rebound_queue_leaves_stale_slot_witness :
  let w1 := vkr_dispatch_vkGetDeviceQueue2 example_validate
              (mk_GetDeviceQueue2 0 0 0 (Some 2) 55) example_bound in
  let w2 := vkr_queue_destroy VK_SUCCESS example_queue w1 in
  decoder_fatal (ctx w1) = false ∧
  sync_queue_at w2 1 = Some example_queue ∧
  queue_objs w2 !! example_queue = None.
Proof.
  destruct (rebound_queue_leaves_stale_slot example_validate
              (mk_GetDeviceQueue2 0 0 0 (Some 2) 55) VK_SUCCESS example_bound
              example_queue 1 2)
    as (_ & _ & _ & _ & _ & Hstale & Hgone);
    [reflexivity|reflexivity|vm_compute; done|reflexivity|reflexivity|].
  split; [reflexivity|]. split; [exact Hstale|exact Hgone].
Defined.


(** The example schedule, then teardown: no object is twice on the free
    list. *)
Lemma pool_ownership_invariant_witness :
  queue_inv example_queue example_start ∧
  NoDup (free_syncs (dev (vkr_queue_destroy VK_SUCCESS example_queue
                            (run example_queue example_schedule
                                 example_start)))).
Proof.
  split; [exact example_start_inv|].
  destruct (pool_ownership_invariant example_queue example_schedule
              VK_SUCCESS example_start example_start_inv)
    as (_ & _ & Hnd & _).
  exact Hnd.
Defined.

(** After the example schedule the fences created are the objects pooled
    or in flight. *)
Lemma fences_are_conserved_witness :
  queue_inv example_queue example_start ∧
  created_fences (trace (run example_queue example_schedule example_start))
  = live_syncs example_queue
      (run example_queue example_schedule example_start).
Proof.
  split; [exact example_start_inv|].
  destruct (fences_are_conserved example_queue example_schedule
              example_start example_start_inv) as [Hc _].
  change (created_fences (trace example_start)) with 0%nat in Hc.
  change (live_syncs example_queue example_start) with 0%nat in Hc.
  rewrite Nat.add_0_r in Hc. exact Hc.
Defined.

Lemma example_backlog_inv : queue_inv example_queue example_backlog.
Proof. apply run_inv, example_start_inv. Qed.

(** Two objects in flight; the thread wakes and both of its waits end,
    the second one with device loss. *)
Lemma thread_drains_registry_witness :
  queue_inv example_queue example_backlog ∧
  (let w' := run example_queue
               [Ev_wakeup; Ev_wait_returns VK_SUCCESS;
                Ev_wait_returns VK_ERROR_DEVICE_LOST] example_backlog in
   pending_syncs (queue_at w' example_queue) = [] ∧
   retired (ctx w') = [(7, 1, 10); (7, 2, 11)]).
Proof.
  split; [exact example_backlog_inv|].
  destruct (thread_drains_registry example_queue
              [VK_SUCCESS; VK_ERROR_DEVICE_LOST] example_backlog
              example_backlog_inv)
    as (Hp & _ & Hr & _);
    [reflexivity|vm_compute; discriminate|reflexivity| |].
  - repeat constructor; discriminate.
  - split; [exact Hp|]. etrans; [exact Hr|]. vm_compute. reflexivity.
Defined.


(** The example stream holds a semaphore wait that hits device loss: the
    decoder ends fatal. *)
Lemma driver_commands_poison_decoder_witness :
  Forall (assertion_holds example_replace) example_driver_commands ∧
  ∃ calls,
    dispatch_driver_commands example_replace example_driver_commands
                             example_start =
    Some (vkr_cs_decoder_set_fatal example_start, calls).
Proof.
  assert (Forall (assertion_holds example_replace) example_driver_commands)
    as Ha by (repeat constructor).
  split; [exact Ha|].
  exact (driver_commands_poison_decoder example_replace
           example_driver_commands example_start Ha).
Defined.

(** The example stream exports one file descriptor, 9, which is closed;
    four driver calls and one close are made. *)
Lemma exported_sync_fds_are_closed_witness :
  ∃ w' calls,
    dispatch_driver_commands example_replace example_driver_commands
                             example_start = Some (w', calls) ∧
    closed_fds calls = [9%Z] ∧ length calls = 5%nat.
Proof.
  eexists _, _. split; [reflexivity|].
  exact (exported_sync_fds_are_closed example_replace example_driver_commands
           example_start _ _ eq_refl).
Defined.

Lemma example_two_queues_inv :
  device_inv [1%positive; 2%positive] example_two_queues.
Proof.
  split.
  - apply (bool_decide_unpack _). vm_compute. reflexivity.
  - apply NoDup_nil_2.
  - intros a Ha. by apply elem_of_nil in Ha.
  - intros q a [->|[->|Hq]%elem_of_cons]%elem_of_cons; [done|done|].
    by apply elem_of_nil in Hq.
Qed.

Lemma example_device_schedule_queues :
  Forall (λ e, e.1 ∈ [1%positive; 2%positive]) example_device_schedule.
Proof.
  repeat constructor; cbn [fst];
    (apply (bool_decide_unpack _); vm_compute; reflexivity).
Qed.

(** Two queues of the example device, with interleaved submissions and
    retirements. *)
Lemma device_pool_ownership_witness :
  device_inv [1%positive; 2%positive] example_two_queues ∧
  Forall (λ e, e.1 ∈ [1%positive; 2%positive]) example_device_schedule ∧
  device_inv [1%positive; 2%positive]
    (run_device example_device_schedule example_two_queues).
Proof.
  split; [exact example_two_queues_inv|].
  split; [exact example_device_schedule_queues|].
  exact (proj1 (device_pool_ownership [1%positive; 2%positive]
                  example_device_schedule example_two_queues
                  example_two_queues_inv example_device_schedule_queues)).
Defined.

(** The second queue retires first, yet the first queue sees its own
    fence ids 10 and 11 in order. *)
Lemma device_fifo_per_queue_witness :
  device_inv [1%positive; 2%positive] example_two_queues ∧
  Forall (λ e, e.1 ∈ [1%positive; 2%positive]) example_device_schedule ∧
  retired (ctx (run_device example_device_schedule example_two_queues))
    = [(7, 2, 20); (7, 1, 10)] ∧
  retired_by 1%positive example_device_schedule example_two_queues ++
  in_flight (run_device example_device_schedule example_two_queues)
            1%positive
    = [(7, 1, 10); (7, 1, 11)].
Proof.
  split; [exact example_two_queues_inv|].
  split; [exact example_device_schedule_queues|].
  split; [vm_compute; reflexivity|].
  etrans.
  - apply (device_fifo_per_queue [1%positive; 2%positive]
             example_device_schedule 1%positive example_two_queues
             example_two_queues_inv example_device_schedule_queues).
    apply (bool_decide_unpack _). vm_compute. reflexivity.
  - vm_compute. reflexivity.
Defined.

(** The object of the first submission is retired and acquired again by
    a submission for which the driver would create fence 777: it still
    has fence 500. *)
Lemma sync_fence_is_stable_witness :
  1%positive ∈ dom (syncs example_waiting) ∧
  sync_fence
    (sync_at (run_device
                [(1%positive, Ev_wait_returns VK_SUCCESS);
                 (1%positive, Ev_submit (example_env 777 VK_SUCCESS) 0 1 12)]
                example_waiting) 1%positive) = 500.
Proof.
  assert (1%positive ∈ dom (syncs example_waiting)) as Ha
    by (apply (bool_decide_unpack _); vm_compute; reflexivity).
  split; [exact Ha|].
  exact (proj2 (sync_fence_is_stable
                  [(1%positive, Ev_wait_returns VK_SUCCESS);
                   (1%positive,
                    Ev_submit (example_env 777 VK_SUCCESS) 0 1 12)]
                  example_waiting 1%positive Ha)).
Defined.
